(** * Verification of the martingale futures trading bot

    A shallow embedding of the parts of the repository whose behaviour the
    specification describes, with the properties proved of them:

    - [Retry]: [BackpackFuturesService.executeWithRetry]
      (src/services/backpackFuturesService.js);
    - [Planner]: [FuturesTradingStrategy.calculateShortOrders] and the price
      range of [calculateFuturesOrders] (src/core/futuresTradingStrategy.js);
    - [TrailingStop]: [FuturesTradingStrategy.calculateDynamicStopLoss];
    - [WsManager]: class [WebSocketManager] (src/network/webSocketManager.js);
    - [PriceMonitor]: class [PriceMonitor] (src/app.js), alone and fed by the
      connection manager;
    - [FuturesApp]: [getPositionInfo], [executeTrade] and the monitoring
      callback of class [FuturesTradingApp];
    - [Strategy]: the exit prices, the triggers, the funding-rate test and
      [evaluateRisk] of [FuturesTradingStrategy];
    - [Backtest]: [simulateBacktest] (src/backtest/backtestRunner.js);
    - [Service]: order creation, [cancelAllOrders], [getFuturesTicker] and
      the price socket of [BackpackFuturesService];
    - [Ladder]: [calculateFuturesOrders] and the two regimes of the short
      ladder;
    - [WsFacts]: invariants of the connection manager over any sequence of
      events;
    - [Cycle]: what [executeTrade] and the monitoring callback send to the
      exchange;
    - [Watchdog]: [checkPriceDataStatus] and [fetchPriceFromApi] of
      [PriceMonitor].

    JavaScript numbers that hold money, prices and percentages are modelled as
    exact rationals ([Q]); counters, identifiers and millisecond clocks as
    integers ([Z]). Logging is left out. *)

From Stdlib Require Import ZArith List Lia Bool String Ascii QArith Qround Lqa.
From Stdlib Require Import Sorted DecimalString Qpower Permutation.
Import ListNotations.

Set Implicit Arguments.

(* ================================================================== *)
(** * RetryExecutor: [executeWithRetry] *)
(* ================================================================== *)

Module Retry.

Local Open Scope Z_scope.

Section Executor.

(** The world the remote call acts on, the values it resolves with and the
    errors it rejects with. *)
Variables (World Val Err : Type).

Inductive outcome : Type :=
| Resolved (v : Val)
| Rejected (e : Err).

(** [apiCall()]: one invocation; it may change the world. *)
Variable apiCall : World -> outcome * World.

(** What an observer sees of one run: invocations of [apiCall] and the
    [setTimeout] waits, in order. *)
Inductive event : Type :=
| Invoke
| Sleep (ms : Z).

(** How the [async] function settles: [return v] or [throw lastError],
    where [lastError] is still [undefined] ([None]) if no attempt ran. *)
Inductive completion : Type :=
| Return (v : Val)
| Throw (lastError : option Err).

(** One finished run: how it settled, the world it left and what it did. *)
Record run : Type := mkRun {
  settled : completion;
  world : World;
  trace : list event
}.

(** The [for (let attempt = 0; attempt < maxRetries; attempt++)] loop.
    [remaining] is the number of iterations the loop condition still
    admits, [maxRetries - attempt]. *)
Fixpoint retry_loop (maxRetries : Z) (remaining : nat) (attempt : Z)
         (lastError : option Err) (w : World) : run :=
  match remaining with
  | O => mkRun (Throw lastError) w []
  | S k =>
      match apiCall w with
      | (Resolved v, w') => mkRun (Return v) w' [Invoke]
      | (Rejected e, w') =>
          let waits :=
            if attempt <? maxRetries - 1
            then [Sleep (2 ^ attempt * 500)]
            else [] in
          let r := retry_loop maxRetries k (attempt + 1) (Some e) w' in
          mkRun (settled r) (world r) (Invoke :: waits ++ trace r)
      end
  end.

Definition executeWithRetry (maxRetries : Z) (w : World) : run :=
  retry_loop maxRetries (Z.to_nat maxRetries) 0 None w.

(** ** Vocabulary of the statements *)

(** The world after the first [k] invocations. *)
Fixpoint world_after (k : nat) (w : World) : World :=
  match k with
  | O => w
  | S k' => world_after k' (snd (apiCall w))
  end.

(** The outcome of invocation number [k] (from 0). *)
Definition nth_outcome (k : nat) (w : World) : outcome :=
  fst (apiCall (world_after k w)).

Definition is_rejected (o : outcome) : Prop :=
  match o with Rejected _ => True | Resolved _ => False end.

Definition invocations (tr : list event) : nat :=
  List.length (filter (fun ev => match ev with Invoke => true | _ => false end) tr).

(** [k] failed attempts numbered [a], [a+1], ..., each followed by its
    exponential back-off wait. *)
Fixpoint backoff_from (a : Z) (k : nat) : list event :=
  match k with
  | O => []
  | S k' => Invoke :: Sleep (2 ^ a * 500) :: backoff_from (a + 1) k'
  end.

Lemma invocations_app tr1 tr2 :
  invocations (tr1 ++ tr2) = (invocations tr1 + invocations tr2)%nat.
Proof.
  unfold invocations. rewrite filter_app, length_app. reflexivity.
Qed.

Lemma invocations_backoff a k : invocations (backoff_from a k) = k.
Proof.
  revert a. induction k as [|k IH]; intro a; [reflexivity|].
  change (S (invocations (backoff_from (a + 1) k)) = S k).
  now rewrite IH.
Qed.

Lemma nth_outcome_S k w :
  nth_outcome (S k) w = nth_outcome k (snd (apiCall w)).
Proof. reflexivity. Qed.

(** The loop, characterised from any iteration on. *)
Lemma retry_loop_spec maxRetries :
  forall k a lastError w,
    Z.of_nat k = maxRetries - a ->
    let r := retry_loop maxRetries k a lastError w in
    (exists j v,
        (j < k)%nat /\
        (forall i, (i < j)%nat -> is_rejected (nth_outcome i w)) /\
        nth_outcome j w = Resolved v /\
        settled r = Return v /\
        trace r = backoff_from a j ++ [Invoke] /\
        world r = world_after (S j) w)
    \/
    ((forall i, (i < k)%nat -> is_rejected (nth_outcome i w)) /\
     world r = world_after k w /\
     match k with
     | O => settled r = Throw lastError /\ trace r = []
     | S k' =>
         exists e, nth_outcome k' w = Rejected e /\
                   settled r = Throw (Some e) /\
                   trace r = backoff_from a k' ++ [Invoke]
     end).
Proof.
  induction k as [|k IH]; intros a lastError w Hk.
  - simpl. right. split; [intros i Hi; lia|]. auto.
  - simpl. destruct (apiCall w) as [o w1] eqn:Hcall.
    assert (Hw1 : snd (apiCall w) = w1) by now rewrite Hcall.
    destruct o as [v|e].
    + left. exists 0%nat, v.
      split; [lia|]. split; [intros i Hi; lia|].
      split; [unfold nth_outcome; simpl; now rewrite Hcall|].
      split; [reflexivity|]. split; [reflexivity|].
      simpl. rewrite ?Hcall. reflexivity.
    + assert (Hk' : Z.of_nat k = maxRetries - (a + 1)) by lia.
      specialize (IH (a + 1) (Some e) w1 Hk').
      remember (retry_loop maxRetries k (a + 1) (Some e) w1) as r eqn:Hr.
      cbv zeta in IH. simpl settled. simpl world. simpl trace.
      assert (H0 : nth_outcome 0 w = Rejected e)
        by (unfold nth_outcome; simpl; now rewrite Hcall).
      assert (Hshift : forall m,
                 (forall i, (i < m)%nat -> is_rejected (nth_outcome i w1)) ->
                 forall i, (i < S m)%nat -> is_rejected (nth_outcome i w)).
      { intros m Hm i Hi. destruct i as [|i].
        - rewrite H0; exact I.
        - rewrite nth_outcome_S, Hw1. apply Hm; lia. }
      destruct IH as [(j & v & Hj & Hrej & Hres & Hc & Htr & Hw)
                     | (Hrej & Hw & Hlast)].
      * left. exists (S j), v.
        split; [lia|]. split; [now apply Hshift|].
        split; [now rewrite nth_outcome_S, Hw1|].
        split; [assumption|].
        split.
        -- destruct (Z.ltb_spec a (maxRetries - 1)); [|lia].
           simpl. now rewrite Htr.
        -- rewrite Hw. simpl. rewrite ?Hcall. reflexivity.
      * right. split; [now apply Hshift|].
        split; [rewrite Hw; simpl; rewrite ?Hcall; reflexivity|].
        destruct k as [|k'].
        -- destruct Hlast as [Hc Htr]. exists e.
           split; [assumption|]. split; [assumption|].
           destruct (Z.ltb_spec a (maxRetries - 1)); [lia|].
           simpl. now rewrite Htr.
        -- destruct Hlast as (e' & He' & Hc & Htr). exists e'.
           split; [now rewrite nth_outcome_S, Hw1|].
           split; [assumption|].
           destruct (Z.ltb_spec a (maxRetries - 1)); [|lia].
           simpl. now rewrite Htr.
Qed.

(** C3. For every operation and every [maxRetries = n >= 1]: the operation
    is invoked at most [n] times; the run either stops at the first
    invocation [j < n] that resolves, returning its value with no later
    invocation, or all [n] invocations reject and the error of the last one
    is thrown unchanged. In both cases every rejected invocation number [i]
    other than the last one made is followed by a wait of [2^i * 500] ms,
    and nothing follows the last invocation. *)
Theorem executeWithRetry_contract (n : Z) (w : World) :
  1 <= n ->
  let r := executeWithRetry n w in
  (invocations (trace r) <= Z.to_nat n)%nat /\
  ((exists j v,
       (j < Z.to_nat n)%nat /\
       (forall i, (i < j)%nat -> is_rejected (nth_outcome i w)) /\
       nth_outcome j w = Resolved v /\
       settled r = Return v /\
       trace r = backoff_from 0 j ++ [Invoke] /\
       world r = world_after (S j) w)
   \/
   (exists e,
       (forall i, (i < Z.to_nat n)%nat -> is_rejected (nth_outcome i w)) /\
       nth_outcome (Z.to_nat n - 1) w = Rejected e /\
       settled r = Throw (Some e) /\
       trace r = backoff_from 0 (Z.to_nat n - 1) ++ [Invoke] /\
       world r = world_after (Z.to_nat n) w)).
Proof.
  intros Hn r. subst r. unfold executeWithRetry.
  assert (Hk : Z.of_nat (Z.to_nat n) = n - 0) by lia.
  pose proof (@retry_loop_spec n (Z.to_nat n) 0 None w Hk) as H.
  cbv zeta in H.
  destruct H as [(j & v & Hj & Hrej & Hres & Hc & Htr & Hw)
                | (Hrej & Hw & Hlast)].
  - split.
    + rewrite Htr, invocations_app, invocations_backoff.
      change (invocations [Invoke]) with 1%nat. lia.
    + left. exists j, v. repeat (split; [assumption|]). assumption.
  - destruct (Z.to_nat n) as [|k] eqn:Hnat; [lia|].
    destruct Hlast as (e & He & Hc & Htr).
    replace (S k - 1)%nat with k by lia.
    split.
    + rewrite Htr, invocations_app, invocations_backoff.
      change (invocations [Invoke]) with 1%nat. lia.
    + right. exists e. repeat (split; [assumption|]). assumption.
Qed.

(** C10. With [maxRetries <= 0] the loop body never runs: the operation is
    not invoked, the world is untouched, nothing is waited for, and the
    still uninitialised [lastError] ([undefined]) is what is thrown. *)
Theorem executeWithRetry_nonpositive (n : Z) (w : World) :
  n <= 0 ->
  executeWithRetry n w = mkRun (Throw None) w [].
Proof.
  intro Hn. unfold executeWithRetry.
  replace (Z.to_nat n) with 0%nat by lia. reflexivity.
Qed.

End Executor.

(** A remote call that rejects twice and then resolves; the world counts
    the invocations made so far. *)
Definition flaky (calls : nat) : outcome nat nat * nat :=
  if (calls <? 2)%nat then (Rejected nat calls, S calls)
  else (Resolved nat calls, S calls).

Lemma executeWithRetry_contract_witness :
  1 <= 3 /\
  let r := executeWithRetry flaky 3 0%nat in
  (invocations (trace r) <= Z.to_nat 3)%nat /\
  ((exists j v,
       (j < Z.to_nat 3)%nat /\
       (forall i, (i < j)%nat -> is_rejected (nth_outcome flaky i 0%nat)) /\
       nth_outcome flaky j 0%nat = Resolved nat v /\
       settled r = Return nat v /\
       trace r = backoff_from 0 j ++ [Invoke] /\
       world r = world_after flaky (S j) 0%nat)
   \/
   (exists e,
       (forall i, (i < Z.to_nat 3)%nat ->
                  is_rejected (nth_outcome flaky i 0%nat)) /\
       nth_outcome flaky (Z.to_nat 3 - 1) 0%nat = Rejected nat e /\
       settled r = Throw nat (Some e) /\
       trace r = backoff_from 0 (Z.to_nat 3 - 1) ++ [Invoke] /\
       world r = world_after flaky (Z.to_nat 3) 0%nat)).
Proof.
  split; [lia | apply (@executeWithRetry_contract _ _ _ flaky 3 0%nat); lia].
Defined.

Lemma executeWithRetry_nonpositive_witness :
  0 <= 0 /\
  executeWithRetry flaky 0 7%nat = mkRun (Throw nat None) 7%nat [].
Proof.
  split; [lia | apply (@executeWithRetry_nonpositive _ _ _ flaky 0 7%nat); lia].
Defined.

(** The run of [flaky] with three attempts, spelled out. *)
Example flaky_run :
  executeWithRetry flaky 3 0%nat
  = mkRun (Return nat 2%nat) 3%nat
          [Invoke; Sleep 500; Invoke; Sleep 1000; Invoke].
Proof. reflexivity. Qed.

(** Every attempt rejecting: three invocations, two waits, last error out. *)
Example always_failing_run :
  executeWithRetry (fun c : nat => (Rejected unit c, S c)) 3 0%nat
  = mkRun (Throw unit (Some 2%nat)) 3%nat
          [Invoke; Sleep 500; Invoke; Sleep 1000; Invoke].
Proof. reflexivity. Qed.

End Retry.

(* ================================================================== *)
(** * OrderLadderPlanner: [calculateShortOrders], [calculateFuturesOrders] *)
(* ================================================================== *)

Module Planner.

Local Open Scope Q_scope.

(** A JavaScript integer count used in arithmetic. *)
Definition Qnat (n : nat) : Q := inject_Z (Z.of_nat n).

(** [Math.pow(r, i)] for a loop index or an order count [i]. *)
Fixpoint Math_pow (r : Q) (i : nat) : Q :=
  match i with
  | O => 1
  | S j => r * Math_pow r j
  end.

(** [Math.max(a, b)]. *)
Definition Math_max (a b : Q) : Q := if Qle_bool a b then b else a.

(** The fields of [orderData] that vary from rung to rung; [side] is always
    ['Ask'], [orderType] ['Limit'], [timeInForce] ['GTC'] and [positionSide]
    ['SHORT']. *)
Record Order : Type := mkOrder {
  price : Q;
  quantity : Q;
  amount : Q
}.

Section ShortLadder.

(** [Formatter.adjustPriceToTickSize(_, tradingCoin, this.config)] and
    [Formatter.adjustQuantityToStepSize(_, tradingCoin, this.config)]:
    src/utils/formatter.js is not part of the sources, so the two roundings
    of the strategy's coin and configuration are parameters. *)
Variable adjustPriceToTickSize : Q -> Q.
Variable adjustQuantityToStepSize : Q -> Q.

Variables (currentPrice maxRisePercentage totalAmount : Q).
Variable orderCount : nat.
Variables (incrementPercentage minOrderAmount : Q).

Definition highestPrice : Q := currentPrice * (1 + maxRisePercentage / 100).

Definition priceStep : Q := (highestPrice - currentPrice) / (Qnat orderCount - 1).

Definition r : Q := 1 + incrementPercentage / 100.

Definition calculatedBaseAmount : Q :=
  totalAmount * (r - 1) / (Math_pow r orderCount - 1).

Definition baseAmount : Q := Math_max minOrderAmount calculatedBaseAmount.

(** [for (i = 0; i < orderCount; i++) actualTotalAmount += baseAmount * Math.pow(r, i)] *)
Definition actualTotalAmount : Q :=
  fold_left (fun acc i => acc + baseAmount * Math_pow r i) (seq 0 orderCount) 0.

Definition scale : Q :=
  if negb (Qle_bool actualTotalAmount totalAmount)
  then totalAmount / actualTotalAmount
  else 1.

Definition rawPrice (i : nat) : Q := currentPrice + priceStep * Qnat i.

Definition orderAmount (i : nat) : Q := baseAmount * Math_pow r i * scale.

(** The order built in iteration [i] of the second loop, before the
    minimum-amount test. For a rounded price of 0 JavaScript computes the
    quantity [Infinity] and the amount [NaN], which fails the test; here the
    amount is 0, which fails it too for a positive minimum. The other
    divisions are by [orderCount - 1], [r^orderCount - 1] and
    [actualTotalAmount], non-zero for two or more rungs and a positive
    increment. *)
Definition rung (i : nat) : Order :=
  let price := adjustPriceToTickSize (rawPrice i) in
  let quantity := adjustQuantityToStepSize (orderAmount i / price) in
  let actualAmount := price * quantity in
  mkOrder price quantity actualAmount.

(** [if (actualAmount >= minOrderAmount) orders.push(order)] *)
Definition kept (o : Order) : bool := Qle_bool minOrderAmount (amount o).

Definition calculateShortOrders : list Order :=
  filter kept (map rung (seq 0 orderCount)).

End ShortLadder.




(** Rounding down to a multiple of [step]: a formatter to run the planner
    with in the examples below. *)
Definition floorToStep (step x : Q) : Q := inject_Z (Qfloor (x / step)) * step.

(** The example of the specification: price 100, short, 3% range, 3 rungs,
    total 100, increment 50%, minimum 10; ticks of 0.01 and 0.00001. *)
Example spec_ladder :
  map (fun o => (Qred (price o), Qred (quantity o), Qred (amount o)))
      (calculateShortOrders (floorToStep (1#100)) (floorToStep (1#100000))
                            100 3 100 3 50 10)
  = [ (100, 5263 # 25000, 5263 # 250);
      (203 # 2, 3889 # 12500, 789467 # 25000);
      (103, 11497 # 25000, 1184191 # 25000) ].
Proof. vm_compute. reflexivity. Qed.

(** ** Sums of rationals *)

Definition Qsum (l : list Q) : Q := fold_right Qplus 0 l.


Lemma fold_left_Qsum (A : Type) (g : A -> Q) (l : list A) (a : Q) :
  fold_left (fun acc x => acc + g x) l a == a + Qsum (map g l).
Proof.
  revert a. induction l as [|x l IH]; intro a; simpl.
  - ring.
  - rewrite IH. ring.
Qed.



Lemma Qsum_pos (A : Type) (g : A -> Q) (l : list A) :
  (forall x, 0 < g x) -> l <> [] -> 0 < Qsum (map g l).
Proof.
  intros Hg. induction l as [|x l IH]; intro Hne; [congruence|].
  simpl. destruct l as [|y l].
  - simpl. specialize (Hg x). lra.
  - assert (0 < Qsum (map g (y :: l))) by (apply IH; congruence).
    specialize (Hg x). lra.
Qed.

Lemma Math_pow_pos x i : 0 < x -> 0 < Math_pow x i.
Proof.
  intro Hx. induction i as [|i IH]; simpl.
  - lra.
  - now apply Qmult_lt_0_compat.
Qed.

Lemma Math_max_lub a b : a <= Math_max a b /\ b <= Math_max a b.
Proof.
  unfold Math_max. destruct (Qle_bool a b) eqn:Hab.
  - apply Qle_bool_iff in Hab. lra.
  - assert (~ a <= b) by (intro H; apply Qle_bool_iff in H; congruence).
    lra.
Qed.

Lemma Qnat_ge_2 n : (2 <= n)%nat -> 2 <= Qnat n.
Proof.
  intro Hn. unfold Qnat. change 2 with (inject_Z 2).
  rewrite <- Zle_Qle. lia.
Qed.

Lemma Qnat_nonneg n : 0 <= Qnat n.
Proof.
  unfold Qnat. change 0 with (inject_Z 0). rewrite <- Zle_Qle. lia.
Qed.



Section ShortLadderFacts.

Variable adjP adjQ : Q -> Q.
Variables (currentPrice maxRise totalAmount : Q).
Variable n : nat.
Variables (increment minOrderAmount : Q).

Hypothesis price_pos : 0 < currentPrice.
Hypothesis total_pos : 0 < totalAmount.
Hypothesis min_pos : 0 < minOrderAmount.
Hypothesis count_ge_2 : (2 <= n)%nat.
Hypothesis increment_pos : 0 < increment.

Let r_ := r increment.
Let base := baseAmount totalAmount n increment minOrderAmount.
Let actual := actualTotalAmount totalAmount n increment minOrderAmount.
Let scale_ := scale totalAmount n increment minOrderAmount.
Let oa := orderAmount totalAmount n increment minOrderAmount.

Lemma r_gt_1 : 1 < r_.
Proof.
  unfold r_, r. assert (0 < increment / 100).
  { apply Qlt_shift_div_l; lra. }
  lra.
Qed.

Lemma baseAmount_ge_min : minOrderAmount <= base.
Proof. unfold base, baseAmount. apply Math_max_lub. Qed.

Lemma actualTotalAmount_Qsum :
  actual == Qsum (map (fun i => base * Math_pow r_ i) (seq 0 n)).
Proof.
  unfold actual, actualTotalAmount. rewrite fold_left_Qsum.
  unfold base, r_. ring.
Qed.

Lemma actualTotalAmount_pos : 0 < actual.
Proof.
  rewrite actualTotalAmount_Qsum. apply Qsum_pos.
  - intro i. apply Qmult_lt_0_compat.
    + pose proof baseAmount_ge_min. lra.
    + apply Math_pow_pos. pose proof r_gt_1. lra.
  - destruct n; [lia|]. simpl. congruence.
Qed.

(** The single factor: produced only when the achieved sum exceeds the
    target, and then it is [totalAmount / actualTotalAmount < 1]. *)
Lemma scale_cases :
  (totalAmount < actual /\ scale_ == totalAmount / actual /\ scale_ < 1)
  \/ (actual <= totalAmount /\ scale_ = 1).
Proof.
  unfold scale_, scale. fold actual.
  destruct (Qle_bool actual totalAmount) eqn:Hle; simpl.
  - right. apply Qle_bool_iff in Hle. auto.
  - left.
    assert (Hlt : totalAmount < actual).
    { apply Qnot_le_lt. intro H. apply Qle_bool_iff in H. congruence. }
    split; [assumption|]. split; [reflexivity|].
    apply Qlt_shift_div_r; lra.
Qed.

Lemma scale_pos : 0 < scale_.
Proof.
  pose proof actualTotalAmount_pos as Ha.
  destruct scale_cases as [(Hlt & Heq & _) | (_ & Heq)]; rewrite Heq.
  - apply Qlt_shift_div_l; lra.
  - lra.
Qed.

Lemma orderAmount_pos i : 0 < oa i.
Proof.
  unfold oa, orderAmount. fold base r_ scale_.
  apply Qmult_lt_0_compat; [apply Qmult_lt_0_compat|].
  - pose proof baseAmount_ge_min. lra.
  - apply Math_pow_pos. pose proof r_gt_1. lra.
  - apply scale_pos.
Qed.


Hypothesis rise_nonneg : 0 <= maxRise.
Hypothesis adjP_nonneg : forall p, 0 <= p -> 0 <= adjP p.
Hypothesis adjQ_down : forall q, adjQ q <= q.

Let rungOf := rung adjP adjQ currentPrice maxRise totalAmount n increment
                   minOrderAmount.

Lemma priceStep_nonneg : 0 <= priceStep currentPrice maxRise n.
Proof.
  unfold priceStep, highestPrice.
  pose proof (Qnat_ge_2 count_ge_2).
  apply Qle_shift_div_l; [lra|].
  assert (0 <= currentPrice * (maxRise / 100)).
  { apply Qmult_le_0_compat; [lra|]. apply Qle_shift_div_l; lra. }
  lra.
Qed.

Lemma rawPrice_pos i : 0 < rawPrice currentPrice maxRise n i.
Proof.
  unfold rawPrice.
  assert (0 <= priceStep currentPrice maxRise n * Qnat i).
  { apply Qmult_le_0_compat; [apply priceStep_nonneg | apply Qnat_nonneg]. }
  lra.
Qed.

(** Rounding the quantity down never raises a rung above its plan. *)
Lemma rung_amount_le i : amount (rungOf i) <= oa i.
Proof.
  unfold rungOf, rung. cbn [amount].
  fold (oa i).
  set (p := adjP (rawPrice currentPrice maxRise n i)).
  assert (Hp : 0 <= p).
  { apply adjP_nonneg. pose proof (rawPrice_pos i). lra. }
  pose proof (adjQ_down (oa i / p)) as Hq.
  pose proof (orderAmount_pos i) as Hoa.
  destruct (Qlt_le_dec 0 p) as [Hpos | Hzero].
  - assert (Heq : p * (oa i / p) == oa i) by (field; lra).
    apply Qle_trans with (p * (oa i / p)).
    + apply Qmult_le_l; assumption.
    + rewrite Heq. apply Qle_refl.
  - assert (Hp0 : p == 0) by lra.
    clear Hq. generalize (adjQ (oa i / p)). intro q.
    rewrite Hp0. lra.
Qed.


End ShortLadderFacts.

(** ** The closed form of the base amount *)

Lemma Qsum_app l1 l2 : Qsum (l1 ++ l2) == Qsum l1 + Qsum l2.
Proof.
  induction l1 as [|x l1 IH]; simpl.
  - ring.
  - rewrite IH. ring.
Qed.

Lemma geometric_series x k :
  (x - 1) * Qsum (map (Math_pow x) (seq 0 k)) == Math_pow x k - 1.
Proof.
  induction k as [|k IH].
  - simpl. ring.
  - rewrite seq_S, map_app, Qsum_app. cbn [map Nat.add Qsum fold_right].
    rewrite Qmult_plus_distr_r, IH. cbn [Math_pow]. ring.
Qed.

Lemma Math_pow_gt_1 x k : 1 < x -> (1 <= k)%nat -> 1 < Math_pow x k.
Proof.
  intros Hx Hk. induction k as [|k IH]; [lia|].
  cbn [Math_pow]. destruct k as [|k].
  - simpl. lra.
  - assert (1 < Math_pow x (S k)) by (apply IH; lia). nra.
Qed.

(** [calculatedBaseAmount] is the base whose geometric ladder adds up to
    [totalAmount] exactly. *)
Lemma calculatedBaseAmount_solves total k inc :
  0 < inc -> (1 <= k)%nat ->
  Qsum (map (fun i => calculatedBaseAmount total k inc * Math_pow (r inc) i)
            (seq 0 k)) == total.
Proof.
  intros Hinc Hk.
  assert (Hr : 1 < r inc) by (apply r_gt_1; assumption).
  pose proof (Math_pow_gt_1 Hr Hk) as Hpow.
  pose proof (geometric_series (r inc) k) as Hgeo.
  assert (Hswap :
    Qsum (map (fun i => calculatedBaseAmount total k inc * Math_pow (r inc) i)
              (seq 0 k))
    == calculatedBaseAmount total k inc
       * Qsum (map (Math_pow (r inc)) (seq 0 k))).
  { clear. induction (seq 0 k) as [|i l IH]; simpl; [ring|].
    rewrite IH. ring. }
  rewrite Hswap. unfold calculatedBaseAmount.
  generalize dependent (Qsum (map (Math_pow (r inc)) (seq 0 k))).
  intros S HS _.
  assert (Hne : ~ Math_pow (r inc) k - 1 == 0) by lra.
  assert (Hre : total * (r inc - 1) / (Math_pow (r inc) k - 1) * S
                == total * ((r inc - 1) * S) / (Math_pow (r inc) k - 1))
    by (field; assumption).
  rewrite Hre, HS. field. assumption.
Qed.

(** ** The sample formatter rounds down and keeps prices non-negative *)

Lemma floorToStep_le step x : 0 < step -> floorToStep step x <= x.
Proof.
  intro Hs. unfold floorToStep.
  pose proof (Qfloor_le (x / step)) as Hf.
  assert (Heq : x / step * step == x) by (field; lra).
  rewrite <- Heq at 2. apply Qmult_le_compat_r; lra.
Qed.

Lemma floorToStep_nonneg step x : 0 < step -> 0 <= x -> 0 <= floorToStep step x.
Proof.
  intros Hs Hx. unfold floorToStep.
  apply Qmult_le_0_compat; [|lra].
  change 0 with (inject_Z 0). rewrite <- Zle_Qle.
  change 0%Z with (Qfloor 0). apply Qfloor_resp_le.
  apply Qle_shift_div_l; lra.
Qed.

(** ** Lists of rung indices and of prices *)












(** ** The ladder stays within its budget *)



(** ** Rung prices *)




End Planner.

(* ================================================================== *)
(** * Trailing stop: [calculateDynamicStopLoss] *)
(* ================================================================== *)

Module TrailingStop.

Local Open Scope Q_scope.

(** [this.riskManagement]: the settings the function reads. A setting that is
    absent from the configuration is [None]. *)
Record RiskManagement : Type := mkRisk {
  dynamicStopLoss : bool;
  trailingStopActivation : option Q;
  trailingStopDistance : option Q
}.

(** [x || d] on a number setting: [undefined] and [0] are falsy. *)
Definition or_default (x : option Q) (d : Q) : Q :=
  match x with
  | Some v => if Qeq_bool v 0 then d else v
  | None => d
  end.

Definition activationPercentage (rm : RiskManagement) : Q :=
  or_default (trailingStopActivation rm) 1.

Definition trailingDistance (rm : RiskManagement) : Q :=
  or_default (trailingStopDistance rm) (1 # 2).

(** [calculateDynamicStopLoss(entryPrice, currentPrice, isLong)]; [null] is
    [None]. [entryPrice] is the entry price of an open position and not 0. *)
Definition calculateDynamicStopLoss (rm : RiskManagement)
           (entryPrice currentPrice : Q) (isLong : bool) : option Q :=
  if negb (dynamicStopLoss rm) then None
  else
    if isLong then
      let priceIncrease := ((currentPrice - entryPrice) / entryPrice) * 100 in
      if Qle_bool (activationPercentage rm) priceIncrease
      then Some (currentPrice * (1 - trailingDistance rm / 100))
      else None
    else
      let priceDecrease := ((entryPrice - currentPrice) / entryPrice) * 100 in
      if Qle_bool (activationPercentage rm) priceDecrease
      then Some (currentPrice * (1 + trailingDistance rm / 100))
      else None.

(** The stop prices computed on a sequence of price updates, most recent
    last; updates on which the function returns [null] contribute nothing. *)
Fixpoint stops (rm : RiskManagement) (entryPrice : Q) (isLong : bool)
         (updates : list Q) : list Q :=
  match updates with
  | [] => []
  | p :: rest =>
      match calculateDynamicStopLoss rm entryPrice p isLong with
      | Some s => s :: stops rm entryPrice isLong rest
      | None => stops rm entryPrice isLong rest
      end
  end.

(** Default activation (1%) and distance (0.5%), trailing enabled. *)
Definition trailing_defaults : RiskManagement := mkRisk true None None.

(** C8 as stated fails: the function keeps no earlier stop. LONG from 100,
    price 103 then 102, both past activation: the stop goes from 102.485
    down to 101.49. SHORT from 100, price 97 then 98: the stop goes from
    97.485 up to 98.49. *)
Lemma dynamic_stop_loosens :
  map Qred (stops trailing_defaults 100 true [103; 102])
  = [20497 # 200; 10149 # 100]
  /\ (10149 # 100) < (20497 # 200)
  /\ map Qred (stops trailing_defaults 100 false [97; 98])
     = [19497 # 200; 9849 # 100]
  /\ (19497 # 200) < (9849 # 100).
Proof. repeat split. Qed.

(** C8, as the code has it. While trailing is enabled and the activation
    test passes, the stop is [currentPrice * (1 - distance/100)] for a LONG
    and [currentPrice * (1 + distance/100)] for a SHORT position: a function
    of the current price alone. With a distance between 0 and 100 it moves
    with the price: a later update at a price no lower gives a stop no lower,
    and a later update at a price no higher gives a stop no higher. *)
Theorem dynamic_stop_follows_price (rm : RiskManagement)
        (entryPrice p1 p2 : Q) (isLong : bool) (s1 s2 : Q) :
  calculateDynamicStopLoss rm entryPrice p1 isLong = Some s1 ->
  calculateDynamicStopLoss rm entryPrice p2 isLong = Some s2 ->
  0 <= trailingDistance rm <= 100 ->
  s1 = p1 * (if isLong then 1 - trailingDistance rm / 100
             else 1 + trailingDistance rm / 100)
  /\ s2 = p2 * (if isLong then 1 - trailingDistance rm / 100
                else 1 + trailingDistance rm / 100)
  /\ (p1 <= p2 -> s1 <= s2)
  /\ (p2 <= p1 -> s2 <= s1).
Proof.
  unfold calculateDynamicStopLoss. intros H1 H2 [Hd0 Hd100].
  destruct (negb (dynamicStopLoss rm)); [discriminate|].
  assert (Hfrac : 0 <= trailingDistance rm / 100 <= 1).
  { split; [apply Qle_shift_div_l | apply Qle_shift_div_r]; lra. }
  destruct isLong.
  - destruct (Qle_bool _ _) in H1; [|discriminate].
    destruct (Qle_bool _ _) in H2; [|discriminate].
    injection H1 as <-. injection H2 as <-.
    repeat split; try reflexivity; intro Hp; nra.
  - destruct (Qle_bool _ _) in H1; [|discriminate].
    destruct (Qle_bool _ _) in H2; [|discriminate].
    injection H1 as <-. injection H2 as <-.
    repeat split; try reflexivity; intro Hp; nra.
Qed.

Lemma dynamic_stop_follows_price_witness :
  calculateDynamicStopLoss trailing_defaults 100 103 true
  = Some (103 * (1 - trailingDistance trailing_defaults / 100))
  /\ calculateDynamicStopLoss trailing_defaults 100 102 true
     = Some (102 * (1 - trailingDistance trailing_defaults / 100))
  /\ 0 <= trailingDistance trailing_defaults <= 100
  /\ (102 <= 103 ->
      102 * (1 - trailingDistance trailing_defaults / 100)
      <= 103 * (1 - trailingDistance trailing_defaults / 100)).
Proof.
  assert (H1 : calculateDynamicStopLoss trailing_defaults 100 103 true
               = Some (103 * (1 - trailingDistance trailing_defaults / 100)))
    by reflexivity.
  assert (H2 : calculateDynamicStopLoss trailing_defaults 100 102 true
               = Some (102 * (1 - trailingDistance trailing_defaults / 100)))
    by reflexivity.
  assert (Hd : 0 <= trailingDistance trailing_defaults <= 100)
    by (split; unfold Qle; simpl; lia).
  pose proof (@dynamic_stop_follows_price _ _ _ _ _ _ _ H1 H2 Hd)
    as (_ & _ & _ & Hle).
  repeat (split; [assumption|]). exact Hle.
Defined.

End TrailingStop.

(* ================================================================== *)
(** * ConnectionManager: [WebSocketManager] *)
(* ================================================================== *)

Module WsManager.

Local Open Scope Z_scope.

(** ** Data *)

(** [WebSocket.readyState]. *)
Inductive ReadyState : Type := CONNECTING | OPEN | CLOSING | CLOSED.

Definition ReadyState_eqb (a b : ReadyState) : bool :=
  match a, b with
  | CONNECTING, CONNECTING | OPEN, OPEN | CLOSING, CLOSING | CLOSED, CLOSED => true
  | _, _ => false
  end.

(** The socket object [this.ws] refers to: [conn] is the connection id under
    which [setupPriceWebSocket] created it. *)
Record Socket : Type := mkSocket {
  conn : Z;
  readyState : ReadyState
}.

(** What the handlers installed by one call of [setupPriceWebSocket] close
    over: [currentConnectionId] and [symbol]. *)
Record Closure : Type := mkClosure {
  capturedId : Z;
  capturedSymbol : string
}.

(** The payload [message.data] once parsed. A field the payload lacks is
    [None]; [E] is the server's event time, [e] the event type and [s] the
    symbol. The price fields hold the parsed numeral. *)
Record PriceData : Type := mkPriceData {
  pd_e : option string;
  pd_s : option string;
  pd_E : option Z;
  pd_symbol : option string;
  pd_price : option Q;
  pd_c : option Q;
  pd_lastPrice : option Q;
  pd_id : option Z;
  pd_result_null : bool;
  pd_method : option string
}.

(** [message.data]: missing or falsy, a string [JSON.parse] rejects, or a
    payload. *)
Inductive MessageData : Type :=
| NoData
| Unparsable
| Parsed (d : PriceData).

Record Message : Type := mkMessage {
  msg_data : MessageData;
  msg_type : option string;
  msg_channel : option string;
  msg_error : bool;
  msg_symbol : option string
}.

(** The object handed to [onPriceUpdate]; [pi_price] is [None] when
    [parseFloat] gives [NaN]. *)
Record PriceInfo : Type := mkPriceInfo {
  pi_symbol : string;
  pi_price : option Q;
  pi_time : Z;
  pi_raw : option PriceData
}.

(** [this.subscriptionState], with the fields [processMessage] and
    [subscribeTicker] add to it. *)
Record SubscriptionState : Type := mkSubscriptionState {
  lastAttemptTime : Z;
  attemptCount : Z;
  currentFormatIndex : Z;
  isSubscribed : bool;
  pendingSubscription : bool;
  subscribed : bool;
  lastSubscribedTime : Z
}.

Definition set_lastAttemptTime (v : Z) (x : SubscriptionState) : SubscriptionState :=
  mkSubscriptionState v (attemptCount x) (currentFormatIndex x) (isSubscribed x) (pendingSubscription x) (subscribed x) (lastSubscribedTime x).

Definition set_attemptCount (v : Z) (x : SubscriptionState) : SubscriptionState :=
  mkSubscriptionState (lastAttemptTime x) v (currentFormatIndex x) (isSubscribed x) (pendingSubscription x) (subscribed x) (lastSubscribedTime x).

Definition set_currentFormatIndex (v : Z) (x : SubscriptionState) : SubscriptionState :=
  mkSubscriptionState (lastAttemptTime x) (attemptCount x) v (isSubscribed x) (pendingSubscription x) (subscribed x) (lastSubscribedTime x).

Definition set_isSubscribed (v : bool) (x : SubscriptionState) : SubscriptionState :=
  mkSubscriptionState (lastAttemptTime x) (attemptCount x) (currentFormatIndex x) v (pendingSubscription x) (subscribed x) (lastSubscribedTime x).

Definition set_pendingSubscription (v : bool) (x : SubscriptionState) : SubscriptionState :=
  mkSubscriptionState (lastAttemptTime x) (attemptCount x) (currentFormatIndex x) (isSubscribed x) v (subscribed x) (lastSubscribedTime x).

Definition set_subscribed (v : bool) (x : SubscriptionState) : SubscriptionState :=
  mkSubscriptionState (lastAttemptTime x) (attemptCount x) (currentFormatIndex x) (isSubscribed x) (pendingSubscription x) v (lastSubscribedTime x).

Definition set_lastSubscribedTime (v : Z) (x : SubscriptionState) : SubscriptionState :=
  mkSubscriptionState (lastAttemptTime x) (attemptCount x) (currentFormatIndex x) (isSubscribed x) (pendingSubscription x) (subscribed x) v.

(** The fields of a [WebSocketManager] that its connection logic reads or
    writes. A timer field is [true] while its timer is set;
    [connectionTimeouts] lists the connection ids whose 10 s connect timeout
    is still pending. *)
Record Manager : Type := mkManager {
  ws : option Socket;
  symbol : option string;
  connectionActive : bool;
  heartbeatInterval : bool;
  reconnectTimeout : bool;
  messageCleanupInterval : bool;
  connectionTimeouts : list Z;
  reconnectAttempts : Z;
  maxReconnectAttempts : Z;
  reconnectDelay : option Z;
  failedToConnect : bool;
  lastConnectTime : Z;
  connectionId : Z;
  connectOperationInProgress : bool;
  pendingConnection : bool;
  lastCloseTime : Z;
  activeConnectionCount : Z;
  lastHeartbeatResponse : Z;
  lastHeartbeatSent : Z;
  lastResponseTime : Z;
  heartbeatFailures : Z;
  subscriptionState : SubscriptionState;
  processedMessages : list (string * Z);
  maxProcessedMessages : Z;
  lastPriceData : option PriceData
}.

Definition set_ws (v : option Socket) (x : Manager) : Manager :=
  mkManager v (symbol x) (connectionActive x) (heartbeatInterval x) (reconnectTimeout x) (messageCleanupInterval x) (connectionTimeouts x) (reconnectAttempts x) (maxReconnectAttempts x) (reconnectDelay x) (failedToConnect x) (lastConnectTime x) (connectionId x) (connectOperationInProgress x) (pendingConnection x) (lastCloseTime x) (activeConnectionCount x) (lastHeartbeatResponse x) (lastHeartbeatSent x) (lastResponseTime x) (heartbeatFailures x) (subscriptionState x) (processedMessages x) (maxProcessedMessages x) (lastPriceData x).

Definition set_symbol (v : option string) (x : Manager) : Manager :=
  mkManager (ws x) v (connectionActive x) (heartbeatInterval x) (reconnectTimeout x) (messageCleanupInterval x) (connectionTimeouts x) (reconnectAttempts x) (maxReconnectAttempts x) (reconnectDelay x) (failedToConnect x) (lastConnectTime x) (connectionId x) (connectOperationInProgress x) (pendingConnection x) (lastCloseTime x) (activeConnectionCount x) (lastHeartbeatResponse x) (lastHeartbeatSent x) (lastResponseTime x) (heartbeatFailures x) (subscriptionState x) (processedMessages x) (maxProcessedMessages x) (lastPriceData x).

Definition set_connectionActive (v : bool) (x : Manager) : Manager :=
  mkManager (ws x) (symbol x) v (heartbeatInterval x) (reconnectTimeout x) (messageCleanupInterval x) (connectionTimeouts x) (reconnectAttempts x) (maxReconnectAttempts x) (reconnectDelay x) (failedToConnect x) (lastConnectTime x) (connectionId x) (connectOperationInProgress x) (pendingConnection x) (lastCloseTime x) (activeConnectionCount x) (lastHeartbeatResponse x) (lastHeartbeatSent x) (lastResponseTime x) (heartbeatFailures x) (subscriptionState x) (processedMessages x) (maxProcessedMessages x) (lastPriceData x).

Definition set_heartbeatInterval (v : bool) (x : Manager) : Manager :=
  mkManager (ws x) (symbol x) (connectionActive x) v (reconnectTimeout x) (messageCleanupInterval x) (connectionTimeouts x) (reconnectAttempts x) (maxReconnectAttempts x) (reconnectDelay x) (failedToConnect x) (lastConnectTime x) (connectionId x) (connectOperationInProgress x) (pendingConnection x) (lastCloseTime x) (activeConnectionCount x) (lastHeartbeatResponse x) (lastHeartbeatSent x) (lastResponseTime x) (heartbeatFailures x) (subscriptionState x) (processedMessages x) (maxProcessedMessages x) (lastPriceData x).

Definition set_reconnectTimeout (v : bool) (x : Manager) : Manager :=
  mkManager (ws x) (symbol x) (connectionActive x) (heartbeatInterval x) v (messageCleanupInterval x) (connectionTimeouts x) (reconnectAttempts x) (maxReconnectAttempts x) (reconnectDelay x) (failedToConnect x) (lastConnectTime x) (connectionId x) (connectOperationInProgress x) (pendingConnection x) (lastCloseTime x) (activeConnectionCount x) (lastHeartbeatResponse x) (lastHeartbeatSent x) (lastResponseTime x) (heartbeatFailures x) (subscriptionState x) (processedMessages x) (maxProcessedMessages x) (lastPriceData x).

Definition set_messageCleanupInterval (v : bool) (x : Manager) : Manager :=
  mkManager (ws x) (symbol x) (connectionActive x) (heartbeatInterval x) (reconnectTimeout x) v (connectionTimeouts x) (reconnectAttempts x) (maxReconnectAttempts x) (reconnectDelay x) (failedToConnect x) (lastConnectTime x) (connectionId x) (connectOperationInProgress x) (pendingConnection x) (lastCloseTime x) (activeConnectionCount x) (lastHeartbeatResponse x) (lastHeartbeatSent x) (lastResponseTime x) (heartbeatFailures x) (subscriptionState x) (processedMessages x) (maxProcessedMessages x) (lastPriceData x).

Definition set_connectionTimeouts (v : list Z) (x : Manager) : Manager :=
  mkManager (ws x) (symbol x) (connectionActive x) (heartbeatInterval x) (reconnectTimeout x) (messageCleanupInterval x) v (reconnectAttempts x) (maxReconnectAttempts x) (reconnectDelay x) (failedToConnect x) (lastConnectTime x) (connectionId x) (connectOperationInProgress x) (pendingConnection x) (lastCloseTime x) (activeConnectionCount x) (lastHeartbeatResponse x) (lastHeartbeatSent x) (lastResponseTime x) (heartbeatFailures x) (subscriptionState x) (processedMessages x) (maxProcessedMessages x) (lastPriceData x).

Definition set_reconnectAttempts (v : Z) (x : Manager) : Manager :=
  mkManager (ws x) (symbol x) (connectionActive x) (heartbeatInterval x) (reconnectTimeout x) (messageCleanupInterval x) (connectionTimeouts x) v (maxReconnectAttempts x) (reconnectDelay x) (failedToConnect x) (lastConnectTime x) (connectionId x) (connectOperationInProgress x) (pendingConnection x) (lastCloseTime x) (activeConnectionCount x) (lastHeartbeatResponse x) (lastHeartbeatSent x) (lastResponseTime x) (heartbeatFailures x) (subscriptionState x) (processedMessages x) (maxProcessedMessages x) (lastPriceData x).

Definition set_maxReconnectAttempts (v : Z) (x : Manager) : Manager :=
  mkManager (ws x) (symbol x) (connectionActive x) (heartbeatInterval x) (reconnectTimeout x) (messageCleanupInterval x) (connectionTimeouts x) (reconnectAttempts x) v (reconnectDelay x) (failedToConnect x) (lastConnectTime x) (connectionId x) (connectOperationInProgress x) (pendingConnection x) (lastCloseTime x) (activeConnectionCount x) (lastHeartbeatResponse x) (lastHeartbeatSent x) (lastResponseTime x) (heartbeatFailures x) (subscriptionState x) (processedMessages x) (maxProcessedMessages x) (lastPriceData x).

Definition set_reconnectDelay (v : option Z) (x : Manager) : Manager :=
  mkManager (ws x) (symbol x) (connectionActive x) (heartbeatInterval x) (reconnectTimeout x) (messageCleanupInterval x) (connectionTimeouts x) (reconnectAttempts x) (maxReconnectAttempts x) v (failedToConnect x) (lastConnectTime x) (connectionId x) (connectOperationInProgress x) (pendingConnection x) (lastCloseTime x) (activeConnectionCount x) (lastHeartbeatResponse x) (lastHeartbeatSent x) (lastResponseTime x) (heartbeatFailures x) (subscriptionState x) (processedMessages x) (maxProcessedMessages x) (lastPriceData x).

Definition set_failedToConnect (v : bool) (x : Manager) : Manager :=
  mkManager (ws x) (symbol x) (connectionActive x) (heartbeatInterval x) (reconnectTimeout x) (messageCleanupInterval x) (connectionTimeouts x) (reconnectAttempts x) (maxReconnectAttempts x) (reconnectDelay x) v (lastConnectTime x) (connectionId x) (connectOperationInProgress x) (pendingConnection x) (lastCloseTime x) (activeConnectionCount x) (lastHeartbeatResponse x) (lastHeartbeatSent x) (lastResponseTime x) (heartbeatFailures x) (subscriptionState x) (processedMessages x) (maxProcessedMessages x) (lastPriceData x).

Definition set_lastConnectTime (v : Z) (x : Manager) : Manager :=
  mkManager (ws x) (symbol x) (connectionActive x) (heartbeatInterval x) (reconnectTimeout x) (messageCleanupInterval x) (connectionTimeouts x) (reconnectAttempts x) (maxReconnectAttempts x) (reconnectDelay x) (failedToConnect x) v (connectionId x) (connectOperationInProgress x) (pendingConnection x) (lastCloseTime x) (activeConnectionCount x) (lastHeartbeatResponse x) (lastHeartbeatSent x) (lastResponseTime x) (heartbeatFailures x) (subscriptionState x) (processedMessages x) (maxProcessedMessages x) (lastPriceData x).

Definition set_connectionId (v : Z) (x : Manager) : Manager :=
  mkManager (ws x) (symbol x) (connectionActive x) (heartbeatInterval x) (reconnectTimeout x) (messageCleanupInterval x) (connectionTimeouts x) (reconnectAttempts x) (maxReconnectAttempts x) (reconnectDelay x) (failedToConnect x) (lastConnectTime x) v (connectOperationInProgress x) (pendingConnection x) (lastCloseTime x) (activeConnectionCount x) (lastHeartbeatResponse x) (lastHeartbeatSent x) (lastResponseTime x) (heartbeatFailures x) (subscriptionState x) (processedMessages x) (maxProcessedMessages x) (lastPriceData x).

Definition set_connectOperationInProgress (v : bool) (x : Manager) : Manager :=
  mkManager (ws x) (symbol x) (connectionActive x) (heartbeatInterval x) (reconnectTimeout x) (messageCleanupInterval x) (connectionTimeouts x) (reconnectAttempts x) (maxReconnectAttempts x) (reconnectDelay x) (failedToConnect x) (lastConnectTime x) (connectionId x) v (pendingConnection x) (lastCloseTime x) (activeConnectionCount x) (lastHeartbeatResponse x) (lastHeartbeatSent x) (lastResponseTime x) (heartbeatFailures x) (subscriptionState x) (processedMessages x) (maxProcessedMessages x) (lastPriceData x).

Definition set_pendingConnection (v : bool) (x : Manager) : Manager :=
  mkManager (ws x) (symbol x) (connectionActive x) (heartbeatInterval x) (reconnectTimeout x) (messageCleanupInterval x) (connectionTimeouts x) (reconnectAttempts x) (maxReconnectAttempts x) (reconnectDelay x) (failedToConnect x) (lastConnectTime x) (connectionId x) (connectOperationInProgress x) v (lastCloseTime x) (activeConnectionCount x) (lastHeartbeatResponse x) (lastHeartbeatSent x) (lastResponseTime x) (heartbeatFailures x) (subscriptionState x) (processedMessages x) (maxProcessedMessages x) (lastPriceData x).

Definition set_lastCloseTime (v : Z) (x : Manager) : Manager :=
  mkManager (ws x) (symbol x) (connectionActive x) (heartbeatInterval x) (reconnectTimeout x) (messageCleanupInterval x) (connectionTimeouts x) (reconnectAttempts x) (maxReconnectAttempts x) (reconnectDelay x) (failedToConnect x) (lastConnectTime x) (connectionId x) (connectOperationInProgress x) (pendingConnection x) v (activeConnectionCount x) (lastHeartbeatResponse x) (lastHeartbeatSent x) (lastResponseTime x) (heartbeatFailures x) (subscriptionState x) (processedMessages x) (maxProcessedMessages x) (lastPriceData x).

Definition set_activeConnectionCount (v : Z) (x : Manager) : Manager :=
  mkManager (ws x) (symbol x) (connectionActive x) (heartbeatInterval x) (reconnectTimeout x) (messageCleanupInterval x) (connectionTimeouts x) (reconnectAttempts x) (maxReconnectAttempts x) (reconnectDelay x) (failedToConnect x) (lastConnectTime x) (connectionId x) (connectOperationInProgress x) (pendingConnection x) (lastCloseTime x) v (lastHeartbeatResponse x) (lastHeartbeatSent x) (lastResponseTime x) (heartbeatFailures x) (subscriptionState x) (processedMessages x) (maxProcessedMessages x) (lastPriceData x).

Definition set_lastHeartbeatResponse (v : Z) (x : Manager) : Manager :=
  mkManager (ws x) (symbol x) (connectionActive x) (heartbeatInterval x) (reconnectTimeout x) (messageCleanupInterval x) (connectionTimeouts x) (reconnectAttempts x) (maxReconnectAttempts x) (reconnectDelay x) (failedToConnect x) (lastConnectTime x) (connectionId x) (connectOperationInProgress x) (pendingConnection x) (lastCloseTime x) (activeConnectionCount x) v (lastHeartbeatSent x) (lastResponseTime x) (heartbeatFailures x) (subscriptionState x) (processedMessages x) (maxProcessedMessages x) (lastPriceData x).

Definition set_lastHeartbeatSent (v : Z) (x : Manager) : Manager :=
  mkManager (ws x) (symbol x) (connectionActive x) (heartbeatInterval x) (reconnectTimeout x) (messageCleanupInterval x) (connectionTimeouts x) (reconnectAttempts x) (maxReconnectAttempts x) (reconnectDelay x) (failedToConnect x) (lastConnectTime x) (connectionId x) (connectOperationInProgress x) (pendingConnection x) (lastCloseTime x) (activeConnectionCount x) (lastHeartbeatResponse x) v (lastResponseTime x) (heartbeatFailures x) (subscriptionState x) (processedMessages x) (maxProcessedMessages x) (lastPriceData x).

Definition set_lastResponseTime (v : Z) (x : Manager) : Manager :=
  mkManager (ws x) (symbol x) (connectionActive x) (heartbeatInterval x) (reconnectTimeout x) (messageCleanupInterval x) (connectionTimeouts x) (reconnectAttempts x) (maxReconnectAttempts x) (reconnectDelay x) (failedToConnect x) (lastConnectTime x) (connectionId x) (connectOperationInProgress x) (pendingConnection x) (lastCloseTime x) (activeConnectionCount x) (lastHeartbeatResponse x) (lastHeartbeatSent x) v (heartbeatFailures x) (subscriptionState x) (processedMessages x) (maxProcessedMessages x) (lastPriceData x).

Definition set_heartbeatFailures (v : Z) (x : Manager) : Manager :=
  mkManager (ws x) (symbol x) (connectionActive x) (heartbeatInterval x) (reconnectTimeout x) (messageCleanupInterval x) (connectionTimeouts x) (reconnectAttempts x) (maxReconnectAttempts x) (reconnectDelay x) (failedToConnect x) (lastConnectTime x) (connectionId x) (connectOperationInProgress x) (pendingConnection x) (lastCloseTime x) (activeConnectionCount x) (lastHeartbeatResponse x) (lastHeartbeatSent x) (lastResponseTime x) v (subscriptionState x) (processedMessages x) (maxProcessedMessages x) (lastPriceData x).

Definition set_subscriptionState (v : SubscriptionState) (x : Manager) : Manager :=
  mkManager (ws x) (symbol x) (connectionActive x) (heartbeatInterval x) (reconnectTimeout x) (messageCleanupInterval x) (connectionTimeouts x) (reconnectAttempts x) (maxReconnectAttempts x) (reconnectDelay x) (failedToConnect x) (lastConnectTime x) (connectionId x) (connectOperationInProgress x) (pendingConnection x) (lastCloseTime x) (activeConnectionCount x) (lastHeartbeatResponse x) (lastHeartbeatSent x) (lastResponseTime x) (heartbeatFailures x) v (processedMessages x) (maxProcessedMessages x) (lastPriceData x).

Definition set_processedMessages (v : list (string * Z)) (x : Manager) : Manager :=
  mkManager (ws x) (symbol x) (connectionActive x) (heartbeatInterval x) (reconnectTimeout x) (messageCleanupInterval x) (connectionTimeouts x) (reconnectAttempts x) (maxReconnectAttempts x) (reconnectDelay x) (failedToConnect x) (lastConnectTime x) (connectionId x) (connectOperationInProgress x) (pendingConnection x) (lastCloseTime x) (activeConnectionCount x) (lastHeartbeatResponse x) (lastHeartbeatSent x) (lastResponseTime x) (heartbeatFailures x) (subscriptionState x) v (maxProcessedMessages x) (lastPriceData x).

Definition set_maxProcessedMessages (v : Z) (x : Manager) : Manager :=
  mkManager (ws x) (symbol x) (connectionActive x) (heartbeatInterval x) (reconnectTimeout x) (messageCleanupInterval x) (connectionTimeouts x) (reconnectAttempts x) (maxReconnectAttempts x) (reconnectDelay x) (failedToConnect x) (lastConnectTime x) (connectionId x) (connectOperationInProgress x) (pendingConnection x) (lastCloseTime x) (activeConnectionCount x) (lastHeartbeatResponse x) (lastHeartbeatSent x) (lastResponseTime x) (heartbeatFailures x) (subscriptionState x) (processedMessages x) v (lastPriceData x).

Definition set_lastPriceData (v : option PriceData) (x : Manager) : Manager :=
  mkManager (ws x) (symbol x) (connectionActive x) (heartbeatInterval x) (reconnectTimeout x) (messageCleanupInterval x) (connectionTimeouts x) (reconnectAttempts x) (maxReconnectAttempts x) (reconnectDelay x) (failedToConnect x) (lastConnectTime x) (connectionId x) (connectOperationInProgress x) (pendingConnection x) (lastCloseTime x) (activeConnectionCount x) (lastHeartbeatResponse x) (lastHeartbeatSent x) (lastResponseTime x) (heartbeatFailures x) (subscriptionState x) (processedMessages x) (maxProcessedMessages x) v.

(** ** What the manager does to the outside *)

Inductive Effect : Type :=
| NewWebSocket (c : Z)          (* [new WebSocket(this.wsUrl)]: a connect attempt *)
| Terminate (c : Z)             (* [ws.terminate()] on the socket of connection [c] *)
| Close (c : Z)                 (* [ws.close()] *)
| RemoveAllListeners (c : Z)
| Ping (c : Z)
| Send (sym : string)           (* the SUBSCRIBE request for [ticker.sym] *)
| SetReconnectTimer (delay : Q) (* [setTimeout(..., delay)] of [handleReconnect] *)
| SetSetupRetryTimer            (* the 1 s retry while a close is draining *)
| SetResetTimer                 (* the 5 s timer of [resetConnection] *)
| OnPriceUpdate (info : PriceInfo)
| OnMessage (msg : Message).

Definition update_sub (f : SubscriptionState -> SubscriptionState)
           (m : Manager) : Manager :=
  set_subscriptionState (f (subscriptionState m)) m.

(** The constants the constructor sets. *)
Definition heartbeatTimeoutMs : Z := 90000.
Definition maxHeartbeatFailures : Z := 3.
Definition expireTime : Z := 10 * 60 * 1000.

(** The manager as the constructor leaves it at time [now]. *)
Definition initial (now : Z) : Manager :=
  mkManager None None false false false true [] 0 5 None false 0 0 false false
            0 0 now now now 0
            (mkSubscriptionState 0 0 0 false false false 0)
            [] 1000 None.

(** ** Reconnection *)

Definition Math_min (a b : Q) : Q := if Qle_bool a b then a else b.

(** [handleReconnect(symbol)] *)
Definition handleReconnect (m : Manager) : Manager * list Effect :=
  if reconnectTimeout m then (m, [])
  else if maxReconnectAttempts m <=? reconnectAttempts m
  then (set_failedToConnect true m, [])
  else
    let m := set_reconnectAttempts (reconnectAttempts m + 1) m in
    let baseDelay :=
      match reconnectDelay m with
      | Some d => if d =? 0 then 5000 else d
      | None => 5000
      end in
    let delay :=
      Math_min (inject_Z baseDelay * (3 # 2) ^ (reconnectAttempts m - 1))%Q
               60000%Q in
    (set_reconnectTimeout true m, [SetReconnectTimer delay]).

(** [closeWebSocket()] *)
Definition closeWebSocket (now : Z) (m : Manager) : Manager * list Effect :=
  let m := set_connectionActive false m in
  let m := set_heartbeatInterval false m in
  let m := set_reconnectTimeout false m in
  let m := set_messageCleanupInterval false m in
  let m := set_connectOperationInProgress false m in
  let m := set_pendingConnection false m in
  let '(m, effs) :=
    match ws m with
    | Some s =>
        let closing :=
          match readyState s with
          | OPEN => [Close (conn s)]
          | CONNECTING => [Terminate (conn s)]
          | _ => []
          end in
        let m := set_ws None m in
        let m := set_lastCloseTime now m in
        let m := set_activeConnectionCount 0 m in
        (m, RemoveAllListeners (conn s) :: closing)
    | None => (set_activeConnectionCount 0 m, [])
    end in
  let m := update_sub (fun s => set_attemptCount 0
                                  (set_pendingSubscription false
                                     (set_isSubscribed false s))) m in
  (m, effs).

(** [resetConnectionState()] *)
Definition resetConnectionState (m : Manager) : Manager :=
  let m := set_reconnectAttempts 0 m in
  let m := set_failedToConnect false m in
  let m := set_lastConnectTime 0 m in
  let m := set_connectOperationInProgress false m in
  let m := set_pendingConnection false m in
  let m := set_activeConnectionCount 0 m in
  let m := update_sub (fun s => set_currentFormatIndex 0
                                  (set_lastAttemptTime 0
                                     (set_attemptCount 0
                                        (set_isSubscribed false s)))) m in
  let m := set_processedMessages [] m in
  set_messageCleanupInterval true m.

(** [closeAllConnections()] *)
Definition closeAllConnections (now : Z) (m : Manager) : Manager * list Effect :=
  let '(m, effs) := closeWebSocket now m in
  let m := set_activeConnectionCount 0 m in
  let m := set_connectOperationInProgress false m in
  let m := set_connectionActive false m in
  let m := set_pendingConnection false m in
  let m := set_reconnectTimeout false m in
  let m := set_heartbeatInterval false m in
  let m := set_messageCleanupInterval false m in
  let m := set_processedMessages [] m in
  let m := set_ws None m in
  (resetConnectionState m, effs).

(** [isConnected()] *)
Definition isConnected (now : Z) (m : Manager) : bool :=
  let wsValid :=
    connectionActive m &&
    match ws m with
    | Some s => ReadyState_eqb (readyState s) OPEN
    | None => false
    end in
  if wsValid && negb (lastHeartbeatResponse m =? 0)
             && (now - lastHeartbeatResponse m >? 90000)
  then false
  else wsValid.

(** [subscribeTicker(symbol)]; [ws.send] is taken to succeed. *)
Definition subscribeTicker (sym : string) (now : Z) (m : Manager)
  : Manager * list Effect :=
  match ws m with
  | Some s =>
      if ReadyState_eqb (readyState s) OPEN then
        let m := update_sub (fun st => set_lastAttemptTime now
                                         (set_pendingSubscription true st)) m in
        (set_symbol (Some sym) m, [Send sym])
      else (m, [])
  | None => (m, [])
  end.

Definition ready_is (m : Manager) (r : ReadyState) : bool :=
  match ws m with
  | Some s => ReadyState_eqb (readyState s) r
  | None => false
  end.

Definition has_ws (m : Manager) : bool :=
  match ws m with Some _ => true | None => false end.

(** The tail of [setupPriceWebSocket], from the test of
    [connectOperationInProgress] on. [ctor_ok] tells whether
    [new WebSocket(this.wsUrl)] returns or throws. *)
Definition startConnection (ctor_ok : bool) (now : Z) (m : Manager)
  : Manager * list Effect :=
  if connectOperationInProgress m
  then (set_pendingConnection true m, [])
  else
    let m := set_connectOperationInProgress true m in
    let m := set_connectionId (connectionId m + 1) m in
    let currentConnectionId := connectionId m in
    let m := set_lastConnectTime now m in
    let m := set_activeConnectionCount 1 m in
    if ctor_ok then
      let m := set_ws (Some (mkSocket currentConnectionId CONNECTING)) m in
      let m := set_connectionTimeouts
                 (connectionTimeouts m ++ [currentConnectionId]) m in
      (m, [NewWebSocket currentConnectionId])
    else
      let m := set_connectOperationInProgress false m in
      let m := set_activeConnectionCount (activeConnectionCount m - 1) m in
      handleReconnect m.

(** [setupPriceWebSocket(symbol)] *)
Definition setupPriceWebSocket (ctor_ok : bool) (sym : string) (now : Z)
           (m : Manager) : Manager * list Effect :=
  let m := set_symbol (Some sym) m in
  if ready_is m OPEN && (0 <? activeConnectionCount m) then
    if isSubscribed (subscriptionState m) then (m, [])
    else subscribeTicker sym now m
  else if ready_is m CLOSING then
    (set_pendingConnection true m, [SetSetupRetryTimer])
  else if ready_is m CONNECTING then (m, [])
  else
    let '(m, effs) :=
      if has_ws m || (0 <? activeConnectionCount m)
      then let '(m, e) := closeAllConnections now m in
           (set_activeConnectionCount 0 (set_ws None m), e)
      else (m, []) in
    let '(m, e) := startConnection ctor_ok now m in
    (m, effs ++ e).

(** The callback of the 1 s timer set while a close is draining. *)
Definition setupRetryTimerFired (ctor_ok : bool) (sym : string) (now : Z)
           (m : Manager) : Manager * list Effect :=
  if pendingConnection m
  then setupPriceWebSocket ctor_ok sym now (set_pendingConnection false m)
  else (m, []).

(** The callback of the timer [handleReconnect] sets. *)
Definition reconnectTimerFired (ctor_ok : bool) (sym : string) (now : Z)
           (m : Manager) : Manager * list Effect :=
  let m := set_reconnectTimeout false m in
  let m := set_connectOperationInProgress false m in
  if isConnected now m then (m, [])
  else
    let m :=
      if now - lastCloseTime m >? 30000
      then update_sub (set_isSubscribed false) m
      else m in
    setupPriceWebSocket ctor_ok sym now m.

(** [resetConnection()] *)
Definition resetConnection (now : Z) (m : Manager) : Manager * list Effect :=
  let '(m, effs) := closeWebSocket now m in
  let m := set_connectionActive false m in
  let m := set_activeConnectionCount 0 m in
  let m := set_connectOperationInProgress false m in
  let m := set_pendingConnection false m in
  let m := set_heartbeatInterval false m in
  let m := set_reconnectTimeout false m in
  let m := update_sub (fun s => set_currentFormatIndex 0
                                  (set_lastAttemptTime 0
                                     (set_attemptCount 0
                                        (set_isSubscribed false s)))) m in
  (m, effs ++ [SetResetTimer]).

(** The callback of the 5 s timer of [resetConnection]. *)
Definition resetTimerFired (ctor_ok : bool) (now : Z) (m : Manager)
  : Manager * list Effect :=
  match symbol m with
  | Some sym =>
      if String.eqb sym ""%string then (m, [])
      else setupPriceWebSocket ctor_ok sym now m
  | None => (m, [])
  end.

(** ** Heartbeat *)

(** One run of the heartbeat interval callback; [ping_ok] tells whether
    [ws.ping()] returns or throws. *)
Definition heartbeatTick (ping_ok : bool) (now : Z) (m : Manager)
  : Manager * list Effect :=
  match ws m with
  | Some s =>
      if ReadyState_eqb (readyState s) OPEN then
        let timeSinceLastResponse := now - lastHeartbeatResponse m in
        if ping_ok then
          let m := set_lastHeartbeatSent now m in
          if timeSinceLastResponse >? heartbeatTimeoutMs then
            let m := set_heartbeatFailures (heartbeatFailures m + 1) m in
            if maxHeartbeatFailures <=? heartbeatFailures m
            then let '(m, e) := resetConnection now m in
                 (m, Ping (conn s) :: e)
            else (m, [Ping (conn s)])
          else (m, [Ping (conn s)])
        else
          let m := set_heartbeatFailures (heartbeatFailures m + 1) m in
          if maxHeartbeatFailures <=? heartbeatFailures m
          then resetConnection now m
          else (m, [])
      else (m, [])
  | None => (m, [])
  end.

(** The ['pong'] listener. *)
Definition onPong (now : Z) (m : Manager) : Manager :=
  set_heartbeatFailures 0 (set_lastHeartbeatResponse now m).

(** ** Inbound messages and the dedup cache *)

(** [x || ...] on a string field: absent and empty are falsy. *)
Definition truthy_str (o : option string) : option string :=
  match o with
  | Some s => if String.eqb s ""%string then None else Some s
  | None => None
  end.

Definition or_str (o : option string) (d : string) : string :=
  match truthy_str o with Some s => s | None => d end.

(** A number field is truthy when present and not [0]. *)
Definition truthy_num (o : option Z) : option Z :=
  match o with
  | Some z => if z =? 0 then None else Some z
  | None => None
  end.

Definition first_some (A : Type) (a b c : option A) : option A :=
  match a with
  | Some x => Some x
  | None => match b with Some x => Some x | None => c end
  end.

Definition str_is (o : option string) (s : string) : bool :=
  match o with Some x => String.eqb x s | None => false end.

(** A number inside a template string. *)
Definition show_Z (z : Z) : string := NilZero.string_of_int (Z.to_int z).

Definition lower_ascii (c : ascii) : ascii :=
  let n := nat_of_ascii c in
  if (65 <=? n)%nat && (n <=? 90)%nat then ascii_of_nat (n + 32) else c.

(** [s.toLowerCase()] on ASCII. *)
Fixpoint toLowerCase (s : string) : string :=
  match s with
  | EmptyString => EmptyString
  | String c rest => String (lower_ascii c) (toLowerCase rest)
  end.

(** [s.replace('_', '')]: the first underscore goes. *)
Fixpoint replace_underscore (s : string) : string :=
  match s with
  | EmptyString => EmptyString
  | String c rest =>
      if Ascii.eqb c "_"%char then rest else String c (replace_underscore rest)
  end.

(** [`${priceData.e || 'unknown'}_${priceData.s || 'unknown'}_${priceData.E}`],
    built only when [priceData.E] is truthy. *)
Definition messageId (d : PriceData) : option string :=
  match truthy_num (pd_E d) with
  | Some E =>
      Some (or_str (pd_e d) "unknown" ++ "_" ++ or_str (pd_s d) "unknown"
              ++ "_" ++ show_Z E)%string
  | None => None
  end.

(** [Map.has] on the insertion-ordered list of entries. *)
Fixpoint has (key : string) (entries : list (string * Z)) : bool :=
  match entries with
  | [] => false
  | (k, _) :: rest => String.eqb k key || has key rest
  end.

(** [processMessage(message, symbol, now)]: [recv] is the [Date] the message
    handler took, [now] the [Date.now()] of [processMessage]. The boolean is
    [false] when the call ends in a [TypeError] ([this.symbol] unset). *)
Definition processMessage (message : Message) (recv now : Z) (m : Manager)
  : Manager * list Effect * bool :=
  match msg_data message with
  | NoData => (m, [], true)
  | Unparsable => (m, [], true)
  | Parsed priceData =>
      let fresh :=
        match messageId priceData with
        | Some id =>
            if has id (processedMessages m) then None
            else Some (set_processedMessages
                         (processedMessages m ++ [(id, now)]) m)
        | None => Some m
        end in
      match fresh with
      | None => (m, [], true)
      | Some m =>
          let tickerSymbol :=
            first_some (truthy_str (pd_symbol priceData))
                       (truthy_str (pd_s priceData))
                       (if str_is (pd_e priceData) "ticker"%string
                        then truthy_str (msg_symbol message) else None) in
          let m := set_lastResponseTime now m in
          let confirmation :=
            str_is (msg_type message) "subscribed"%string
            || (str_is (msg_channel message) "ticker"%string
                && str_is (msg_type message) "update"%string)
            || (match truthy_num (pd_id priceData) with
                | Some _ => pd_result_null priceData
                | None => false
                end)
            || (str_is (pd_method priceData) "SUBSCRIBE"%string
                && match truthy_num (pd_id priceData) with
                   | Some _ => true
                   | None => false
                   end) in
          let m :=
            if confirmation && pendingSubscription (subscriptionState m)
            then update_sub (fun s => set_lastSubscribedTime now
                                        (set_subscribed true
                                           (set_pendingSubscription false s))) m
            else m in
          if msg_error message then (m, [], true)
          else
            let direct :=
              match truthy_str (symbol m), tickerSymbol with
              | Some sym, Some ts =>
                  if String.eqb (toLowerCase sym) (toLowerCase ts)
                  then Some ts else None
              | _, _ => None
              end in
            match direct with
            | Some ts =>
                let m := set_lastPriceData (Some priceData) m in
                let priceInfo :=
                  mkPriceInfo ts
                              (first_some (pd_price priceData) (pd_c priceData)
                                          (pd_lastPrice priceData))
                              recv (Some priceData) in
                (m, [OnPriceUpdate priceInfo], true)
            | None =>
                if str_is (pd_e priceData) "ticker"%string then
                  match symbol m with
                  | None => (m, [], false)
                  | Some sym =>
                      let backpackSymbol := or_str (pd_s priceData) ""%string in
                      if String.eqb
                           (toLowerCase (replace_underscore backpackSymbol))
                           (toLowerCase (replace_underscore sym))
                      then
                        let m := set_lastPriceData (Some priceData) m in
                        let priceInfo :=
                          mkPriceInfo backpackSymbol
                                      (first_some (pd_c priceData)
                                                  (pd_price priceData)
                                                  (pd_lastPrice priceData))
                                      recv (Some priceData) in
                        (m, [OnPriceUpdate priceInfo], true)
                      else (m, [], true)
                  end
                else (m, [], true)
            end
      end
  end.

(** Stable insertion by time stamp, as [Array.prototype.sort] with
    [(a, b) => a[1] - b[1]]. *)
Fixpoint insert_by_time (e : string * Z) (sorted : list (string * Z))
  : list (string * Z) :=
  match sorted with
  | [] => [e]
  | x :: rest =>
      if snd x <=? snd e then x :: insert_by_time e rest
      else e :: x :: rest
  end.

Definition sort_by_time (entries : list (string * Z)) : list (string * Z) :=
  fold_right insert_by_time [] entries.

(** One run of the interval callback of [setupMessageCleanup]: entries older
    than ten minutes go; if the map is still over capacity the oldest go. *)
Definition cleanupTick (now : Z) (m : Manager) : Manager :=
  match processedMessages m with
  | [] => m
  | _ =>
      let live := filter (fun e => negb (now - snd e >? expireTime))
                         (processedMessages m) in
      let size := Z.of_nat (List.length live) in
      if size >? maxProcessedMessages m then
        let entriesToRemove := size - maxProcessedMessages m in
        let doomed := map fst (firstn (Z.to_nat entriesToRemove)
                                      (sort_by_time live)) in
        set_processedMessages
          (filter (fun e => negb (existsb (String.eqb (fst e)) doomed)) live) m
      else set_processedMessages live m
  end.

(** ** The handlers installed on a socket *)

Definition stale (cl : Closure) (m : Manager) : bool :=
  negb (capturedId cl =? connectionId m).

Definition clearConnectionTimeout (cl : Closure) (m : Manager) : Manager :=
  set_connectionTimeouts
    (filter (fun c => negb (c =? capturedId cl)) (connectionTimeouts m)) m.

(** ['open'] *)
Definition onOpen (cl : Closure) (now : Z) (m : Manager)
  : Manager * list Effect :=
  if stale cl m then
    match ws m with
    | Some s =>
        (set_activeConnectionCount (activeConnectionCount m - 1) m,
         [Terminate (conn s)])
    | None => (m, [])
    end
  else
    let m := clearConnectionTimeout cl m in
    let m := set_connectionActive true m in
    let m := set_connectOperationInProgress false m in
    let m := set_reconnectAttempts 0 m in
    let m := set_failedToConnect false m in
    let '(m, effs) := subscribeTicker (capturedSymbol cl) now m in
    let m := set_heartbeatInterval true m in
    (set_pendingConnection false m, effs).

(** ['message']: [frame] is [None] when [JSON.parse] rejects the frame. *)
Definition onMessage (cl : Closure) (frame : option Message) (recv now : Z)
           (m : Manager) : Manager * list Effect :=
  if stale cl m then (m, [])
  else
    match frame with
    | None => (m, [])
    | Some message =>
        let '(m, effs, completed) := processMessage message recv now m in
        if completed then (m, effs ++ [OnMessage message]) else (m, effs)
    end.

(** ['close'] *)
Definition onClose (cl : Closure) (now : Z) (m : Manager)
  : Manager * list Effect :=
  if stale cl m then (m, [])
  else
    let m := clearConnectionTimeout cl m in
    let m := set_connectionActive false m in
    let m := set_activeConnectionCount (activeConnectionCount m - 1) m in
    let m := set_lastCloseTime now m in
    let m := set_connectOperationInProgress false m in
    let m := set_heartbeatInterval false m in
    handleReconnect m.

(** ['error']: logged in either case, reconnection is left to ['close']. *)
Definition onError (cl : Closure) (m : Manager) : Manager * list Effect :=
  if stale cl m then (m, []) else (m, []).

(** The 10 s connect timeout of the connection [cl] was made for. *)
Definition connectionTimeoutFired (cl : Closure) (m : Manager)
  : Manager * list Effect :=
  let m := clearConnectionTimeout cl m in
  match ws m with
  | Some s =>
      if ReadyState_eqb (readyState s) OPEN then (m, [])
      else
        let m := set_ws None m in
        let m := set_activeConnectionCount 0 m in
        let m := set_connectOperationInProgress false m in
        let '(m, effs) := handleReconnect m in
        (m, Terminate (conn s) :: effs)
  | None => (m, [])
  end.

(** ** Events *)

(** The transport moves the socket [this.ws] refers to into a new state
    before it emits the matching event. *)
Definition socket_becomes (c : Z) (r : ReadyState) (m : Manager) : Manager :=
  match ws m with
  | Some s => if conn s =? c then set_ws (Some (mkSocket c r)) m else m
  | None => m
  end.

Inductive Event : Type :=
| SocketOpen (cl : Closure)
| SocketMessage (cl : Closure) (frame : option Message) (recv : Z)
| SocketClose (cl : Closure)
| SocketError (cl : Closure)
| SocketPong
| ConnectionTimeout (cl : Closure)
| ReconnectTimer (ctor_ok : bool) (sym : string)
| SetupRetryTimer (ctor_ok : bool) (sym : string)
| ResetTimer (ctor_ok : bool)
| HeartbeatTick (ping_ok : bool)
| CleanupTick
| CallSetup (ctor_ok : bool) (sym : string)
| CallResetConnectionState
| CallResetConnection
| CallCloseWebSocket
| CallCloseAllConnections.

(** One event handled at time [now]. *)
Definition step (now : Z) (ev : Event) (m : Manager) : Manager * list Effect :=
  match ev with
  | SocketOpen cl => onOpen cl now (socket_becomes (capturedId cl) OPEN m)
  | SocketMessage cl frame recv => onMessage cl frame recv now m
  | SocketClose cl => onClose cl now (socket_becomes (capturedId cl) CLOSED m)
  | SocketError cl => onError cl m
  | SocketPong => (onPong now m, [])
  | ConnectionTimeout cl => connectionTimeoutFired cl m
  | ReconnectTimer ctor_ok sym => reconnectTimerFired ctor_ok sym now m
  | SetupRetryTimer ctor_ok sym => setupRetryTimerFired ctor_ok sym now m
  | ResetTimer ctor_ok => resetTimerFired ctor_ok now m
  | HeartbeatTick ping_ok => heartbeatTick ping_ok now m
  | CleanupTick => (cleanupTick now m, [])
  | CallSetup ctor_ok sym => setupPriceWebSocket ctor_ok sym now m
  | CallResetConnectionState => (resetConnectionState m, [])
  | CallResetConnection => resetConnection now m
  | CallCloseWebSocket => closeWebSocket now m
  | CallCloseAllConnections => closeAllConnections now m
  end.

(** A sequence of events, each with the time it is handled at. *)
Fixpoint run (evs : list (Z * Event)) (m : Manager) : Manager * list Effect :=
  match evs with
  | [] => (m, [])
  | (now, ev) :: rest =>
      let '(m1, e1) := step now ev m in
      let '(m2, e2) := run rest m1 in
      (m2, e1 ++ e2)
  end.

(** The connect attempts and the reconnect timers among some effects. *)
Definition is_attempt (e : Effect) : bool :=
  match e with
  | NewWebSocket _ | SetReconnectTimer _ => true
  | _ => false
  end.

Definition attempts (effs : list Effect) : list Effect := filter is_attempt effs.


(** ** Stale callbacks *)

Lemma stale_message_dropped cl frame recv now m :
  stale cl m = true -> onMessage cl frame recv now m = (m, []).
Proof. intro H. unfold onMessage. now rewrite H. Qed.

Lemma stale_close_dropped cl now m :
  stale cl m = true -> onClose cl now m = (m, []).
Proof. intro H. unfold onClose. now rewrite H. Qed.

Lemma stale_error_dropped cl m :
  stale cl m = true -> onError cl m = (m, []).
Proof. intro H. unfold onError. now rewrite H. Qed.

(** A stale ['open'] is not dropped: it terminates the socket the manager
    holds now and takes one off the connection count. *)
Lemma stale_open_acts cl now m s :
  stale cl m = true -> ws m = Some s ->
  onOpen cl now m
  = (set_activeConnectionCount (activeConnectionCount m - 1) m,
     [Terminate (conn s)]).
Proof. intros H Hws. unfold onOpen. now rewrite H, Hws. Qed.

(** Connection 1 times out, the reconnect timer opens connection 2, which
    is established and subscribed. *)
Definition BTC : string := "BTC_USDC_PERP".

Definition second_connection_open : Manager :=
  fst (run [ (0, CallSetup true BTC);
             (10000, ConnectionTimeout (mkClosure 1 BTC));
             (15000, ReconnectTimer true BTC);
             (15200, SocketOpen (mkClosure 2 BTC)) ]
           (initial 0)).


(** ** The reconnect limit *)














(** Every connection attempt times out. The first connection and the five
    reconnects of [maxReconnectAttempts = 5] are made, with delays growing by
    the factor 1.5 from 5 s; when the fifth reconnect has timed out the
    manager gives up. *)
Definition all_attempts_time_out : list (Z * Event) :=
  [ (0, CallSetup true BTC);
    (10000, ConnectionTimeout (mkClosure 1 BTC));
    (15000, ReconnectTimer true BTC);
    (25000, ConnectionTimeout (mkClosure 2 BTC));
    (32500, ReconnectTimer true BTC);
    (42500, ConnectionTimeout (mkClosure 3 BTC));
    (53750, ReconnectTimer true BTC);
    (63750, ConnectionTimeout (mkClosure 4 BTC));
    (80625, ReconnectTimer true BTC);
    (90625, ConnectionTimeout (mkClosure 5 BTC));
    (115938, ReconnectTimer true BTC) ].

Definition fifth_reconnect_pending : Manager :=
  fst (run all_attempts_time_out (initial 0)).

Example attempts_until_limit :
  attempts (snd (run all_attempts_time_out (initial 0)))
  = [ NewWebSocket 1; SetReconnectTimer 5000%Q;
      NewWebSocket 2; SetReconnectTimer (15000 # 2)%Q;
      NewWebSocket 3; SetReconnectTimer (45000 # 4)%Q;
      NewWebSocket 4; SetReconnectTimer (135000 # 8)%Q;
      NewWebSocket 5; SetReconnectTimer (405000 # 16)%Q;
      NewWebSocket 6 ]
  /\ reconnectAttempts fifth_reconnect_pending = 5
  /\ failedToConnect fifth_reconnect_pending = false
  /\ (let gaveUp := step 125938 (ConnectionTimeout (mkClosure 6 BTC))
                          fifth_reconnect_pending in
      snd gaveUp = [Terminate 6]
      /\ failedToConnect (fst gaveUp) = true
      /\ reconnectTimeout (fst gaveUp) = false).
Proof. repeat split; vm_compute; reflexivity. Qed.

(** The state after the sixth connection has timed out, before
    [handleReconnect] runs. *)
Definition limit_reached : Manager :=
  set_connectOperationInProgress false
    (set_activeConnectionCount 0
       (set_ws None fifth_reconnect_pending)).


(** When connections fail by closing rather than by timing out, the closed
    socket is still in [this.ws] at the next [setupPriceWebSocket], which then
    runs [closeAllConnections] and with it [resetConnectionState]: the counter
    restarts at every reconnect and the limit is not reached. *)
Example closing_connections_restart_the_count :
  let r := run [ (0, CallSetup true BTC);
                 (100, SocketClose (mkClosure 1 BTC));
                 (5100, ReconnectTimer true BTC);
                 (5200, SocketClose (mkClosure 2 BTC));
                 (10200, ReconnectTimer true BTC);
                 (10300, SocketClose (mkClosure 3 BTC)) ] (initial 0) in
  attempts (snd r)
  = [ NewWebSocket 1; SetReconnectTimer 5000%Q;
      NewWebSocket 2; SetReconnectTimer 5000%Q;
      NewWebSocket 3; SetReconnectTimer 5000%Q ]
  /\ reconnectAttempts (fst r) = 1.
Proof. split; vm_compute; reflexivity. Qed.

End WsManager.

(* ================================================================== *)
(** * PriceFeed: [PriceMonitor] *)
(* ================================================================== *)

Module PriceMonitor.

Import WsManager.

Local Open Scope Z_scope.

(** The object handed to the feed's subscriber [onPriceUpdate]. *)
Record Delivery : Type := mkDelivery {
  d_symbol : string;
  d_price : Q;
  d_source : option string;
  d_time : Z;
  d_prev : Q;
  d_change : Q
}.

(** The readings of [Date.now()] during one call of
    [handleWebSocketPriceUpdate]: when the event is marked as processed, when
    the throttle is evaluated, and inside [handlePriceUpdate]. *)
Record Clock : Type := mkClock {
  atMark : Z;
  atThrottle : Z;
  atDeliver : Z
}.

(** The price state of a [PriceMonitor]. [lastUpdateTime], [restartTime] and
    [priceSource] are [null] ([None]) until set; the two timeout fields are
    [true] while their timer is set. *)
Record Monitor : Type := mkMonitor {
  currentPrice : Q;
  lastPrice : Q;
  lastUpdateTime : option Z;
  priceSource : option string;
  restartTime : option Z;
  processedPriceEvents : list (string * Z);
  maxProcessedEvents : Z;
  wsConnectTimeout : bool;
  initialDataTimeout : bool;
  monitoredSymbol : option string
}.

Definition set_currentPrice (v : Q) (x : Monitor) : Monitor :=
  mkMonitor v (lastPrice x) (lastUpdateTime x) (priceSource x) (restartTime x) (processedPriceEvents x) (maxProcessedEvents x) (wsConnectTimeout x) (initialDataTimeout x) (monitoredSymbol x).

Definition set_lastPrice (v : Q) (x : Monitor) : Monitor :=
  mkMonitor (currentPrice x) v (lastUpdateTime x) (priceSource x) (restartTime x) (processedPriceEvents x) (maxProcessedEvents x) (wsConnectTimeout x) (initialDataTimeout x) (monitoredSymbol x).

Definition set_lastUpdateTime (v : option Z) (x : Monitor) : Monitor :=
  mkMonitor (currentPrice x) (lastPrice x) v (priceSource x) (restartTime x) (processedPriceEvents x) (maxProcessedEvents x) (wsConnectTimeout x) (initialDataTimeout x) (monitoredSymbol x).

Definition set_priceSource (v : option string) (x : Monitor) : Monitor :=
  mkMonitor (currentPrice x) (lastPrice x) (lastUpdateTime x) v (restartTime x) (processedPriceEvents x) (maxProcessedEvents x) (wsConnectTimeout x) (initialDataTimeout x) (monitoredSymbol x).

Definition set_restartTime (v : option Z) (x : Monitor) : Monitor :=
  mkMonitor (currentPrice x) (lastPrice x) (lastUpdateTime x) (priceSource x) v (processedPriceEvents x) (maxProcessedEvents x) (wsConnectTimeout x) (initialDataTimeout x) (monitoredSymbol x).

Definition set_processedPriceEvents (v : list (string * Z)) (x : Monitor) : Monitor :=
  mkMonitor (currentPrice x) (lastPrice x) (lastUpdateTime x) (priceSource x) (restartTime x) v (maxProcessedEvents x) (wsConnectTimeout x) (initialDataTimeout x) (monitoredSymbol x).

Definition set_maxProcessedEvents (v : Z) (x : Monitor) : Monitor :=
  mkMonitor (currentPrice x) (lastPrice x) (lastUpdateTime x) (priceSource x) (restartTime x) (processedPriceEvents x) v (wsConnectTimeout x) (initialDataTimeout x) (monitoredSymbol x).

Definition set_wsConnectTimeout (v : bool) (x : Monitor) : Monitor :=
  mkMonitor (currentPrice x) (lastPrice x) (lastUpdateTime x) (priceSource x) (restartTime x) (processedPriceEvents x) (maxProcessedEvents x) v (initialDataTimeout x) (monitoredSymbol x).

Definition set_initialDataTimeout (v : bool) (x : Monitor) : Monitor :=
  mkMonitor (currentPrice x) (lastPrice x) (lastUpdateTime x) (priceSource x) (restartTime x) (processedPriceEvents x) (maxProcessedEvents x) (wsConnectTimeout x) v (monitoredSymbol x).

Definition set_monitoredSymbol (v : option string) (x : Monitor) : Monitor :=
  mkMonitor (currentPrice x) (lastPrice x) (lastUpdateTime x) (priceSource x) (restartTime x) (processedPriceEvents x) (maxProcessedEvents x) (wsConnectTimeout x) (initialDataTimeout x) v.

(** The monitor as the constructor, or [clearPriceData], leaves the prices. *)
Definition cold (sym : string) : Monitor :=
  mkMonitor 0 0 None None None [] 1000 false false (Some sym).

(** [clearAllTimeouts()] *)
Definition clearAllTimeouts (mon : Monitor) : Monitor :=
  set_initialDataTimeout false (set_wsConnectTimeout false mon).

(** [clearPriceData()], as far as the monitor's own fields go. *)
Definition clearPriceData (mon : Monitor) : Monitor :=
  let mon := set_currentPrice 0 mon in
  let mon := set_lastPrice 0 mon in
  let mon := set_lastUpdateTime None mon in
  let mon := set_priceSource None mon in
  let mon := set_restartTime None mon in
  set_processedPriceEvents [] mon.

(** A time field is truthy when set and not [0]. *)
Definition truthy_time (t : option Z) : option Z := truthy_num t.

(** [isPriceValid(price)] on a number that is not [NaN]. *)
Definition isPriceValid (price : Q) : bool := negb (Qle_bool price 0).

(** [handlePriceUpdate(price, symbol, source = this.priceSource)];
    [now] is its [Date.now()]. *)
Definition handlePriceUpdate (price : Q) (sym : string) (now : Z)
           (mon : Monitor) : list Delivery :=
  if negb (isPriceValid price) then []
  else
    let minUpdateInterval := 100 in
    match truthy_time (lastUpdateTime mon) with
    | Some last =>
        if now - last <? minUpdateInterval then []
        else
          [mkDelivery sym price (priceSource mon) now (lastPrice mon)
                      (if Qle_bool (lastPrice mon) 0 then 0%Q
                       else ((price - lastPrice mon) / lastPrice mon)%Q)]
    | None =>
        [mkDelivery sym price (priceSource mon) now (lastPrice mon)
                    (if Qle_bool (lastPrice mon) 0 then 0%Q
                     else ((price - lastPrice mon) / lastPrice mon)%Q)]
    end.

(** [`${rawData.e || 'ticker'}_${rawData.s || symbol}_${rawData.E}`], built
    only when [rawData.E] is truthy. *)
Definition eventId (rawData : PriceData) (sym : string) : option string :=
  match truthy_num (pd_E rawData) with
  | Some E =>
      Some (or_str (pd_e rawData) "ticker" ++ "_" ++ or_str (pd_s rawData) sym
              ++ "_" ++ show_Z E)%string
  | None => None
  end.

(** The dedup test of [handleWebSocketPriceUpdate]: [None] when the event
    was processed before, else the monitor with the event marked (if the
    payload carries an event time). *)
Definition markPriceEvent (info : PriceInfo) (clk : Clock) (mon : Monitor)
  : option Monitor :=
  match pi_raw info with
  | Some rawData =>
      match eventId rawData (pi_symbol info) with
      | Some id =>
          if has id (processedPriceEvents mon) then None
          else Some (set_processedPriceEvents
                       (processedPriceEvents mon ++ [(id, atMark clk)]) mon)
      | None => Some mon
      end
  | None => Some mon
  end.

(** The rest of [handleWebSocketPriceUpdate], from [clearAllTimeouts()]
    on. *)
Definition acceptPriceUpdate (price : Q) (info : PriceInfo) (clk : Clock)
           (mon : Monitor) : Monitor * list Delivery :=
  let mon := clearAllTimeouts mon in
  let now := atThrottle clk in
  let timeStamp := pi_time info in
  let throttled :=
    if negb (Qle_bool (currentPrice mon) 0)
       && Qeq_bool price (currentPrice mon)
    then
      let timeSinceLastUpdate :=
        now - match truthy_time (lastUpdateTime mon) with
              | Some t => t
              | None => 0
              end in
      let isPostRestartPeriod :=
        match truthy_time (restartTime mon) with
        | Some t => now - t <? 5000
        | None => false
        end in
      if isPostRestartPeriod then timeSinceLastUpdate <? 1000
      else timeSinceLastUpdate <? 500
    else false in
  if throttled then (mon, [])
  else
    let isFirstUpdate := Qle_bool (currentPrice mon) 0 in
    let mon :=
      if isFirstUpdate then set_restartTime (Some now) mon else mon in
    let mon := set_lastPrice (currentPrice mon) mon in
    let mon := set_currentPrice price mon in
    let mon := set_lastUpdateTime (Some timeStamp) mon in
    let mon := set_priceSource (Some "WebSocket"%string) mon in
    (mon, handlePriceUpdate price (pi_symbol info) (atDeliver clk) mon).

(** [handleWebSocketPriceUpdate(priceInfo, time)], called by the connection
    manager with a price object and the [Date] of the message. *)
Definition handleWebSocketPriceUpdate (info : PriceInfo) (clk : Clock)
           (mon : Monitor) : Monitor * list Delivery :=
  match pi_price info with
  | None => (mon, [])
  | Some price =>
      if String.eqb (pi_symbol info) ""%string || Qle_bool price 0
      then (mon, [])
      else
        match markPriceEvent info clk mon with
        | None => (mon, [])
        | Some mon => acceptPriceUpdate price info clk mon
        end
  end.

(** One run of the interval callback of [setupEventCleanup]: entries older
    than fifteen minutes go; if the map is still over capacity the oldest
    go. *)
Definition eventCleanupTick (now : Z) (mon : Monitor) : Monitor :=
  match processedPriceEvents mon with
  | [] => mon
  | _ =>
      let expireTime := 15 * 60 * 1000 in
      let live := filter (fun e => negb (now - snd e >? expireTime))
                         (processedPriceEvents mon) in
      let size := Z.of_nat (List.length live) in
      if size >? maxProcessedEvents mon then
        let entriesToRemove := size - maxProcessedEvents mon in
        let doomed := map fst (firstn (Z.to_nat entriesToRemove)
                                      (sort_by_time live)) in
        set_processedPriceEvents
          (filter (fun e => negb (existsb (String.eqb (fst e)) doomed)) live)
          mon
      else set_processedPriceEvents live mon
  end.

(** ** Throttling *)

(** An unchanged price inside the throttle window (500 ms, or 1 s during the
    5 s after a first update) is not delivered and leaves the price state as
    it is. *)
Lemma unchanged_price_suppressed info clk mon price last :
  pi_price info = Some price ->
  pi_symbol info <> ""%string ->
  pi_raw info = None ->
  (0 < currentPrice mon)%Q ->
  (price == currentPrice mon)%Q ->
  lastUpdateTime mon = Some last -> last <> 0 ->
  atThrottle clk - last < 500 ->
  handleWebSocketPriceUpdate info clk mon = (clearAllTimeouts mon, []).
Proof.
  intros Hp Hs Hraw Hcur Heq Hlast Hl0 Hwin.
  unfold handleWebSocketPriceUpdate, markPriceEvent. rewrite Hp, Hraw.
  destruct (String.eqb_spec (pi_symbol info) ""%string); [contradiction|].
  assert (Hpos : Qle_bool price 0 = false).
  { destruct (Qle_bool price 0) eqn:E; [|reflexivity].
    apply Qle_bool_iff in E. lra. }
  rewrite Hpos. cbn [orb]. unfold acceptPriceUpdate.
  assert (Hc : currentPrice (clearAllTimeouts mon) = currentPrice mon)
    by (destruct mon; reflexivity).
  assert (Hl : lastUpdateTime (clearAllTimeouts mon) = Some last)
    by (destruct mon; assumption).
  rewrite Hc, Hl.
  assert (Hcp : Qle_bool (currentPrice mon) 0 = false).
  { destruct (Qle_bool (currentPrice mon) 0) eqn:E; [|reflexivity].
    apply Qle_bool_iff in E. lra. }
  rewrite Hcp. apply Qeq_bool_iff in Heq. rewrite Heq. cbn [negb andb].
  assert (Htr : truthy_time (Some last) = Some last).
  { unfold truthy_time, truthy_num.
    destruct (Z.eqb_spec last 0); [contradiction | reflexivity]. }
  rewrite Htr.
  assert (H500 : (atThrottle clk - last <? 500) = true)
    by (apply Z.ltb_lt; lia).
  assert (H1000 : (atThrottle clk - last <? 1000) = true)
    by (apply Z.ltb_lt; lia).
  rewrite H500, H1000.
  destruct (match truthy_time (restartTime (clearAllTimeouts mon)) with
            | Some t => atThrottle clk - t <? 5000
            | None => false
            end); reflexivity.
Qed.

(** The first update after a cold start passes the unchanged-price throttle:
    the price state is updated and the update is handed to
    [handlePriceUpdate]. *)
Lemma first_update_reaches_handlePriceUpdate info clk mon price :
  pi_price info = Some price ->
  pi_symbol info <> ""%string ->
  pi_raw info = None ->
  (0 < price)%Q ->
  (currentPrice mon <= 0)%Q ->
  currentPrice (fst (handleWebSocketPriceUpdate info clk mon)) = price
  /\ lastUpdateTime (fst (handleWebSocketPriceUpdate info clk mon))
     = Some (pi_time info)
  /\ snd (handleWebSocketPriceUpdate info clk mon)
     = handlePriceUpdate price (pi_symbol info) (atDeliver clk)
                         (fst (handleWebSocketPriceUpdate info clk mon)).
Proof.
  intros Hp Hs Hraw Hpos Hcold.
  unfold handleWebSocketPriceUpdate, markPriceEvent. rewrite Hp, Hraw.
  destruct (String.eqb_spec (pi_symbol info) ""%string); [contradiction|].
  assert (Hpb : Qle_bool price 0 = false).
  { destruct (Qle_bool price 0) eqn:E; [|reflexivity].
    apply Qle_bool_iff in E. lra. }
  rewrite Hpb. cbn [orb]. unfold acceptPriceUpdate.
  assert (Hc : currentPrice (clearAllTimeouts mon) = currentPrice mon)
    by (destruct mon; reflexivity).
  rewrite Hc.
  assert (Hcb : Qle_bool (currentPrice mon) 0 = true)
    by (now apply Qle_bool_iff).
  rewrite Hcb. cbn [negb andb fst snd].
  repeat split; destruct mon; reflexivity.
Qed.

(** But [handlePriceUpdate] measures its minimum interval of 100 ms from
    [lastUpdateTime], which [handleWebSocketPriceUpdate] has just set to the
    time of this very message: an update is delivered only if it is handled
    at least 100 ms after it was received. *)
Lemma ws_update_dropped_without_lag info clk mon :
  pi_time info <> 0 ->
  atDeliver clk - pi_time info < 100 ->
  snd (handleWebSocketPriceUpdate info clk mon) = [].
Proof.
  intros Ht Hlag. unfold handleWebSocketPriceUpdate.
  destruct (pi_price info) as [price|]; [|reflexivity].
  destruct (_ || _); [reflexivity|].
  destruct (markPriceEvent info clk mon) as [mon1|]; [|reflexivity].
  unfold acceptPriceUpdate.
  match goal with
  | |- context [if ?b then (_, []) else _] => destruct b; [reflexivity|]
  end.
  cbn [snd]. unfold handlePriceUpdate.
  destruct (negb (isPriceValid price)); [reflexivity|].
  match goal with
  | |- context [truthy_time (lastUpdateTime ?m)] =>
      assert (Hl : lastUpdateTime m = Some (pi_time info))
  end.
  { destruct (Qle_bool (currentPrice (clearAllTimeouts mon1)) 0);
      destruct mon1; reflexivity. }
  rewrite Hl. unfold truthy_time, truthy_num.
  destruct (Z.eqb_spec (pi_time info) 0); [contradiction|].
  assert (H100 : (atDeliver clk - pi_time info <? 100) = true)
    by (apply Z.ltb_lt; lia).
  now rewrite H100.
Qed.

(** C6 at a concrete input. Cold start, first ticker price 100 received at
    time [t] and handled within the same millisecond: the price state is
    updated, yet nothing reaches the subscriber. Handled 100 ms late, the
    same update is delivered. *)
Theorem first_update_not_delivered :
  let t := 1700000000000 in
  let info := mkPriceInfo BTC (Some 100%Q) t None in
  let prompt := handleWebSocketPriceUpdate info (mkClock t t t) (cold BTC) in
  let late := handleWebSocketPriceUpdate info (mkClock t t (t + 100)) (cold BTC) in
  currentPrice (cold BTC) = 0%Q
  /\ currentPrice (fst prompt) = 100%Q
  /\ lastUpdateTime (fst prompt) = Some t
  /\ snd prompt = []
  /\ snd late = [mkDelivery BTC 100%Q (Some "WebSocket"%string) (t + 100) 0%Q 0%Q].
Proof. cbv zeta. repeat split; vm_compute; reflexivity. Qed.

(** ** The manager's dedup cache *)

(** A payload whose identity is in the manager's cache is dropped there:
    the manager is left as it is and [onPriceUpdate] is not called. *)
Lemma processMessage_duplicate message d id recv now m :
  msg_data message = Parsed d ->
  messageId d = Some id ->
  has id (processedMessages m) = true ->
  processMessage message recv now m = (m, [], true).
Proof.
  intros Hd Hid Hhas. unfold processMessage. now rewrite Hd, Hid, Hhas.
Qed.

(** A payload with an identity is in the cache once it has been processed,
    and processing a message removes nothing from the cache. *)
Lemma processMessage_marks message d id recv now m :
  msg_data message = Parsed d ->
  messageId d = Some id ->
  has id (processedMessages (fst (fst (processMessage message recv now m))))
  = true.
Proof.
  intros Hd Hid. unfold processMessage. rewrite Hd, Hid.
  destruct (has id (processedMessages m)) eqn:Hhas; [exact Hhas|].
  assert (Hnew : has id (processedMessages m ++ [(id, now)]) = true).
  { clear. induction (processedMessages m) as [|[k t] rest IH]; simpl.
    - now rewrite String.eqb_refl.
    - rewrite IH. apply orb_true_r. }
  repeat match goal with
         | |- context [match ?x with _ => _ end] =>
             lazymatch x with
             | context [match _ with _ => _ end] => fail
             | _ => destruct x eqn:?
             end
         end; cbn [fst]; destruct m; exact Hnew.
Qed.

(** ** The feed: connection manager and monitor together *)

(** The price objects the manager hands to [onPriceUpdate]. *)
Definition price_updates (effs : list Effect) : list PriceInfo :=
  flat_map (fun e => match e with OnPriceUpdate i => [i] | _ => [] end) effs.

(** The monitor's callback run on each of them in turn. *)
Fixpoint forward (infos : list PriceInfo) (clk : Clock) (mon : Monitor)
  : Monitor * list Delivery :=
  match infos with
  | [] => (mon, [])
  | i :: rest =>
      let '(mon1, d1) := handleWebSocketPriceUpdate i clk mon in
      let '(mon2, d2) := forward rest clk mon1 in
      (mon2, d1 ++ d2)
  end.

Record Feed : Type := mkFeed {
  manager : Manager;
  monitor : Monitor
}.

Inductive FeedEvent : Type :=
| Transport (ev : Event) (clk : Clock)  (* an event of the connection manager *)
| EventCleanup                          (* the monitor's cache sweep *)
| ClearPriceData.                       (* [clearPriceData()], on start and stop *)

(** One event of the feed at time [now], with what reaches the
    subscriber. *)
Definition feed_step (now : Z) (fe : FeedEvent) (f : Feed)
  : Feed * list Delivery :=
  match fe with
  | Transport ev clk =>
      let '(m, effs) := step now ev (manager f) in
      let '(mon, ds) := forward (price_updates effs) clk (monitor f) in
      (mkFeed m mon, ds)
  | EventCleanup => (mkFeed (manager f) (eventCleanupTick now (monitor f)), [])
  | ClearPriceData =>
      (mkFeed (set_lastPriceData None (manager f)) (clearPriceData (monitor f)),
       [])
  end.

Fixpoint feed_run (evs : list (Z * FeedEvent)) (f : Feed)
  : Feed * list Delivery :=
  match evs with
  | [] => (f, [])
  | (now, fe) :: rest =>
      let '(f1, d1) := feed_step now fe f in
      let '(f2, d2) := feed_run rest f1 in
      (f2, d1 ++ d2)
  end.

(** An inbound stream frame carrying the payload [d]. *)
Definition stream_frame (cl : Closure) (d : PriceData) (recv : Z) (clk : Clock)
  : FeedEvent :=
  Transport (SocketMessage cl (Some (mkMessage (Parsed d) None None false None))
                           recv) clk.

(** Two payloads with the same server-assigned identity: event type, symbol
    and a truthy event time. *)
Definition same_event (d1 d2 : PriceData) : Prop :=
  pd_e d1 = pd_e d2 /\ pd_s d1 = pd_s d2 /\ pd_E d1 = pd_E d2
  /\ truthy_num (pd_E d1) <> None /\ truthy_str (pd_s d1) <> None.

(** ** Only a message makes the manager call [onPriceUpdate] *)

Lemma price_updates_app e1 e2 :
  price_updates (e1 ++ e2) = price_updates e1 ++ price_updates e2.
Proof. unfold price_updates. apply flat_map_app. Qed.

Lemma handleReconnect_quiet m : price_updates (snd (handleReconnect m)) = [].
Proof.
  unfold handleReconnect. destruct (reconnectTimeout m); [reflexivity|].
  destruct (_ <=? _); reflexivity.
Qed.

Lemma closeWebSocket_quiet now m : price_updates (snd (closeWebSocket now m)) = [].
Proof.
  unfold closeWebSocket. cbv zeta.
  match goal with
  | |- context [match ws ?x with _ => _ end] => destruct (ws x) as [s|]
  end; [|reflexivity].
  destruct (readyState s); reflexivity.
Qed.

Lemma closeAllConnections_quiet now m :
  price_updates (snd (closeAllConnections now m)) = [].
Proof.
  unfold closeAllConnections.
  pose proof (closeWebSocket_quiet now m) as H.
  destruct (closeWebSocket now m) as [m1 e]. exact H.
Qed.

Lemma subscribeTicker_quiet sym now m :
  price_updates (snd (subscribeTicker sym now m)) = [].
Proof.
  unfold subscribeTicker. destruct (ws m) as [s|]; [|reflexivity].
  destruct (ReadyState_eqb _ _); reflexivity.
Qed.

Lemma startConnection_quiet ok now m :
  price_updates (snd (startConnection ok now m)) = [].
Proof.
  unfold startConnection. destruct (connectOperationInProgress m); [reflexivity|].
  destruct ok; [reflexivity|]. apply handleReconnect_quiet.
Qed.

Lemma setupPriceWebSocket_quiet ok sym now m :
  price_updates (snd (setupPriceWebSocket ok sym now m)) = [].
Proof.
  unfold setupPriceWebSocket. cbv zeta.
  destruct (_ && _).
  { destruct (isSubscribed _); [reflexivity | apply subscribeTicker_quiet]. }
  destruct (ready_is _ CLOSING); [reflexivity|].
  destruct (ready_is _ CONNECTING); [reflexivity|].
  destruct (_ || _).
  - pose proof (closeAllConnections_quiet now (set_symbol (Some sym) m)) as H.
    destruct (closeAllConnections now (set_symbol (Some sym) m)) as [m1 e1].
    match goal with
    | |- context [startConnection ok now ?x] =>
        pose proof (startConnection_quiet ok now x) as H2;
        destruct (startConnection ok now x) as [m2 e2]
    end.
    cbn [snd] in *. now rewrite price_updates_app, H, H2.
  - pose proof (startConnection_quiet ok now (set_symbol (Some sym) m)) as H2.
    destruct (startConnection ok now (set_symbol (Some sym) m)) as [m2 e2].
    exact H2.
Qed.

Lemma resetConnection_quiet now m :
  price_updates (snd (resetConnection now m)) = [].
Proof.
  unfold resetConnection.
  pose proof (closeWebSocket_quiet now m) as H.
  destruct (closeWebSocket now m) as [m1 e]. cbn [snd] in *.
  now rewrite price_updates_app, H.
Qed.

Lemma heartbeatTick_quiet ok now m :
  price_updates (snd (heartbeatTick ok now m)) = [].
Proof.
  unfold heartbeatTick. destruct (ws m) as [s|]; [|reflexivity].
  destruct (ReadyState_eqb _ _); [|reflexivity].
  destruct ok.
  - destruct (_ >? _); [|reflexivity].
    destruct (_ <=? _); [|reflexivity].
    match goal with
    | |- context [resetConnection now ?x] =>
        pose proof (resetConnection_quiet now x) as H;
        destruct (resetConnection now x) as [m1 e]
    end.
    exact H.
  - destruct (_ <=? _); [apply resetConnection_quiet | reflexivity].
Qed.

Lemma onOpen_quiet cl now m : price_updates (snd (onOpen cl now m)) = [].
Proof.
  unfold onOpen. destruct (stale cl m).
  - destruct (ws m); reflexivity.
  - match goal with
    | |- context [subscribeTicker ?s now ?x] =>
        pose proof (subscribeTicker_quiet s now x) as H;
        destruct (subscribeTicker s now x) as [m1 e]
    end.
    exact H.
Qed.

Lemma onClose_quiet cl now m : price_updates (snd (onClose cl now m)) = [].
Proof.
  unfold onClose. destruct (stale cl m); [reflexivity|].
  apply handleReconnect_quiet.
Qed.

Lemma connectionTimeoutFired_quiet cl m :
  price_updates (snd (connectionTimeoutFired cl m)) = [].
Proof.
  unfold connectionTimeoutFired. cbv zeta.
  destruct (ws _) as [s|]; [|reflexivity].
  destruct (ReadyState_eqb _ _); [reflexivity|].
  match goal with
  | |- context [handleReconnect ?x] =>
      pose proof (handleReconnect_quiet x) as H;
      destruct (handleReconnect x) as [m1 e]
  end.
  exact H.
Qed.

(** What a message hands on: nothing, or one price object that carries the
    message's payload as [raw]. *)
Lemma processMessage_updates message recv now m :
  price_updates (snd (fst (processMessage message recv now m))) = []
  \/ exists d info,
       msg_data message = Parsed d
       /\ price_updates (snd (fst (processMessage message recv now m))) = [info]
       /\ pi_raw info = Some d.
Proof.
  unfold processMessage.
  destruct (msg_data message) as [| |d]; try (left; reflexivity).
  repeat match goal with
         | |- context [match ?x with _ => _ end] =>
             lazymatch x with
             | context [match _ with _ => _ end] => fail
             | _ => destruct x eqn:?
             end
         end;
    try (left; reflexivity);
    right; eexists; eexists; (split; [reflexivity|]); split; reflexivity.
Qed.

Lemma onMessage_updates cl fr recv now m :
  price_updates (snd (onMessage cl fr recv now m)) = []
  \/ exists message d info,
       fr = Some message /\ msg_data message = Parsed d
       /\ price_updates (snd (onMessage cl fr recv now m)) = [info]
       /\ pi_raw info = Some d.
Proof.
  unfold onMessage. destruct (stale cl m); [left; reflexivity|].
  destruct fr as [message|]; [|left; reflexivity].
  pose proof (processMessage_updates message recv now m) as H.
  destruct (processMessage message recv now m) as [[m1 effs] completed].
  cbn [fst snd] in H.
  assert (Hsame : price_updates
                    (snd (if completed then (m1, effs ++ [OnMessage message])
                          else (m1, effs)))
                  = price_updates effs).
  { destruct completed; cbn [snd]; [|reflexivity].
    rewrite price_updates_app. cbn. apply app_nil_r. }
  rewrite Hsame.
  destruct H as [H | (d & info & Hd & Hu & Hr)]; [left; assumption|].
  right. exists message, d, info. auto.
Qed.

Lemma step_updates now ev m :
  price_updates (snd (step now ev m)) = []
  \/ exists cl message recv d info,
       ev = SocketMessage cl (Some message) recv
       /\ msg_data message = Parsed d
       /\ price_updates (snd (step now ev m)) = [info]
       /\ pi_raw info = Some d.
Proof.
  destruct ev as [cl|cl fr recv|cl|cl| |cl|ok sym|ok sym|ok|ok| |ok sym| | | |];
    cbn [step].
  - left. apply onOpen_quiet.
  - destruct (onMessage_updates cl fr recv now m)
      as [H | (message & d & info & Hf & Hd & Hu & Hr)]; [left; assumption|].
    right. exists cl, message, recv, d, info. subst fr. auto.
  - left. apply onClose_quiet.
  - left. unfold onError. destruct (stale cl m); reflexivity.
  - left. reflexivity.
  - left. apply connectionTimeoutFired_quiet.
  - left. unfold reconnectTimerFired. cbv zeta.
    destruct (isConnected _ _); [reflexivity|].
    apply setupPriceWebSocket_quiet.
  - left. unfold setupRetryTimerFired.
    destruct (pendingConnection m); [apply setupPriceWebSocket_quiet | reflexivity].
  - left. unfold resetTimerFired. destruct (symbol m) as [s|]; [|reflexivity].
    destruct (String.eqb _ _); [reflexivity | apply setupPriceWebSocket_quiet].
  - left. apply heartbeatTick_quiet.
  - left. reflexivity.
  - left. apply setupPriceWebSocket_quiet.
  - left. reflexivity.
  - left. apply resetConnection_quiet.
  - left. apply closeWebSocket_quiet.
  - left. apply closeAllConnections_quiet.
Qed.

(** ** The monitor's dedup cache *)

Lemma In_has k t entries : In (k, t) entries -> has k entries = true.
Proof.
  induction entries as [|[k0 t0] rest IH]; intro H; [contradiction|].
  simpl. destruct H as [H | H].
  - injection H as -> ->. now rewrite String.eqb_refl.
  - rewrite (IH H). apply orb_true_r.
Qed.

(** What follows the dedup test leaves the cache and its capacity alone. *)
Lemma acceptPriceUpdate_cache price info clk mon :
  processedPriceEvents (fst (acceptPriceUpdate price info clk mon))
  = processedPriceEvents mon
  /\ maxProcessedEvents (fst (acceptPriceUpdate price info clk mon))
     = maxProcessedEvents mon.
Proof.
  unfold acceptPriceUpdate. cbv zeta.
  match goal with
  | |- context [if ?b then (_, []) else _] => destruct b
  end.
  - cbn [fst]. destruct mon; split; reflexivity.
  - cbn [fst]. destruct (Qle_bool _ 0); destruct mon; split; reflexivity.
Qed.

Lemma handleWebSocketPriceUpdate_cache info clk mon :
  let mon' := fst (handleWebSocketPriceUpdate info clk mon) in
  maxProcessedEvents mon' = maxProcessedEvents mon
  /\ (processedPriceEvents mon' = processedPriceEvents mon
      \/ exists id, processedPriceEvents mon'
                    = processedPriceEvents mon ++ [(id, atMark clk)]).
Proof.
  cbv zeta. unfold handleWebSocketPriceUpdate.
  destruct (pi_price info) as [price|]; [|cbn; auto].
  destruct (_ || _); [cbn; auto|].
  destruct (markPriceEvent info clk mon) as [mon1|] eqn:Hmark; [|cbn; auto].
  destruct (acceptPriceUpdate_cache price info clk mon1) as [Hc Hm].
  rewrite Hc, Hm. unfold markPriceEvent in Hmark.
  destruct (pi_raw info) as [d|].
  - destruct (eventId d (pi_symbol info)) as [id|].
    + destruct (has id (processedPriceEvents mon)); [discriminate|].
      injection Hmark as <-. split; [destruct mon; reflexivity|].
      right. exists id. destruct mon; reflexivity.
    + injection Hmark as <-. auto.
  - injection Hmark as <-. auto.
Qed.

(** A payload whose event is in the cache is not delivered and changes
    nothing. *)
Lemma handleWebSocketPriceUpdate_duplicate info clk mon d id :
  pi_raw info = Some d ->
  eventId d (pi_symbol info) = Some id ->
  has id (processedPriceEvents mon) = true ->
  handleWebSocketPriceUpdate info clk mon = (mon, []).
Proof.
  intros Hraw Hid Hhas. unfold handleWebSocketPriceUpdate, markPriceEvent.
  destruct (pi_price info) as [price|]; [|reflexivity].
  destruct (_ || _); [reflexivity|].
  now rewrite Hraw, Hid, Hhas.
Qed.

(** A delivered payload with an event identity has been entered. *)
Lemma handleWebSocketPriceUpdate_marks info clk mon d id :
  pi_raw info = Some d ->
  eventId d (pi_symbol info) = Some id ->
  snd (handleWebSocketPriceUpdate info clk mon) <> [] ->
  In (id, atMark clk)
     (processedPriceEvents (fst (handleWebSocketPriceUpdate info clk mon))).
Proof.
  intros Hraw Hid. unfold handleWebSocketPriceUpdate.
  destruct (pi_price info) as [price|]; [|now intros []].
  destruct (_ || _); [now intros []|].
  destruct (markPriceEvent info clk mon) as [mon1|] eqn:Hmark;
    [|now intros []].
  intros _. destruct (acceptPriceUpdate_cache price info clk mon1) as [Hc _].
  rewrite Hc. unfold markPriceEvent in Hmark. rewrite Hraw, Hid in Hmark.
  destruct (has id (processedPriceEvents mon)); [discriminate|].
  injection Hmark as <-.
  replace (processedPriceEvents
             (set_processedPriceEvents
                (processedPriceEvents mon ++ [(id, atMark clk)]) mon))
    with (processedPriceEvents mon ++ [(id, atMark clk)])
    by (destruct mon; reflexivity).
  apply in_or_app. right. now left.
Qed.

Lemma eventId_same d1 d2 sym1 sym2 :
  same_event d1 d2 ->
  exists id, eventId d1 sym1 = Some id /\ eventId d2 sym2 = Some id.
Proof.
  intros (He & Hs & HE & HEt & Hst). unfold eventId.
  rewrite <- He, <- Hs, <- HE.
  destruct (truthy_num (pd_E d1)) as [E|]; [|contradiction].
  unfold or_str at 2 4.
  destruct (truthy_str (pd_s d1)) as [s|]; [|contradiction].
  eexists. split; reflexivity.
Qed.

(** A sweep keeps an entry that is at most fifteen minutes old while the
    cache is within capacity. *)
Lemma eventCleanupTick_keeps now mon k t :
  In (k, t) (processedPriceEvents mon) ->
  now - t <= 15 * 60 * 1000 ->
  Z.of_nat (List.length (processedPriceEvents mon)) <= maxProcessedEvents mon ->
  let mon' := eventCleanupTick now mon in
  In (k, t) (processedPriceEvents mon')
  /\ (List.length (processedPriceEvents mon')
      <= List.length (processedPriceEvents mon))%nat
  /\ maxProcessedEvents mon' = maxProcessedEvents mon.
Proof.
  intros Hin Hage Hcap. unfold eventCleanupTick.
  destruct (processedPriceEvents mon) as [|e0 rest] eqn:Hc; [contradiction|].
  rewrite <- Hc in *. clear Hc e0 rest.
  set (live := filter (fun e => negb (now - snd e >? 15 * 60 * 1000))
                      (processedPriceEvents mon)).
  assert (Hlive : In (k, t) live).
  { apply filter_In. split; [assumption|]. cbn [snd].
    destruct (Z.gtb_spec (now - t) (15 * 60 * 1000)); [lia | reflexivity]. }
  assert (Hlen : (List.length live <= List.length (processedPriceEvents mon))%nat)
    by apply filter_length_le.
  destruct (Z.gtb_spec (Z.of_nat (List.length live)) (maxProcessedEvents mon));
    [lia|].
  cbv zeta. repeat split; destruct mon; assumption || reflexivity.
Qed.

Lemma forward_cache infos clk :
  forall mon,
    let mon' := fst (forward infos clk mon) in
    maxProcessedEvents mon' = maxProcessedEvents mon
    /\ (forall e, In e (processedPriceEvents mon) ->
                  In e (processedPriceEvents mon'))
    /\ (List.length (processedPriceEvents mon')
        <= List.length (processedPriceEvents mon) + List.length infos)%nat.
Proof.
  induction infos as [|i rest IH]; intro mon; cbv zeta.
  - cbn. repeat split; auto. lia.
  - cbn [forward].
    destruct (handleWebSocketPriceUpdate_cache i clk mon) as [Hm Hc].
    destruct (handleWebSocketPriceUpdate i clk mon) as [mon1 d1].
    cbn [fst] in Hm, Hc.
    specialize (IH mon1). cbv zeta in IH. destruct IH as (Hm2 & Hin2 & Hlen2).
    destruct (forward rest clk mon1) as [mon2 d2]. cbn [fst] in *.
    split; [congruence|]. split.
    + intros e He. apply Hin2. destruct Hc as [-> | [id ->]]; [assumption|].
      apply in_or_app. now left.
    + destruct Hc as [Hc | [id Hc]]; rewrite Hc in Hlen2;
        [|rewrite length_app in Hlen2]; simpl in *; lia.
Qed.

(** In-between events that leave an entry marked at time [t1] in the
    monitor's cache: any event of the connection manager, and sweeps of the
    monitor's cache up to fifteen minutes after [t1]. *)
Definition keeps_entry (t1 : Z) (te : Z * FeedEvent) : Prop :=
  match snd te with
  | Transport _ _ => True
  | EventCleanup => fst te - t1 <= 15 * 60 * 1000
  | ClearPriceData => False
  end.

Lemma feed_step_keeps now fe f k t1 n :
  keeps_entry t1 (now, fe) ->
  In (k, t1) (processedPriceEvents (monitor f)) ->
  Z.of_nat (List.length (processedPriceEvents (monitor f))) + Z.of_nat (S n)
  <= maxProcessedEvents (monitor f) ->
  let f' := fst (feed_step now fe f) in
  In (k, t1) (processedPriceEvents (monitor f'))
  /\ Z.of_nat (List.length (processedPriceEvents (monitor f'))) + Z.of_nat n
     <= maxProcessedEvents (monitor f')
  /\ maxProcessedEvents (monitor f') = maxProcessedEvents (monitor f).
Proof.
  intros Hk Hin Hcap. cbv zeta.
  destruct fe as [ev clk| |]; cbn [feed_step].
  - pose proof (step_updates now ev (manager f)) as Hupd.
    destruct (step now ev (manager f)) as [m effs]. cbn [snd] in Hupd.
    pose proof (forward_cache (price_updates effs) clk (monitor f)) as Hf.
    cbv zeta in Hf. destruct Hf as (Hm & Hkeep & Hlen).
    destruct (forward (price_updates effs) clk (monitor f)) as [mon ds].
    cbn [fst monitor] in *.
    assert (Hone : (List.length (price_updates effs) <= 1)%nat).
    { destruct Hupd as [-> | (? & ? & ? & ? & ? & _ & _ & -> & _)];
        simpl; lia. }
    split; [auto|]. split; [rewrite Hm; lia | assumption].
  - cbn in Hk.
    destruct (@eventCleanupTick_keeps now (monitor f) k t1 Hin Hk ltac:(lia))
      as (Hin' & Hlen & Hm).
    cbn [fst monitor]. split; [assumption|]. split; [rewrite Hm; lia | assumption].
  - contradiction.
Qed.

Lemma feed_run_keeps evs k t1 :
  forall f,
    Forall (keeps_entry t1) evs ->
    In (k, t1) (processedPriceEvents (monitor f)) ->
    Z.of_nat (List.length (processedPriceEvents (monitor f)))
    + Z.of_nat (List.length evs) <= maxProcessedEvents (monitor f) ->
    In (k, t1) (processedPriceEvents (monitor (fst (feed_run evs f)))).
Proof.
  induction evs as [|[now fe] rest IH]; intros f Hall Hin Hcap.
  - exact Hin.
  - inversion Hall as [|? ? Hk Hrest]; subst.
    cbn [feed_run].
    destruct (@feed_step_keeps now fe f k t1 (List.length rest) Hk Hin Hcap)
      as (Hin1 & Hcap1 & _).
    destruct (feed_step now fe f) as [f1 d1]. cbn [fst] in *.
    specialize (IH f1 Hrest Hin1 Hcap1).
    destruct (feed_run rest f1) as [f2 d2]. exact IH.
Qed.

(** ** Duplicates *)

(** C4, as the code has it. Of two stream messages with the same event
    type, symbol and server event time, at most one reaches the feed's
    subscriber, provided the event is still in the monitor's cache when the
    second arrives: between the two the cache is not cleared ([clearPriceData]
    on start and stop), is swept no later than fifteen minutes after the
    first was marked, and stays within its capacity. The connection manager
    may meanwhile do anything, reconnects and resets of its own cache
    included. *)
Theorem duplicate_event_delivered_once
        (f : Feed) (cl1 cl2 : Closure) (msg1 msg2 : Message)
        (d1 d2 : PriceData) (recv1 recv2 now1 now2 : Z) (clk1 clk2 : Clock)
        (evs : list (Z * FeedEvent)) :
  msg_data msg1 = Parsed d1 ->
  msg_data msg2 = Parsed d2 ->
  same_event d1 d2 ->
  Forall (keeps_entry (atMark clk1)) evs ->
  Z.of_nat (List.length (processedPriceEvents (monitor f))) + 1
  + Z.of_nat (List.length evs) <= maxProcessedEvents (monitor f) ->
  let first :=
    feed_step now1 (Transport (SocketMessage cl1 (Some msg1) recv1) clk1) f in
  let between := feed_run evs (fst first) in
  let second :=
    feed_step now2 (Transport (SocketMessage cl2 (Some msg2) recv2) clk2)
              (fst between) in
  snd first = [] \/ snd second = [].
Proof.
  intros Hd1 Hd2 Hsame Hevs Hcap first between second.
  destruct (snd first) as [|del dels] eqn:Hfirst; [now left|]. right.
  (* the first message was delivered, so it was marked *)
  assert (Hmarked : exists id,
             (forall sym, eventId d2 sym = Some id)
             /\ In (id, atMark clk1)
                   (processedPriceEvents (monitor (fst first)))
             /\ Z.of_nat (List.length
                            (processedPriceEvents (monitor (fst first))))
                + Z.of_nat (List.length evs)
                <= maxProcessedEvents (monitor (fst first))).
  { subst first. cbn [feed_step] in *.
    pose proof (step_updates now1 (SocketMessage cl1 (Some msg1) recv1)
                             (manager f)) as Hupd.
    destruct (step now1 (SocketMessage cl1 (Some msg1) recv1) (manager f))
      as [m effs].
    cbn [snd] in Hupd.
    destruct Hupd as [Hnone | (cl & message & recv & d & info & Hev & Hd & Hu & Hr)].
    - rewrite Hnone in Hfirst. cbn in Hfirst. discriminate.
    - injection Hev as _ <- _. rewrite Hd1 in Hd. injection Hd as <-.
      rewrite Hu in *. cbn [forward] in *.
      destruct (eventId_same (pi_symbol info) (pi_symbol info) Hsame)
        as (id & Hid1 & _).
      pose proof (@handleWebSocketPriceUpdate_marks info clk1 (monitor f)
                                                    d1 id Hr Hid1) as Hmark.
      pose proof (handleWebSocketPriceUpdate_cache info clk1 (monitor f))
        as Hcache.
      cbv zeta in Hcache.
      destruct (handleWebSocketPriceUpdate info clk1 (monitor f))
        as [mon1 ds1].
      cbn [fst snd monitor] in *.
      rewrite app_nil_r in Hfirst.
      exists id. split.
      + intro sym.
        destruct (eventId_same (pi_symbol info) sym Hsame)
          as (id' & Hid' & Hid2).
        congruence.
      + split; [apply Hmark; congruence|].
        destruct Hcache as [Hm [Hc | [id' Hc]]]; rewrite Hm, Hc;
          [|rewrite length_app]; simpl; lia. }
  destruct Hmarked as (id & Hid2 & Hin & Hcap1).
  pose proof (@feed_run_keeps evs id (atMark clk1) (fst first) Hevs Hin Hcap1)
    as Hin2.
  fold between in Hin2. subst second. cbn [feed_step].
  pose proof (step_updates now2 (SocketMessage cl2 (Some msg2) recv2)
                           (manager (fst between))) as Hupd.
  destruct (step now2 (SocketMessage cl2 (Some msg2) recv2)
                 (manager (fst between))) as [m effs].
  cbn [snd] in Hupd.
  destruct Hupd as [Hnone | (cl & message & recv & d & info & Hev & Hd & Hu & Hr)].
  - rewrite Hnone. reflexivity.
  - injection Hev as _ <- _. rewrite Hd2 in Hd. injection Hd as <-.
    rewrite Hu. cbn [forward].
    rewrite (@handleWebSocketPriceUpdate_duplicate info clk2
               (monitor (fst between)) d2 id Hr (Hid2 _) (In_has _ _ _ Hin2)).
    reflexivity.
Qed.

(** A ticker payload of the stream: event [ticker] for BTC_USDC_PERP with
    server event time [E] and last price [c]. *)
Definition ticker (E : Z) (c : Q) : PriceData :=
  mkPriceData (Some "ticker"%string) (Some BTC) (Some E) None None (Some c)
              None None false None.

Definition ticker_message (E : Z) (c : Q) : Message :=
  mkMessage (Parsed (ticker E c)) None None false None.

Definition lagging (t : Z) : Clock := mkClock (t + 100) (t + 100) (t + 100).

(** A feed whose first connection is open and subscribed. *)
Definition connected_feed : Feed :=
  fst (feed_run [ (0, Transport (CallSetup true BTC) (lagging 0));
                  (200, Transport (SocketOpen (mkClosure 1 BTC)) (lagging 200)) ]
                (mkFeed (initial 0) (cold BTC))).

Lemma duplicate_event_delivered_once_witness :
  let d := ticker 1700000000000000 100 in
  let msg := ticker_message 1700000000000000 100 in
  let evs := [ (2000, Transport (SocketClose (mkClosure 1 BTC)) (lagging 2000));
               (7000, Transport (ReconnectTimer true BTC) (lagging 7000));
               (7200, Transport (SocketOpen (mkClosure 2 BTC)) (lagging 7200));
               (600000, EventCleanup) ] in
  let first :=
    feed_step 1000 (Transport (SocketMessage (mkClosure 1 BTC) (Some msg) 1000)
                              (lagging 1000)) connected_feed in
  let between := feed_run evs (fst first) in
  let second :=
    feed_step 700000
              (Transport (SocketMessage (mkClosure 2 BTC) (Some msg) 700000)
                         (lagging 700000)) (fst between) in
  same_event d d
  /\ processedMessages (manager (fst between)) = []
  /\ (snd first = [] \/ snd second = []).
Proof.
  intros d msg evs first between second.
  assert (Hsame : same_event d d).
  { repeat split; discriminate. }
  assert (Hevs : Forall (keeps_entry (atMark (lagging 1000))) evs).
  { repeat constructor. cbn. lia. }
  assert (Hcap : Z.of_nat (List.length
                            (processedPriceEvents (monitor connected_feed)))
                 + 1 + Z.of_nat (List.length evs)
                 <= maxProcessedEvents (monitor connected_feed))
    by (vm_compute; discriminate).
  split; [exact Hsame|]. split; [reflexivity|].
  exact (@duplicate_event_delivered_once
           connected_feed (mkClosure 1 BTC) (mkClosure 2 BTC) msg msg d d
           1000 700000 1000 700000 (lagging 1000) (lagging 700000) evs
           eq_refl eq_refl Hsame Hevs Hcap).
Defined.

(** C4 as stated fails: the caches expire. The same ticker event arrives
    twice, seventeen minutes apart; in between both caches are swept, the
    manager's (ten-minute lifetime) and the monitor's (fifteen minutes).
    Both messages are delivered to the subscriber. *)
Lemma duplicate_event_delivered_twice :
  let msg := ticker_message 1700000000000000 100 in
  let cl := mkClosure 1 BTC in
  let run :=
    feed_run
      [ (1000, Transport (SocketMessage cl (Some msg) 1000) (lagging 1000));
        (1000000, Transport CleanupTick (lagging 1000000));
        (1000000, EventCleanup);
        (1020000, Transport (SocketMessage cl (Some msg) 1020000)
                            (lagging 1020000)) ]
      connected_feed in
  map (fun d => (d_symbol d, d_price d, d_source d, d_time d)) (snd run)
  = [ (BTC, 100%Q, Some "WebSocket"%string, 1100);
      (BTC, 100%Q, Some "WebSocket"%string, 1020100) ].
Proof. vm_compute. reflexivity. Qed.

End PriceMonitor.

(* ================================================================== *)
(** * TradingCycleController: [FuturesTradingApp] *)
(* ================================================================== *)

Module FuturesApp.

Local Open Scope Z_scope.

(** ** The exchange *)

Inductive Side : Type := LONG | SHORT.

(** One element of the array [getPositions] resolves to, with
    [netQuantity || netExposureQuantity || 0], [entryPrice || 0] and
    [pnlUnrealized || 0] already parsed. *)
Record Position : Type := mkPosition {
  netQuantity : Q;
  pos_entryPrice : Q;
  pnlUnrealized : Q
}.

(** How a call of [tradingService.getPositions()] can end. The service
    catches its own errors and resolves to [null]
    (src/services/backpackFuturesService.js, [getPositions]: "returns the
    array of positions, or null"); a rejection is modelled all the same. *)
Inductive PositionsReply : Type :=
| PositionsThrow
| PositionsNull
| PositionsArray (ps : list Position).

(** [getOpenOrders]: the number of open orders; [null] counts as none. *)
Inductive OpenOrdersReply : Type :=
| OpenOrdersThrow
| OpenOrders (n : nat).

Inductive CancelReply : Type :=
| CancelThrow
| CancelResult (truthy : bool).

(** [createFuturesOrder]: [insufficient] tells whether the error message
    contains "Insufficient" or "insufficient". *)
Inductive CreateReply : Type :=
| CreateThrow (insufficient : bool)
| CreateNull
| CreateOk.

Inductive TickerReply : Type :=
| TickerThrow
| Ticker (lastPrice : option Q).

(** The exchange as the controller sees it: the reply to the [n]-th call
    (from 0) of each service method. *)
Record Exchange : Type := mkExchange {
  getPositions : nat -> PositionsReply;
  getOpenOrders : nat -> OpenOrdersReply;
  cancelAllOrders : nat -> CancelReply;
  createFuturesOrder : nat -> CreateReply;
  getFuturesTicker : nat -> TickerReply
}.

Inductive OrderSide : Type := Buy | Sell.
Inductive OrderType : Type := Limit | Market.

(** The requests sent to the exchange. *)
Inductive Request : Type :=
| ReqGetPositions
| ReqGetOpenOrders
| ReqCancelAllOrders
| ReqCreateFuturesOrder (side : OrderSide) (type : OrderType) (quantity : Q)
                        (price : option Q)
| ReqGetFuturesTicker.

(** [Date.now()] and the requests sent so far, oldest first. *)
Record World : Type := mkWorld {
  clock : Z;
  requests : list Request
}.

(** ** The controller *)

(** [this.lastPositionClosedReason] *)
Inductive Reason : Type :=
| TakeProfitReached (profitPercentage : Q)
| OrdersNotFilled.

(** The configuration entries the cycle reads; an entry the file lacks is
    [None]. [cancelExistingOrdersOnStart] is a boolean once the constructor
    has run. *)
Record Config : Type := mkConfig {
  cancelExistingOrdersOnStart : bool;
  maxDropPercentage : option Q;
  totalAmount : option Q;
  orderCount : option nat;
  incrementPercentage : option Q;
  minQuantity : option Q;
  advancedMinOrderAmount : option Q;
  futuresTakeProfitPercentage : Q;
  noFillRestartMinutes : option Q
}.

(** The fields of a [FuturesTradingApp] the cycle reads or writes.
    [monitorCurrentPrice] and [monitorLastUpdateTime] are the price monitor's
    [currentPrice] and [lastUpdateTime], [wsLastPrice] is
    [wsManager.lastPriceData.price]; [loopLastPositionCheckTime] and
    [monitoringAttempts] are the variables the monitoring callback closes
    over. *)
Record App : Type := mkApp {
  config : Config;
  running : bool;
  positionSide : Side;
  leverage : Q;
  stopLossPercentage : Q;
  takeProfitPercentage : Q;
  hasOpenPosition : bool;
  positionAmount : Q;
  entryPrice : Q;
  unrealizedPnl : Q;
  stopLossPrice : Q;
  takeProfitPrice : Q;
  takeProfitTriggered : bool;
  lastPositionClosedReason : option Reason;
  canFetchPositions : bool;
  lastPositionCheckTime : Z;
  monitoringInterval : bool;
  currentPriceInfo : option Q;
  monitorCurrentPrice : Q;
  monitorLastUpdateTime : option Z;
  wsLastPrice : option Q;
  loopLastPositionCheckTime : Z;
  monitoringAttempts : Z
}.

Definition set_config (v : Config) (x : App) : App :=
  mkApp v (running x) (positionSide x) (leverage x) (stopLossPercentage x) (takeProfitPercentage x) (hasOpenPosition x) (positionAmount x) (entryPrice x) (unrealizedPnl x) (stopLossPrice x) (takeProfitPrice x) (takeProfitTriggered x) (lastPositionClosedReason x) (canFetchPositions x) (lastPositionCheckTime x) (monitoringInterval x) (currentPriceInfo x) (monitorCurrentPrice x) (monitorLastUpdateTime x) (wsLastPrice x) (loopLastPositionCheckTime x) (monitoringAttempts x).

Definition set_running (v : bool) (x : App) : App :=
  mkApp (config x) v (positionSide x) (leverage x) (stopLossPercentage x) (takeProfitPercentage x) (hasOpenPosition x) (positionAmount x) (entryPrice x) (unrealizedPnl x) (stopLossPrice x) (takeProfitPrice x) (takeProfitTriggered x) (lastPositionClosedReason x) (canFetchPositions x) (lastPositionCheckTime x) (monitoringInterval x) (currentPriceInfo x) (monitorCurrentPrice x) (monitorLastUpdateTime x) (wsLastPrice x) (loopLastPositionCheckTime x) (monitoringAttempts x).

Definition set_positionSide (v : Side) (x : App) : App :=
  mkApp (config x) (running x) v (leverage x) (stopLossPercentage x) (takeProfitPercentage x) (hasOpenPosition x) (positionAmount x) (entryPrice x) (unrealizedPnl x) (stopLossPrice x) (takeProfitPrice x) (takeProfitTriggered x) (lastPositionClosedReason x) (canFetchPositions x) (lastPositionCheckTime x) (monitoringInterval x) (currentPriceInfo x) (monitorCurrentPrice x) (monitorLastUpdateTime x) (wsLastPrice x) (loopLastPositionCheckTime x) (monitoringAttempts x).

Definition set_leverage (v : Q) (x : App) : App :=
  mkApp (config x) (running x) (positionSide x) v (stopLossPercentage x) (takeProfitPercentage x) (hasOpenPosition x) (positionAmount x) (entryPrice x) (unrealizedPnl x) (stopLossPrice x) (takeProfitPrice x) (takeProfitTriggered x) (lastPositionClosedReason x) (canFetchPositions x) (lastPositionCheckTime x) (monitoringInterval x) (currentPriceInfo x) (monitorCurrentPrice x) (monitorLastUpdateTime x) (wsLastPrice x) (loopLastPositionCheckTime x) (monitoringAttempts x).

Definition set_stopLossPercentage (v : Q) (x : App) : App :=
  mkApp (config x) (running x) (positionSide x) (leverage x) v (takeProfitPercentage x) (hasOpenPosition x) (positionAmount x) (entryPrice x) (unrealizedPnl x) (stopLossPrice x) (takeProfitPrice x) (takeProfitTriggered x) (lastPositionClosedReason x) (canFetchPositions x) (lastPositionCheckTime x) (monitoringInterval x) (currentPriceInfo x) (monitorCurrentPrice x) (monitorLastUpdateTime x) (wsLastPrice x) (loopLastPositionCheckTime x) (monitoringAttempts x).

Definition set_takeProfitPercentage (v : Q) (x : App) : App :=
  mkApp (config x) (running x) (positionSide x) (leverage x) (stopLossPercentage x) v (hasOpenPosition x) (positionAmount x) (entryPrice x) (unrealizedPnl x) (stopLossPrice x) (takeProfitPrice x) (takeProfitTriggered x) (lastPositionClosedReason x) (canFetchPositions x) (lastPositionCheckTime x) (monitoringInterval x) (currentPriceInfo x) (monitorCurrentPrice x) (monitorLastUpdateTime x) (wsLastPrice x) (loopLastPositionCheckTime x) (monitoringAttempts x).

Definition set_hasOpenPosition (v : bool) (x : App) : App :=
  mkApp (config x) (running x) (positionSide x) (leverage x) (stopLossPercentage x) (takeProfitPercentage x) v (positionAmount x) (entryPrice x) (unrealizedPnl x) (stopLossPrice x) (takeProfitPrice x) (takeProfitTriggered x) (lastPositionClosedReason x) (canFetchPositions x) (lastPositionCheckTime x) (monitoringInterval x) (currentPriceInfo x) (monitorCurrentPrice x) (monitorLastUpdateTime x) (wsLastPrice x) (loopLastPositionCheckTime x) (monitoringAttempts x).

Definition set_positionAmount (v : Q) (x : App) : App :=
  mkApp (config x) (running x) (positionSide x) (leverage x) (stopLossPercentage x) (takeProfitPercentage x) (hasOpenPosition x) v (entryPrice x) (unrealizedPnl x) (stopLossPrice x) (takeProfitPrice x) (takeProfitTriggered x) (lastPositionClosedReason x) (canFetchPositions x) (lastPositionCheckTime x) (monitoringInterval x) (currentPriceInfo x) (monitorCurrentPrice x) (monitorLastUpdateTime x) (wsLastPrice x) (loopLastPositionCheckTime x) (monitoringAttempts x).

Definition set_entryPrice (v : Q) (x : App) : App :=
  mkApp (config x) (running x) (positionSide x) (leverage x) (stopLossPercentage x) (takeProfitPercentage x) (hasOpenPosition x) (positionAmount x) v (unrealizedPnl x) (stopLossPrice x) (takeProfitPrice x) (takeProfitTriggered x) (lastPositionClosedReason x) (canFetchPositions x) (lastPositionCheckTime x) (monitoringInterval x) (currentPriceInfo x) (monitorCurrentPrice x) (monitorLastUpdateTime x) (wsLastPrice x) (loopLastPositionCheckTime x) (monitoringAttempts x).

Definition set_unrealizedPnl (v : Q) (x : App) : App :=
  mkApp (config x) (running x) (positionSide x) (leverage x) (stopLossPercentage x) (takeProfitPercentage x) (hasOpenPosition x) (positionAmount x) (entryPrice x) v (stopLossPrice x) (takeProfitPrice x) (takeProfitTriggered x) (lastPositionClosedReason x) (canFetchPositions x) (lastPositionCheckTime x) (monitoringInterval x) (currentPriceInfo x) (monitorCurrentPrice x) (monitorLastUpdateTime x) (wsLastPrice x) (loopLastPositionCheckTime x) (monitoringAttempts x).

Definition set_stopLossPrice (v : Q) (x : App) : App :=
  mkApp (config x) (running x) (positionSide x) (leverage x) (stopLossPercentage x) (takeProfitPercentage x) (hasOpenPosition x) (positionAmount x) (entryPrice x) (unrealizedPnl x) v (takeProfitPrice x) (takeProfitTriggered x) (lastPositionClosedReason x) (canFetchPositions x) (lastPositionCheckTime x) (monitoringInterval x) (currentPriceInfo x) (monitorCurrentPrice x) (monitorLastUpdateTime x) (wsLastPrice x) (loopLastPositionCheckTime x) (monitoringAttempts x).

Definition set_takeProfitPrice (v : Q) (x : App) : App :=
  mkApp (config x) (running x) (positionSide x) (leverage x) (stopLossPercentage x) (takeProfitPercentage x) (hasOpenPosition x) (positionAmount x) (entryPrice x) (unrealizedPnl x) (stopLossPrice x) v (takeProfitTriggered x) (lastPositionClosedReason x) (canFetchPositions x) (lastPositionCheckTime x) (monitoringInterval x) (currentPriceInfo x) (monitorCurrentPrice x) (monitorLastUpdateTime x) (wsLastPrice x) (loopLastPositionCheckTime x) (monitoringAttempts x).

Definition set_takeProfitTriggered (v : bool) (x : App) : App :=
  mkApp (config x) (running x) (positionSide x) (leverage x) (stopLossPercentage x) (takeProfitPercentage x) (hasOpenPosition x) (positionAmount x) (entryPrice x) (unrealizedPnl x) (stopLossPrice x) (takeProfitPrice x) v (lastPositionClosedReason x) (canFetchPositions x) (lastPositionCheckTime x) (monitoringInterval x) (currentPriceInfo x) (monitorCurrentPrice x) (monitorLastUpdateTime x) (wsLastPrice x) (loopLastPositionCheckTime x) (monitoringAttempts x).

Definition set_lastPositionClosedReason (v : option Reason) (x : App) : App :=
  mkApp (config x) (running x) (positionSide x) (leverage x) (stopLossPercentage x) (takeProfitPercentage x) (hasOpenPosition x) (positionAmount x) (entryPrice x) (unrealizedPnl x) (stopLossPrice x) (takeProfitPrice x) (takeProfitTriggered x) v (canFetchPositions x) (lastPositionCheckTime x) (monitoringInterval x) (currentPriceInfo x) (monitorCurrentPrice x) (monitorLastUpdateTime x) (wsLastPrice x) (loopLastPositionCheckTime x) (monitoringAttempts x).

Definition set_canFetchPositions (v : bool) (x : App) : App :=
  mkApp (config x) (running x) (positionSide x) (leverage x) (stopLossPercentage x) (takeProfitPercentage x) (hasOpenPosition x) (positionAmount x) (entryPrice x) (unrealizedPnl x) (stopLossPrice x) (takeProfitPrice x) (takeProfitTriggered x) (lastPositionClosedReason x) v (lastPositionCheckTime x) (monitoringInterval x) (currentPriceInfo x) (monitorCurrentPrice x) (monitorLastUpdateTime x) (wsLastPrice x) (loopLastPositionCheckTime x) (monitoringAttempts x).

Definition set_lastPositionCheckTime (v : Z) (x : App) : App :=
  mkApp (config x) (running x) (positionSide x) (leverage x) (stopLossPercentage x) (takeProfitPercentage x) (hasOpenPosition x) (positionAmount x) (entryPrice x) (unrealizedPnl x) (stopLossPrice x) (takeProfitPrice x) (takeProfitTriggered x) (lastPositionClosedReason x) (canFetchPositions x) v (monitoringInterval x) (currentPriceInfo x) (monitorCurrentPrice x) (monitorLastUpdateTime x) (wsLastPrice x) (loopLastPositionCheckTime x) (monitoringAttempts x).

Definition set_monitoringInterval (v : bool) (x : App) : App :=
  mkApp (config x) (running x) (positionSide x) (leverage x) (stopLossPercentage x) (takeProfitPercentage x) (hasOpenPosition x) (positionAmount x) (entryPrice x) (unrealizedPnl x) (stopLossPrice x) (takeProfitPrice x) (takeProfitTriggered x) (lastPositionClosedReason x) (canFetchPositions x) (lastPositionCheckTime x) v (currentPriceInfo x) (monitorCurrentPrice x) (monitorLastUpdateTime x) (wsLastPrice x) (loopLastPositionCheckTime x) (monitoringAttempts x).

Definition set_currentPriceInfo (v : option Q) (x : App) : App :=
  mkApp (config x) (running x) (positionSide x) (leverage x) (stopLossPercentage x) (takeProfitPercentage x) (hasOpenPosition x) (positionAmount x) (entryPrice x) (unrealizedPnl x) (stopLossPrice x) (takeProfitPrice x) (takeProfitTriggered x) (lastPositionClosedReason x) (canFetchPositions x) (lastPositionCheckTime x) (monitoringInterval x) v (monitorCurrentPrice x) (monitorLastUpdateTime x) (wsLastPrice x) (loopLastPositionCheckTime x) (monitoringAttempts x).

Definition set_monitorCurrentPrice (v : Q) (x : App) : App :=
  mkApp (config x) (running x) (positionSide x) (leverage x) (stopLossPercentage x) (takeProfitPercentage x) (hasOpenPosition x) (positionAmount x) (entryPrice x) (unrealizedPnl x) (stopLossPrice x) (takeProfitPrice x) (takeProfitTriggered x) (lastPositionClosedReason x) (canFetchPositions x) (lastPositionCheckTime x) (monitoringInterval x) (currentPriceInfo x) v (monitorLastUpdateTime x) (wsLastPrice x) (loopLastPositionCheckTime x) (monitoringAttempts x).

Definition set_monitorLastUpdateTime (v : option Z) (x : App) : App :=
  mkApp (config x) (running x) (positionSide x) (leverage x) (stopLossPercentage x) (takeProfitPercentage x) (hasOpenPosition x) (positionAmount x) (entryPrice x) (unrealizedPnl x) (stopLossPrice x) (takeProfitPrice x) (takeProfitTriggered x) (lastPositionClosedReason x) (canFetchPositions x) (lastPositionCheckTime x) (monitoringInterval x) (currentPriceInfo x) (monitorCurrentPrice x) v (wsLastPrice x) (loopLastPositionCheckTime x) (monitoringAttempts x).

Definition set_wsLastPrice (v : option Q) (x : App) : App :=
  mkApp (config x) (running x) (positionSide x) (leverage x) (stopLossPercentage x) (takeProfitPercentage x) (hasOpenPosition x) (positionAmount x) (entryPrice x) (unrealizedPnl x) (stopLossPrice x) (takeProfitPrice x) (takeProfitTriggered x) (lastPositionClosedReason x) (canFetchPositions x) (lastPositionCheckTime x) (monitoringInterval x) (currentPriceInfo x) (monitorCurrentPrice x) (monitorLastUpdateTime x) v (loopLastPositionCheckTime x) (monitoringAttempts x).

Definition set_loopLastPositionCheckTime (v : Z) (x : App) : App :=
  mkApp (config x) (running x) (positionSide x) (leverage x) (stopLossPercentage x) (takeProfitPercentage x) (hasOpenPosition x) (positionAmount x) (entryPrice x) (unrealizedPnl x) (stopLossPrice x) (takeProfitPrice x) (takeProfitTriggered x) (lastPositionClosedReason x) (canFetchPositions x) (lastPositionCheckTime x) (monitoringInterval x) (currentPriceInfo x) (monitorCurrentPrice x) (monitorLastUpdateTime x) (wsLastPrice x) v (monitoringAttempts x).

Definition set_monitoringAttempts (v : Z) (x : App) : App :=
  mkApp (config x) (running x) (positionSide x) (leverage x) (stopLossPercentage x) (takeProfitPercentage x) (hasOpenPosition x) (positionAmount x) (entryPrice x) (unrealizedPnl x) (stopLossPrice x) (takeProfitPrice x) (takeProfitTriggered x) (lastPositionClosedReason x) (canFetchPositions x) (lastPositionCheckTime x) (monitoringInterval x) (currentPriceInfo x) (monitorCurrentPrice x) (monitorLastUpdateTime x) (wsLastPrice x) (loopLastPositionCheckTime x) v.

(** ** Effects *)

Definition State : Type := (App * World)%type.

(** A computation of the controller: it reads and writes the controller's
    fields, reads the clock and talks to the exchange. *)
Definition M (A : Type) : Type := State -> A * State.

Definition ret (A : Type) (a : A) : M A := fun s => (a, s).

Definition bind (A B : Type) (c : M A) (k : A -> M B) : M B :=
  fun s => let '(a, s1) := c s in k a s1.

Notation "x <- c ;; k" := (bind c (fun x => k))
  (at level 61, c at next level, right associativity).
Notation "c ;;; k" := (bind c (fun _ => k))
  (at level 61, right associativity).

Definition get : M App := fun s => (fst s, s).
Definition modify (f : App -> App) : M unit := fun s => (tt, (f (fst s), snd s)).
Definition now : M Z := fun s => (clock (snd s), s).

(** [await new Promise(resolve => setTimeout(resolve, ms))] *)
Definition sleep (ms : Z) : M unit :=
  fun s => (tt, (fst s, mkWorld (clock (snd s) + ms) (requests (snd s)))).

Definition same_kind (a b : Request) : bool :=
  match a, b with
  | ReqGetPositions, ReqGetPositions
  | ReqGetOpenOrders, ReqGetOpenOrders
  | ReqCancelAllOrders, ReqCancelAllOrders
  | ReqCreateFuturesOrder _ _ _ _, ReqCreateFuturesOrder _ _ _ _
  | ReqGetFuturesTicker, ReqGetFuturesTicker => true
  | _, _ => false
  end.

(** A request goes out and the exchange's reply for that call comes back. *)
Definition call (A : Type) (r : Request) (reply : nat -> A) : M A :=
  fun s =>
    let n := List.length (filter (same_kind r) (requests (snd s))) in
    (reply n, (fst s, mkWorld (clock (snd s)) (requests (snd s) ++ [r]))).

Section Controller.

Variable exchange : Exchange.

(** [this.tradingStrategy.calculateIncrementalOrders(currentPrice,
    maxDropPercentage, leveragedTotalAmount, orderCount, incrementPercentage,
    minOrderAmount, tradingCoin, this.symbol)]: the base class
    [TradingStrategy] (src/core/tradingStrategy.js) is not part of the
    sources. *)
Variable calculateIncrementalOrders :
  Q -> Q -> Q -> nat -> Q -> Q -> list Planner.Order.

Definition truthy_Q (x : option Q) : option Q :=
  match x with
  | Some v => if Qeq_bool v 0 then None else Some v
  | None => None
  end.

Definition or_default_nat (x : option nat) (d : nat) : nat :=
  match x with
  | Some O | None => d
  | Some n => n
  end.

Definition Qabs_ (x : Q) : Q := if Qle_bool 0 x then x else (- x)%Q.

(** [displayAccountInfo()], as far as it writes [this.currentPriceInfo]. *)
Definition displayAccountInfo : M unit :=
  modify (fun a =>
    match truthy_Q (currentPriceInfo a) with
    | Some _ => a
    | None =>
        if negb (Qle_bool (monitorCurrentPrice a) 0)
        then set_currentPriceInfo (Some (monitorCurrentPrice a)) a
        else
          match wsLastPrice a with
          | Some p =>
              if negb (Qle_bool p 0) then set_currentPriceInfo (Some p) a
              else a
          | None => a
          end
    end).

(** [getMarketPrice()]; [null] is [None]. The fallback [super.getPriceInfo()]
    names a method [TradingApp] does not have: the call throws and is
    caught. *)
Definition getMarketPrice : M (option Q) :=
  a <- get ;;
  match truthy_Q (currentPriceInfo a) with
  | Some p => ret (Some p)
  | None =>
      reply <- call ReqGetFuturesTicker (getFuturesTicker exchange) ;;
      match reply with
      | Ticker lastPrice =>
          match truthy_Q lastPrice with
          | Some p => ret (Some p)
          | None => ret None
          end
      | TickerThrow => ret None
      end
  end.

(** [getPositionInfo()] *)
Definition getPositionInfo : M unit :=
  reply <- call ReqGetPositions (getPositions exchange) ;;
  match reply with
  | PositionsThrow => modify (set_canFetchPositions false)
  | PositionsArray (position :: _) =>
      modify (fun a =>
        let a := set_canFetchPositions true a in
        let a := set_hasOpenPosition true a in
        let a := set_positionAmount (netQuantity position) a in
        let a := set_entryPrice (pos_entryPrice position) a in
        let a := set_unrealizedPnl (pnlUnrealized position) a in
        set_positionSide
          (if negb (Qle_bool (positionAmount a) 0) then LONG else SHORT) a)
  | PositionsArray [] | PositionsNull =>
      modify (fun a =>
        let a := set_canFetchPositions true a in
        let a := set_hasOpenPosition false a in
        let a := set_positionAmount 0%Q a in
        let a := set_entryPrice 0%Q a in
        set_unrealizedPnl 0%Q a)
  end.

(** [cancelOpenOrders()]: the value it resolves to, as a truth value. *)
Definition cancelOpenOrders : M bool :=
  openOrders <- call ReqGetOpenOrders (getOpenOrders exchange) ;;
  match openOrders with
  | OpenOrdersThrow => ret false
  | OpenOrders O => ret true
  | OpenOrders (S _) =>
      result <- call ReqCancelAllOrders (cancelAllOrders exchange) ;;
      match result with
      | CancelThrow => ret false
      | CancelResult truthy =>
          sleep 2000 ;;;
          remaining <- call ReqGetOpenOrders (getOpenOrders exchange) ;;
          match remaining with
          | OpenOrdersThrow => ret false
          | OpenOrders _ => ret truthy
          end
      end
  end.

(** [setPositionProtection(currentPrice)] *)
Definition setPositionProtection : M unit :=
  modify (fun a =>
    if negb (hasOpenPosition a) || Qle_bool (Qabs_ (positionAmount a)) 0
    then a
    else
      let stopLoss :=
        if Qeq_bool (stopLossPercentage a) 0 then 3%Q
        else stopLossPercentage a in
      let takeProfit :=
        if Qeq_bool (takeProfitPercentage a) 0 then (1 # 2)%Q
        else takeProfitPercentage a in
      let a :=
        set_stopLossPrice
          (match positionSide a with
           | LONG => entryPrice a * (1 - stopLoss / 100)
           | SHORT => entryPrice a * (1 + stopLoss / 100)
           end)%Q a in
      set_takeProfitPrice
        (match positionSide a with
         | LONG => entryPrice a * (1 + takeProfit / 100)
         | SHORT => entryPrice a * (1 - takeProfit / 100)
         end)%Q a).

(** [closePosition()]: the market order that flattens the position. *)
Definition closePosition : M bool :=
  a <- get ;;
  if negb (hasOpenPosition a) then ret false
  else
    let side := match positionSide a with LONG => Sell | SHORT => Buy end in
    reply <- call (ReqCreateFuturesOrder side Market
                                         (Qabs_ (positionAmount a)) None)
                  (createFuturesOrder exchange) ;;
    match reply with
    | CreateOk => ret true
    | CreateNull | CreateThrow _ => ret false
    end.

(** The loop of [executeTrade] that submits the rungs one by one. *)
Fixpoint placeOrders (orders : list Planner.Order)
         (successCount failedCount : nat) : M (nat * nat) :=
  match orders with
  | [] => ret (successCount, failedCount)
  | order :: rest =>
      reply <- call (ReqCreateFuturesOrder Buy Limit (Planner.quantity order)
                                           (Some (Planner.price order)))
                    (createFuturesOrder exchange) ;;
      match reply with
      | CreateOk =>
          sleep 1000 ;;; placeOrders rest (S successCount) failedCount
      | CreateNull =>
          sleep 1000 ;;; placeOrders rest successCount (S failedCount)
      | CreateThrow insufficient =>
          if insufficient then ret (successCount, S failedCount)
          else placeOrders rest successCount (S failedCount)
      end
  end.

(** [startTakeProfitMonitoring()]: installs the monitoring interval. *)
Definition startTakeProfitMonitoring : M bool :=
  a <- get ;;
  if negb (running a) then ret false
  else
    displayAccountInfo ;;;
    t <- now ;;
    modify (fun a =>
      let a := set_monitoringAttempts 0 a in
      let a := set_takeProfitTriggered false a in
      let a := set_loopLastPositionCheckTime t a in
      set_monitoringInterval true a) ;;;
    ret true.

(** The part of [executeTrade] after the position checks: existing orders,
    the ladder, the submissions. *)
Definition placeLadder (currentPrice : Q) : M unit :=
  existingOrders <- call ReqGetOpenOrders (getOpenOrders exchange) ;;
  match existingOrders with
  | OpenOrdersThrow => ret tt
  | OpenOrders n =>
      a <- get ;;
      let hasExistingOrders := (0 <? n)%nat in
      let shouldCancelExistingOrders :=
        cancelExistingOrdersOnStart (config a) in
      if hasExistingOrders && negb shouldCancelExistingOrders then ret tt
      else
        (if hasExistingOrders then cancelOpenOrders ;;; ret tt else ret tt) ;;;
        modify (fun a =>
          if cancelExistingOrdersOnStart (config a) && hasExistingOrders
          then a
          else set_lastPositionClosedReason None a) ;;;
        a <- get ;;
        let cfg := config a in
        let maxDrop := TrailingStop.or_default (maxDropPercentage cfg) 3 in
        let total := TrailingStop.or_default (totalAmount cfg) 200 in
        let count := or_default_nat (orderCount cfg) 3 in
        let increment := TrailingStop.or_default (incrementPercentage cfg) 50 in
        let minQty := TrailingStop.or_default (minQuantity cfg) (1 # 100000) in
        let minOrderAmount :=
          Planner.Math_max
            (TrailingStop.or_default (advancedMinOrderAmount cfg) 10)
            (currentPrice * minQty)%Q in
        let leveragedTotalAmount := (total * leverage a)%Q in
        let orders :=
          calculateIncrementalOrders currentPrice maxDrop leveragedTotalAmount
                                     count increment minOrderAmount in
        match orders with
        | [] => ret tt
        | _ =>
            counts <- placeOrders orders 0 0 ;;
            if (0 <? fst counts)%nat then
              t <- now ;;
              modify (set_lastPositionCheckTime t) ;;;
              a <- get ;;
              if negb (monitoringInterval a)
              then startTakeProfitMonitoring ;;; ret tt
              else ret tt
            else ret tt
        end
  end.

(** [executeTrade()] once the position query has been made: the risk
    control, then the branch on [hasOpenPosition]. *)
Definition afterPositionQuery (currentPrice : Q) : M unit :=
  a <- get ;;
  if negb (canFetchPositions a) then ret tt
  else if hasOpenPosition a then
    (if Qeq_bool (stopLossPrice a) 0 || Qeq_bool (takeProfitPrice a) 0
     then setPositionProtection
     else ret tt)
  else placeLadder currentPrice.

(** [executeTrade()] once a price is known: the age of the price data, then
    the position query. *)
Definition tradeAt (currentPrice : Q) : M unit :=
  a <- get ;;
  t <- now ;;
  let fresh :=
    match WsManager.truthy_num (monitorLastUpdateTime a) with
    | Some last => negb (t - last >? 60000)
    | None => false
    end in
  if negb fresh then ret tt
  else getPositionInfo ;;; afterPositionQuery currentPrice.

(** [executeTrade()] *)
Definition executeTrade : M unit :=
  currentPrice <- getMarketPrice ;;
  match currentPrice with
  | None => ret tt
  | Some currentPrice => tradeAt currentPrice
  end.

(** [tradingStrategy.calculateProfitPercentage(currentPrice, entryPrice,
    isLong)] (src/core/futuresTradingStrategy.js). *)
Definition calculateProfitPercentage (currentPrice entryPrice : Q)
           (isLong : bool) : Q :=
  if Qeq_bool currentPrice 0 || Qle_bool entryPrice 0 then 0%Q
  else if isLong
       then (((currentPrice - entryPrice) / entryPrice) * 100)%Q
       else (((entryPrice - currentPrice) / entryPrice) * 100)%Q.

(** One run of the callback of the monitoring interval set up by
    [startTakeProfitMonitoring]. *)
Definition monitoringTick : M unit :=
  modify (fun a => set_monitoringAttempts (monitoringAttempts a + 1) a) ;;;
  displayAccountInfo ;;;
  getPositionInfo ;;;
  a <- get ;;
  if hasOpenPosition a && negb (takeProfitTriggered a) then
    t <- now ;;
    modify (set_loopLastPositionCheckTime t) ;;;
    currentPrice <- getMarketPrice ;;
    match currentPrice with
    | None => ret tt
    | Some currentPrice =>
        a <- get ;;
        let profitPercentage :=
          calculateProfitPercentage
            currentPrice (entryPrice a)
            (match positionSide a with LONG => true | SHORT => false end) in
        let takeProfitReached :=
          Qle_bool (futuresTakeProfitPercentage (config a)) profitPercentage in
        if takeProfitReached then
          modify (fun a =>
            set_lastPositionClosedReason
              (Some (TakeProfitReached profitPercentage))
              (set_takeProfitTriggered true a)) ;;;
          closePosition ;;;
          cancelOpenOrders ;;;
          modify (fun a =>
            let a := set_takeProfitTriggered false a in
            let a := set_hasOpenPosition false a in
            let a := set_positionAmount 0%Q a in
            let a := set_entryPrice 0%Q a in
            set_unrealizedPnl 0%Q a) ;;;
          sleep 2000 ;;;
          remainingOrders <- call ReqGetOpenOrders (getOpenOrders exchange) ;;
          match remainingOrders with
          | OpenOrdersThrow => ret tt
          | OpenOrders (S _) => ret tt
          | OpenOrders O => executeTrade
          end
        else ret tt
    end
  else
    currentTime <- now ;;
    let noFillRestartMinutes :=
      Planner.Math_max
        1 (TrailingStop.or_default (noFillRestartMinutes (config a)) 30) in
    let noFillIntervalMs := (noFillRestartMinutes * 60 * 1000)%Q in
    if negb (Qle_bool (inject_Z (currentTime - loopLastPositionCheckTime a))
                      noFillIntervalMs)
    then
      modify (set_loopLastPositionCheckTime currentTime) ;;;
      a <- get ;;
      if negb (canFetchPositions a) then ret tt
      else
        getPositionInfo ;;;
        a <- get ;;
        if hasOpenPosition a then ret tt
        else
          modify (set_lastPositionClosedReason (Some OrdersNotFilled)) ;;;
          cancelResult <- cancelOpenOrders ;;
          if cancelResult then
            sleep 2000 ;;;
            remainingOrders <- call ReqGetOpenOrders (getOpenOrders exchange) ;;
            match remainingOrders with
            | OpenOrdersThrow => ret tt
            | OpenOrders (S _) => ret tt
            | OpenOrders O =>
                executeTrade ;;;
                t <- now ;;
                modify (set_loopLastPositionCheckTime t)
            end
          else ret tt
    else ret tt.

End Controller.

(** The requests that place or cancel orders. *)
Definition is_order_action (r : Request) : bool :=
  match r with
  | ReqCreateFuturesOrder _ _ _ _ | ReqCancelAllOrders => true
  | _ => false
  end.

Definition order_actions (w : World) : list Request :=
  filter is_order_action (requests w).

(** The number of requests of the kind of [r] sent so far. *)
Definition asked (r : Request) (w : World) : nat :=
  List.length (filter (same_kind r) (requests w)).

(** ** The risk control on the position query *)

(** A computation that neither places nor cancels an order. *)
Definition quiet (A : Type) (c : M A) : Prop :=
  forall s, order_actions (snd (snd (c s))) = order_actions (snd s).

Lemma quiet_ret (A : Type) (x : A) : quiet (ret x).
Proof. intro s. reflexivity. Qed.

Lemma quiet_bind (A B : Type) (c : M A) (k : A -> M B) :
  quiet c -> (forall x, quiet (k x)) -> quiet (bind c k).
Proof.
  intros Hc Hk s. unfold bind. specialize (Hc s).
  destruct (c s) as [x s1]. cbn [snd] in Hc. rewrite <- Hc. apply Hk.
Qed.

Lemma quiet_get : quiet get.
Proof. intro s. reflexivity. Qed.

Lemma quiet_now : quiet now.
Proof. intro s. reflexivity. Qed.

Lemma quiet_modify f : quiet (modify f).
Proof. intro s. reflexivity. Qed.

Lemma quiet_call (A : Type) (r : Request) (reply : nat -> A) :
  is_order_action r = false -> quiet (call r reply).
Proof.
  intros Hr s. unfold call, order_actions. cbn [snd requests].
  rewrite filter_app. cbn [filter]. rewrite Hr. apply app_nil_r.
Qed.

Lemma quiet_getMarketPrice exchange : quiet (getMarketPrice exchange).
Proof.
  unfold getMarketPrice. apply quiet_bind; [apply quiet_get|]. intro a.
  destruct (truthy_Q (currentPriceInfo a)); [apply quiet_ret|].
  apply quiet_bind; [now apply quiet_call|]. intros [|lastPrice];
    [apply quiet_ret|].
  destruct (truthy_Q lastPrice); apply quiet_ret.
Qed.

Lemma getPositionInfo_rejected exchange (s : State) :
  (forall n, getPositions exchange n = PositionsThrow) ->
  canFetchPositions (fst (snd (getPositionInfo exchange s))) = false
  /\ order_actions (snd (snd (getPositionInfo exchange s)))
     = order_actions (snd s).
Proof.
  intro Hthrow. unfold getPositionInfo, bind, call, modify.
  cbn [fst snd]. rewrite Hthrow. cbn [fst snd]. split.
  - destruct (fst s); reflexivity.
  - unfold order_actions. cbn [requests]. rewrite filter_app. cbn.
    apply app_nil_r.
Qed.

Lemma afterPositionQuery_stopped exchange plan p (s : State) :
  canFetchPositions (fst s) = false ->
  afterPositionQuery exchange plan p s = (tt, s).
Proof.
  intro H. unfold afterPositionQuery, bind, get. cbn [fst snd].
  now rewrite H.
Qed.

(** When the position query of [executeTrade] rejects, the risk control
    works: no order is placed or cancelled. *)
Lemma executeTrade_stops_on_rejection exchange plan :
  (forall n, getPositions exchange n = PositionsThrow) ->
  quiet (executeTrade exchange plan).
Proof.
  intro Hthrow. unfold executeTrade.
  apply quiet_bind; [apply quiet_getMarketPrice|]. intros [p|];
    [|apply quiet_ret].
  unfold tradeAt. apply quiet_bind; [apply quiet_get|]. intro a.
  apply quiet_bind; [apply quiet_now|]. intro t.
  destruct (negb _); [apply quiet_ret|].
  intro s. unfold bind.
  destruct (@getPositionInfo_rejected exchange s Hthrow) as [Hflag Hquiet].
  destruct (getPositionInfo exchange s) as [u s1]. cbn [snd] in *.
  now rewrite afterPositionQuery_stopped.
Qed.

(** The risk control of the monitoring callback works as well when the
    query rejects and no position is believed open. *)
Lemma monitoringTick_stops_on_rejection exchange plan (s : State) :
  (forall n, getPositions exchange n = PositionsThrow) ->
  hasOpenPosition (fst s) = false ->
  order_actions (snd (snd (monitoringTick exchange plan s)))
  = order_actions (snd s).
Proof.
  intros Hthrow Hflat. destruct s as [a w].
  unfold monitoringTick, bind at 1 2 3, modify at 1, displayAccountInfo,
    modify at 1.
  cbn [fst snd].
  match goal with
  | |- context [getPositionInfo exchange ?st] =>
      destruct (@getPositionInfo_rejected exchange st Hthrow) as [Hflag Hq];
      assert (Hopen : hasOpenPosition (fst (snd (getPositionInfo exchange st)))
                      = false);
      [| destruct (getPositionInfo exchange st) as [u [a1 w1]] ]
  end.
  { unfold getPositionInfo, bind, call, modify. cbn [fst snd].
    rewrite Hthrow. cbn [fst snd].
    cbn [fst] in Hflat.
    destruct (truthy_Q (currentPriceInfo _)); [destruct a; exact Hflat|].
    destruct (negb _); [destruct a; exact Hflat|].
    destruct (wsLastPrice _) as [p|]; [|destruct a; exact Hflat].
    destruct (negb _); destruct a; exact Hflat. }
  cbn [fst snd] in *. unfold bind at 1, get at 1. cbn [fst snd].
  rewrite Hopen. cbn [andb].
  unfold bind at 1, now at 1. cbn [fst snd].
  destruct (negb (Qle_bool _ _)).
  - unfold bind at 1, modify at 1. cbn [fst snd].
    unfold bind at 1, get at 1. cbn [fst snd].
    replace (canFetchPositions (set_loopLastPositionCheckTime (clock w1) a1))
      with false by (destruct a1; cbn in *; congruence).
    cbn [negb]. unfold ret. cbn [snd].
    rewrite Hq. unfold order_actions. reflexivity.
  - unfold ret. cbn [snd]. rewrite Hq. reflexivity.
Qed.

(** ** A failed position query that does not stop the cycle *)

(** An exchange whose position query fails the way the service reports
    failure, by resolving to [null]; no orders are open and submissions
    succeed. *)
Definition positions_unavailable : Exchange :=
  mkExchange (fun _ => PositionsNull) (fun _ => OpenOrders 0)
             (fun _ => CancelResult true) (fun _ => CreateOk)
             (fun _ => Ticker None).

(** The same exchange with a position query that rejects. *)
Definition positions_rejected : Exchange :=
  mkExchange (fun _ => PositionsThrow) (fun _ => OpenOrders 0)
             (fun _ => CancelResult true) (fun _ => CreateOk)
             (fun _ => Ticker None).

(** A planner that returns two rungs below the current price. *)
Definition two_rungs (currentPrice maxDrop total : Q) (count : nat)
           (increment minOrderAmount : Q) : list Planner.Order :=
  [ Planner.mkOrder currentPrice (40 / currentPrice) 40;
    Planner.mkOrder (currentPrice - 1) (60 / (currentPrice - 1)) 60 ]%Q.

Definition default_config : Config :=
  mkConfig false None None None None None None (1 # 2) None.

(** A running controller without position, price 100 received at time 1000. *)
Definition idle_app : App :=
  mkApp default_config true LONG 1 3 (1 # 2) false 0 0 0 0 0 false None true
        0 false (Some 100%Q) 100 (Some 1000) None 0 0.

(** The controller believes it holds 0.5 long from 100; price is now 101
    and the monitoring interval is installed. *)
Definition holding_app : App :=
  mkApp default_config true LONG 1 3 (1 # 2) true (1 # 2) 100 0 97 (201 # 2)
        false None true 0 true (Some 101%Q) 101 (Some 1000) None 1000 0.

(** C7 at concrete inputs. (1) The position query fails by resolving to
    [null]: [getPositionInfo] records the query as successful and the position
    as flat, and [executeTrade] submits the ladder. (2) The position query
    rejects while the controller still believes it holds a position whose
    take-profit is reached: the monitoring callback submits the closing
    market order, sized by the stale position, although [canFetchPositions]
    is now [false]. (3) Only when the query rejects and no position is
    believed open does the risk control stop the tick. *)
Theorem orders_placed_after_failed_position_query :
  let blind := snd (executeTrade positions_unavailable two_rungs
                                 (idle_app, mkWorld 2000 [])) in
  let stale := snd (monitoringTick positions_rejected two_rungs
                                   (holding_app, mkWorld 2000 [])) in
  let stopped := snd (executeTrade positions_rejected two_rungs
                                 (idle_app, mkWorld 2000 [])) in
  canFetchPositions (fst blind) = true
  /\ map (fun r => match r with
                   | ReqCreateFuturesOrder side type _ (Some p) =>
                       Some (side, type, Qred p)
                   | _ => None
                   end) (order_actions (snd blind))
     = [ Some (Buy, Limit, 100%Q); Some (Buy, Limit, 99%Q) ]
  /\ canFetchPositions (fst stale) = false
  /\ order_actions (snd stale) = [ ReqCreateFuturesOrder Sell Market (1 # 2) None ]
  /\ canFetchPositions (fst stopped) = false
  /\ order_actions (snd stopped) = [].
Proof. cbv zeta. repeat split; vm_compute; reflexivity. Qed.

End FuturesApp.

(* ================================================================== *)
(** * FuturesTradingStrategy: exits, profit and risk *)
(* ================================================================== *)

Module Strategy.

Local Open Scope Q_scope.

(** The fields of a [FuturesTradingStrategy] instance and of its [config]
    that the methods below read. The constructor has already applied
    [config.futures?.positionSide || 'LONG'] and
    [config.futures?.leverage || 1]; a setting absent from the configuration
    is [None]. *)
Record Settings : Type := mkSettings {
  positionSide : string;
  leverage : Q;
  stopLossPercentage : option Q;
  takeProfitPercentage : option Q;
  fundingRateLimit : option Q;
  maxDrawdownPercentage : option Q;
  maxPositionRisk : option Q;
  maxLeverage : option Q
}.

(** The default of every [isLong] parameter:
    [this.positionSide === 'LONG']. *)
Definition isLongSide (s : Settings) : bool :=
  String.eqb (positionSide s) "LONG".

Definition stopLossSetting (s : Settings) : Q :=
  TrailingStop.or_default (stopLossPercentage s) 3.

Definition takeProfitSetting (s : Settings) : Q :=
  TrailingStop.or_default (takeProfitPercentage s) (2 # 5).

(** [calculateStopLossPrice(entryPrice, isLong)]. *)
Definition calculateStopLossPrice (s : Settings) (entryPrice : Q)
           (isLong : bool) : Q :=
  if isLong then entryPrice * (1 - stopLossSetting s / 100)
  else entryPrice * (1 + stopLossSetting s / 100).

(** [calculateTakeProfitPrice(entryPrice, isLong)]. *)
Definition calculateTakeProfitPrice (s : Settings) (entryPrice : Q)
           (isLong : bool) : Q :=
  if isLong then entryPrice * (1 + takeProfitSetting s / 100)
  else entryPrice * (1 - takeProfitSetting s / 100).

(** [isFuturesTakeProfitTriggered(currentPrice, entryPrice,
    takeProfitPercentage, isLong)]. *)
Definition isFuturesTakeProfitTriggered
           (currentPrice entryPrice takeProfitPercentage : Q)
           (isLong : bool) : bool :=
  if Qeq_bool currentPrice 0 || Qeq_bool entryPrice 0 || Qle_bool entryPrice 0
  then false
  else if isLong
       then Qle_bool takeProfitPercentage
                     (((currentPrice - entryPrice) / entryPrice) * 100)
       else Qle_bool takeProfitPercentage
                     (((entryPrice - currentPrice) / entryPrice) * 100).

(** [isStopLossTriggered(currentPrice, stopLossPrice, isLong)]. *)
Definition isStopLossTriggered (currentPrice stopLossPrice : Q)
           (isLong : bool) : bool :=
  if Qeq_bool currentPrice 0 || Qeq_bool stopLossPrice 0
     || Qle_bool stopLossPrice 0
  then false
  else if isLong then Qle_bool currentPrice stopLossPrice
       else Qle_bool stopLossPrice currentPrice.

(** [calculateLeveragedProfitPercentage(currentPrice, entryPrice, leverage,
    isLong)], over [calculateProfitPercentage]. *)
Definition calculateLeveragedProfitPercentage
           (currentPrice entryPrice leverage : Q) (isLong : bool) : Q :=
  let baseProfit :=
    FuturesApp.calculateProfitPercentage currentPrice entryPrice isLong in
  baseProfit * leverage.

(** [isFundingRateAcceptable(fundingRate)]. *)
Definition isFundingRateAcceptable (s : Settings) (fundingRate : Q) : bool :=
  let limit := TrailingStop.or_default (fundingRateLimit s) (1 # 1000) in
  if isLongSide s then Qle_bool fundingRate limit
  else Qle_bool (- limit) fundingRate.

(** ** [evaluateRisk] *)

(** The values [riskLevel] can hold: the four level names and the number
    [NaN]. *)
Inductive RiskLevel : Type := LOW | MEDIUM | HIGH | EXTREME | LevelNaN.

Inductive RiskAction : Type := CONTINUE | REDUCE_POSITION | CLOSE_POSITION.

(** One entry of [reasons]; the text is left out, the numbers it prints are
    kept. *)
Inductive RiskReason : Type :=
| DrawdownExceeded (profitPercent maxDrawdown : Q)
| DrawdownClose (profitPercent : Q)
| PositionRiskHigh (riskRatio maxRisk : Q)
| LeverageHigh (leverage maxLeverage : Q).

Record RiskPosition : Type := mkRiskPosition {
  rp_entryPrice : option Q;
  rp_positionAmount : option Q
}.

Record RiskAccount : Type := mkRiskAccount {
  totalMarginBalance : option Q
}.

Record RiskReport : Type := mkRiskReport {
  riskLevel : RiskLevel;
  action : RiskAction;
  reasons : list RiskReason
}.

(** [Math.max(a, b)] on two level names. [Math.max] converts its arguments
    to numbers; no level name is a numeric string, and [NaN] stays [NaN], so
    the result is [NaN] whatever the arguments are. *)
Definition Math_max_level (a b : RiskLevel) : RiskLevel := LevelNaN.

Definition is_CONTINUE (a : RiskAction) : bool :=
  match a with CONTINUE => true | _ => false end.

(** [evaluateRisk(currentPrice, position, accountInfo)]; [timestamp] is left
    out. *)
Definition evaluateRisk (s : Settings) (currentPrice : Q)
           (position : option RiskPosition) (accountInfo : option RiskAccount)
  : RiskReport :=
  let maxDrawdown := TrailingStop.or_default (maxDrawdownPercentage s) 15 in
  let maxRisk := TrailingStop.or_default (maxPositionRisk s) (1 # 5) in
  let r := mkRiskReport LOW CONTINUE [] in
  (* the profit check *)
  let r :=
    match position with
    | Some p =>
        match FuturesApp.truthy_Q (rp_entryPrice p) with
        | Some entryPrice =>
            let profitPercent :=
              calculateLeveragedProfitPercentage
                currentPrice entryPrice (leverage s) (isLongSide s) in
            if Qle_bool profitPercent (- maxDrawdown) then
              mkRiskReport EXTREME CLOSE_POSITION
                (reasons r ++ [DrawdownExceeded profitPercent maxDrawdown])
            else if Qle_bool profitPercent (- maxDrawdown * (4 # 5)) then
              mkRiskReport HIGH REDUCE_POSITION
                (reasons r ++ [DrawdownClose profitPercent])
            else r
        | None => r
        end
    | None => r
    end in
  (* the position size check *)
  let r :=
    match position, accountInfo with
    | Some p, Some acc =>
        let positionValue := TrailingStop.or_default (rp_positionAmount p) 0 in
        let accountValue := TrailingStop.or_default (totalMarginBalance acc) 0 in
        if negb (Qle_bool accountValue 0) then
          let riskRatio := positionValue / accountValue in
          if negb (Qle_bool riskRatio maxRisk) then
            mkRiskReport
              (Math_max_level (riskLevel r) HIGH)
              (if is_CONTINUE (action r) then REDUCE_POSITION else action r)
              (reasons r ++ [PositionRiskHigh riskRatio maxRisk])
          else r
        else r
    | _, _ => r
    end in
  (* the leverage check *)
  let maxLev := TrailingStop.or_default (maxLeverage s) 10 in
  if negb (Qle_bool (leverage s) maxLev) then
    mkRiskReport (Math_max_level (riskLevel r) MEDIUM) (action r)
                 (reasons r ++ [LeverageHigh (leverage s) maxLev])
  else r.

(** The two conditions under which [evaluateRisk] goes through [Math.max]. *)
Definition oversized (s : Settings) (position : option RiskPosition)
           (accountInfo : option RiskAccount) : bool :=
  match position, accountInfo with
  | Some p, Some acc =>
      let positionValue := TrailingStop.or_default (rp_positionAmount p) 0 in
      let accountValue := TrailingStop.or_default (totalMarginBalance acc) 0 in
      negb (Qle_bool accountValue 0)
      && negb (Qle_bool (positionValue / accountValue)
                        (TrailingStop.or_default (maxPositionRisk s) (1 # 5)))
  | _, _ => false
  end.

Definition overleveraged (s : Settings) : bool :=
  negb (Qle_bool (leverage s) (TrailingStop.or_default (maxLeverage s) 10)).

(** The leveraged loss has reached the maximum drawdown. *)
Definition drawdown_reached (s : Settings) (currentPrice : Q)
           (position : option RiskPosition) : bool :=
  match position with
  | Some p =>
      match FuturesApp.truthy_Q (rp_entryPrice p) with
      | Some entryPrice =>
          Qle_bool (calculateLeveragedProfitPercentage
                      currentPrice entryPrice (leverage s) (isLongSide s))
                   (- TrailingStop.or_default (maxDrawdownPercentage s) 15)
      | None => false
      end
  | None => false
  end.

(** A strategy built from an empty configuration, and the same on the short
    side with 10x leverage. *)
Definition default_settings : Settings :=
  mkSettings "LONG" 1 None None None None None None.

Definition short_settings : Settings :=
  mkSettings "SHORT" 10 None None None None None None.

(** A configured percentage is not negative. *)
Definition nonnegative (x : option Q) : Prop :=
  match x with Some v => 0 <= v | None => True end.

Lemma Qle_bool_false a b : Qle_bool a b = false <-> b < a.
Proof.
  split; intro H.
  - apply Qnot_le_lt. intro Hle. apply Qle_bool_iff in Hle. congruence.
  - destruct (Qle_bool a b) eqn:E; [|reflexivity].
    apply Qle_bool_iff in E. lra.
Qed.

Lemma Qeq_bool_false a b : Qeq_bool a b = false <-> ~ a == b.
Proof.
  split; intro H.
  - intro E. apply Qeq_bool_iff in E. congruence.
  - destruct (Qeq_bool a b) eqn:E; [|reflexivity].
    apply Qeq_bool_iff in E. contradiction.
Qed.

Lemma or_default_pos x d : nonnegative x -> 0 < d -> 0 < TrailingStop.or_default x d.
Proof.
  unfold TrailingStop.or_default, nonnegative. intros Hx Hd.
  destruct x as [v|]; [|assumption].
  destruct (Qeq_bool v 0) eqn:E; [assumption|].
  apply Qeq_bool_false in E. lra.
Qed.

Lemma stopLossSetting_pos s : nonnegative (stopLossPercentage s) -> 0 < stopLossSetting s.
Proof. intro H. apply or_default_pos; [assumption|reflexivity]. Qed.

Lemma takeProfitSetting_pos s :
  nonnegative (takeProfitPercentage s) -> 0 < takeProfitSetting s.
Proof. intro H. apply or_default_pos; [assumption|reflexivity]. Qed.

(** The relative move of the price, as both trigger tests compute it. *)
Lemma move_ge (t x e : Q) :
  0 < e -> (t <= ((x - e) / e) * 100 <-> e * (1 + t / 100) <= x).
Proof.
  intro He.
  assert (E : ((x - e) / e) * 100 == (x / e - 1) * 100) by (field; lra).
  rewrite E.
  assert (Hx : x == (x / e) * e) by (field; lra).
  assert (Ht : t == (t / 100) * 100) by field.
  remember (x / e) as q eqn:Hq. remember (t / 100) as u eqn:Hu.
  clear Hq E Hu.
  split; intro H.
  - rewrite Hx. rewrite Ht in H. nra.
  - rewrite Hx in H. rewrite Ht. nra.
Qed.

Lemma move_le (t x e : Q) :
  0 < e -> (t <= ((e - x) / e) * 100 <-> x <= e * (1 - t / 100)).
Proof.
  intro He.
  assert (E : ((e - x) / e) * 100 == (1 - x / e) * 100) by (field; lra).
  rewrite E.
  assert (Hx : x == (x / e) * e) by (field; lra).
  assert (Ht : t == (t / 100) * 100) by field.
  remember (x / e) as q eqn:Hq. remember (t / 100) as u eqn:Hu.
  clear Hq E Hu.
  split; intro H.
  - rewrite Hx. rewrite Ht in H. nra.
  - rewrite Hx in H. rewrite Ht. nra.
Qed.



(** X1. With a positive entry price and no negative percentage configured,
    the stop-loss price and the take-profit price lie strictly on opposite
    sides of the entry price: below and above it for a long position, above
    and below it for a short one. A percentage configured as 0 falls back to
    the default, so neither price coincides with the entry price. *)
Theorem exits_bracket_entry (s : Settings) (entryPrice : Q) :
  0 < entryPrice ->
  nonnegative (stopLossPercentage s) ->
  nonnegative (takeProfitPercentage s) ->
  (calculateStopLossPrice s entryPrice true < entryPrice
   /\ entryPrice < calculateTakeProfitPrice s entryPrice true)
  /\ (calculateTakeProfitPrice s entryPrice false < entryPrice
      /\ entryPrice < calculateStopLossPrice s entryPrice false).
Proof.
  intros He Hsl Htp.
  pose proof (stopLossSetting_pos s Hsl) as Hs.
  pose proof (takeProfitSetting_pos s Htp) as Ht.
  unfold calculateStopLossPrice, calculateTakeProfitPrice.
  assert (Hs' : 0 < stopLossSetting s / 100) by (apply Qlt_shift_div_l; lra).
  assert (Ht' : 0 < takeProfitSetting s / 100) by (apply Qlt_shift_div_l; lra).
  repeat split; nra.
Qed.

Lemma exits_bracket_entry_witness :
  0 < 100
  /\ (calculateStopLossPrice default_settings 100 true < 100
      /\ 100 < calculateTakeProfitPrice default_settings 100 true)
  /\ (calculateTakeProfitPrice default_settings 100 false < 100
      /\ 100 < calculateStopLossPrice default_settings 100 false).
Proof.
  split; [reflexivity|].
  apply (@exits_bracket_entry default_settings 100);
    [reflexivity | exact I | exact I].
Defined.



(** X3. A price never triggers both exits of one position: with the stop
    placed by [calculateStopLossPrice] and no negative percentage
    configured, [isStopLossTriggered] and [isFuturesTakeProfitTriggered] do
    not both hold at the same current price. *)
Theorem stop_loss_excludes_take_profit (s : Settings)
        (currentPrice entryPrice : Q) (isLong : bool) :
  nonnegative (stopLossPercentage s) ->
  nonnegative (takeProfitPercentage s) ->
  isStopLossTriggered currentPrice
                      (calculateStopLossPrice s entryPrice isLong) isLong
  && isFuturesTakeProfitTriggered currentPrice entryPrice
                                  (takeProfitSetting s) isLong
  = false.
Proof.
  intros Hsl Htp.
  pose proof (stopLossSetting_pos s Hsl) as Hs.
  pose proof (takeProfitSetting_pos s Htp) as Ht.
  assert (Hs' : 0 < stopLossSetting s / 100) by (apply Qlt_shift_div_l; lra).
  assert (Ht' : 0 < takeProfitSetting s / 100) by (apply Qlt_shift_div_l; lra).
  destruct (isFuturesTakeProfitTriggered _ _ _ _) eqn:Etp;
    [|apply andb_false_r].
  rewrite andb_true_r.
  unfold isFuturesTakeProfitTriggered in Etp.
  destruct (Qeq_bool currentPrice 0 || Qeq_bool entryPrice 0
            || Qle_bool entryPrice 0) eqn:G; [discriminate|].
  apply orb_false_iff in G. destruct G as [_ G].
  apply Qle_bool_false in G.
  unfold isStopLossTriggered, calculateStopLossPrice.
  destruct (Qeq_bool currentPrice 0 || _ || _); [reflexivity|].
  destruct isLong; apply Qle_bool_iff in Etp; apply Qle_bool_false.
  - apply move_ge in Etp; [|assumption]. nra.
  - apply move_le in Etp; [|assumption]. nra.
Qed.

Lemma stop_loss_excludes_take_profit_witness :
  nonnegative (stopLossPercentage default_settings)
  /\ nonnegative (takeProfitPercentage default_settings)
  /\ isStopLossTriggered 97 (calculateStopLossPrice default_settings 100 true)
                         true
     && isFuturesTakeProfitTriggered 97 100 (takeProfitSetting default_settings)
                                     true
     = false.
Proof.
  split; [exact I|]. split; [exact I|].
  apply (@stop_loss_excludes_take_profit default_settings 97 100 true);
    exact I.
Defined.

(** X4. The leveraged profit of a long and of a short position at the same
    prices are opposite numbers; and with positive prices and positive
    leverage a long position never loses [100 * leverage] percent or more,
    whatever the price does. *)
Theorem leveraged_profit_mirror (currentPrice entryPrice lev : Q) :
  calculateLeveragedProfitPercentage currentPrice entryPrice lev true
  == - calculateLeveragedProfitPercentage currentPrice entryPrice lev false
  /\ (0 < currentPrice -> 0 < entryPrice -> 0 < lev ->
      - (100 * lev)
      < calculateLeveragedProfitPercentage currentPrice entryPrice lev true).
Proof.
  unfold calculateLeveragedProfitPercentage, FuturesApp.calculateProfitPercentage.
  split.
  - destruct (Qeq_bool currentPrice 0 || Qle_bool entryPrice 0) eqn:G; cbv zeta.
    + ring.
    + apply orb_false_iff in G. destruct G as [_ G].
      apply Qle_bool_false in G. field. lra.
  - intros Hx He Hl. cbv zeta.
    assert (G : Qeq_bool currentPrice 0 || Qle_bool entryPrice 0 = false).
    { apply orb_false_iff. split;
        [apply Qeq_bool_false | apply Qle_bool_false]; lra. }
    rewrite G.
    assert (E : (currentPrice - entryPrice) / entryPrice * 100
                == (currentPrice / entryPrice - 1) * 100) by (field; lra).
    rewrite E.
    assert (Hq : 0 < currentPrice / entryPrice)
      by (apply Qlt_shift_div_l; lra).
    nra.
Qed.

(** With a limit that is not negative, every funding rate is acceptable
    to at least one side, and a rate is acceptable to both sides exactly
    when its size is within the limit. *)
Theorem funding_rate_sides (s l : Settings) (fundingRate : Q) :
  isLongSide s = true -> isLongSide l = false ->
  fundingRateLimit s = fundingRateLimit l ->
  nonnegative (fundingRateLimit s) ->
  let limit := TrailingStop.or_default (fundingRateLimit s) (1 # 1000) in
  isFundingRateAcceptable s fundingRate || isFundingRateAcceptable l fundingRate
  = true
  /\ (isFundingRateAcceptable s fundingRate
      && isFundingRateAcceptable l fundingRate = true
      <-> - limit <= fundingRate <= limit).
Proof.
  intros Hs Hl Hlim Hnn limit.
  assert (Hpos : 0 < limit) by (apply or_default_pos; [assumption|reflexivity]).
  unfold isFundingRateAcceptable. rewrite Hs, Hl, <- Hlim. fold limit.
  split.
  - destruct (Qle_bool fundingRate limit) eqn:E1; [reflexivity|].
    apply Qle_bool_false in E1. simpl. apply Qle_bool_iff. lra.
  - rewrite andb_true_iff, !Qle_bool_iff. tauto.
Qed.

Lemma funding_rate_sides_witness :
  isLongSide default_settings = true /\ isLongSide short_settings = false
  /\ fundingRateLimit default_settings = fundingRateLimit short_settings
  /\ nonnegative (fundingRateLimit default_settings)
  /\ isFundingRateAcceptable default_settings (1 # 100)
     || isFundingRateAcceptable short_settings (1 # 100) = true.
Proof.
  split; [reflexivity|]. split; [reflexivity|]. split; [reflexivity|].
  split; [exact I|].
  apply (@funding_rate_sides default_settings short_settings (1 # 100));
    [reflexivity | reflexivity | reflexivity | exact I].
Defined.

(** X5. [evaluateRisk] never reports the level MEDIUM, and it reports a
    level that is no level at all, the number [NaN], exactly when the
    position is oversized or the leverage is above its maximum: the level
    goes through [Math.max] on level names. This also erases an EXTREME
    level found by the drawdown check. *)
Theorem evaluateRisk_level (s : Settings) (currentPrice : Q)
        (position : option RiskPosition) (accountInfo : option RiskAccount) :
  let r := evaluateRisk s currentPrice position accountInfo in
  riskLevel r <> MEDIUM
  /\ (riskLevel r = LevelNaN
      <-> oversized s position accountInfo || overleveraged s = true).
Proof.
  unfold evaluateRisk, oversized, overleveraged. cbv zeta.
  destruct position as [p|]; [|destruct accountInfo];
    try destruct accountInfo as [acc|];
    try destruct (FuturesApp.truthy_Q (rp_entryPrice p));
    repeat match goal with
           | |- context [if ?b then _ else _] =>
               match b with
               | context [if _ then _ else _] => fail 1
               | _ => destruct b eqn:?
               end
           end;
    cbn; split; try discriminate; try (split; [reflexivity|discriminate]);
    try (split; [discriminate|reflexivity]);
    try (split; intros; (reflexivity || discriminate)).
Qed.

(** X6. [evaluateRisk] asks to close the position exactly when there is a
    position with an entry price whose leveraged loss has reached the
    maximum drawdown; neither an oversized position nor excessive leverage
    leads to, or takes back, that action. *)
Theorem evaluateRisk_close (s : Settings) (currentPrice : Q)
        (position : option RiskPosition) (accountInfo : option RiskAccount) :
  action (evaluateRisk s currentPrice position accountInfo) = CLOSE_POSITION
  <-> drawdown_reached s currentPrice position = true.
Proof.
  unfold evaluateRisk, drawdown_reached. cbv zeta.
  destruct position as [p|]; [|destruct accountInfo];
    try destruct accountInfo as [acc|];
    try destruct (FuturesApp.truthy_Q (rp_entryPrice p));
    repeat match goal with
           | |- context [if ?b then _ else _] =>
               match b with
               | context [if _ then _ else _] => fail 1
               | _ => destruct b eqn:?
               end
           end;
    cbn; split; intros; try reflexivity; try discriminate; try congruence.
Qed.

(** An over-leveraged short position whose loss is past the drawdown limit:
    the action is to close, the level is [NaN]. *)
Example evaluateRisk_extreme_erased :
  let r := evaluateRisk (mkSettings "SHORT" 20 None None None None None None)
                        102 (Some (mkRiskPosition (Some 100) (Some 1)))
                        None in
  riskLevel r = LevelNaN /\ action r = CLOSE_POSITION
  /\ List.length (reasons r) = 2%nat.
Proof. repeat split. Qed.

End Strategy.

(* ================================================================== *)
(** * Backtest: [evaluateMarket] and [simulateBacktest] *)
(* ================================================================== *)

Module Backtest.

Local Open Scope Q_scope.

(** One candle of the historical data: its closing price and its time. *)
Record Candle : Type := mkCandle {
  close : Q;
  timestamp : Z
}.

(** The position the backtest holds; its [type] is always ['LONG']. *)
Record Position : Type := mkPosition {
  entryPrice : Q;
  size : Q
}.

Inductive Signal : Type :=
| BUY (orderSize : Q)
| SELL
| HOLD.

(** A line pushed on [logs] by a trade; the text is left out, the quantity
    and the price it prints are kept. *)
Inductive LogLine : Type :=
| Bought (time : Z) (qty price : Q)
| Sold (time : Z) (qty price : Q).

(** The variables of the loop of [simulateBacktest]. The two lines pushed
    after the loop print [balance] and the two volumes. *)
Record State : Type := mkState {
  balance : Q;
  position : option Position;
  logs : list LogLine;
  totalTradeVolumeUSDT : Q;
  totalTradeVolumeETH : Q
}.

Section Run.

(** [config.futures.totalAmount], [config.futures.orderCount],
    [config.futures.takeProfitPercentage] and
    [config.riskManagement.stopLossPercentage], read from
    backpack_futures_config.json: numbers, [orderCount] not 0. *)
Variables (totalAmount orderCount takeProfitPercentage stopLossPercentage : Q).

(** [evaluateMarket(price, position, futuresConfig, riskConfig)]
    (src/core/futuresTradingStrategy.js). *)
Definition evaluateMarket (price : Q) (position : option Position) : Signal :=
  match position with
  | None => BUY (totalAmount / orderCount)
  | Some p =>
      if Qle_bool (entryPrice p * (1 + takeProfitPercentage / 100)) price
      then SELL
      else if Qle_bool price (entryPrice p * (1 - stopLossPercentage / 100))
           then SELL
           else HOLD
  end.

(** The body of [for (const candle of data)]. The closing price is not 0. *)
Definition onCandle (st : State) (candle : Candle) : State :=
  let price := close candle in
  match evaluateMarket price (position st) with
  | BUY s =>
      let orderSize := if Qeq_bool s 0 then totalAmount / orderCount else s in
      let ethQty := orderSize / price in
      mkState (balance st - orderSize)
              (Some (mkPosition price ethQty))
              (logs st ++ [Bought (timestamp candle) ethQty price])
              (totalTradeVolumeUSDT st + orderSize)
              (totalTradeVolumeETH st + ethQty)
  | SELL =>
      match position st with
      | Some p =>
          let sellValue := size p * price in
          mkState (balance st + sellValue)
                  None
                  (logs st ++ [Sold (timestamp candle) (size p) price])
                  (totalTradeVolumeUSDT st + sellValue)
                  (totalTradeVolumeETH st + size p)
      | None => st
      end
  | HOLD => st
  end.

Definition start : State := mkState totalAmount None [] 0 0.

(** [simulateBacktest(data)]: the state after the loop. *)
Definition simulateBacktest (data : list Candle) : State :=
  fold_left onCandle data start.

(** ** Vocabulary of the statements *)

(** The price has reached one of the two exit levels of a purchase made at
    [entry]. *)
Definition exit_reached (entry price : Q) : Prop :=
  entry * (1 + takeProfitPercentage / 100) <= price
  \/ price <= entry * (1 - stopLossPercentage / 100).

(** What is held after the trades of a log: the last purchase, unless a
    sale followed it. *)
Fixpoint holding (held : option Position) (l : list LogLine)
  : option Position :=
  match l with
  | [] => held
  | Bought _ q p :: rest => holding (Some (mkPosition p q)) rest
  | Sold _ _ _ :: rest => holding None rest
  end.

(** Purchases and sales alternate, starting from [held]; each sale sells
    the whole quantity of the purchase before it, at a price that has
    reached one of its exit levels. *)
Fixpoint paired (held : option Position) (l : list LogLine) : Prop :=
  match l with
  | [] => True
  | Bought _ q p :: rest =>
      held = None /\ paired (Some (mkPosition p q)) rest
  | Sold _ q p :: rest =>
      match held with
      | Some h => q = size h /\ exit_reached (entryPrice h) p /\ paired None rest
      | None => False
      end
  end.

(** [signal.orderSize || config.futures.totalAmount / config.futures.orderCount]
    evaluates to the same quotient on either side of [||]. *)
Definition orderSize : Q := totalAmount / orderCount.

(** The sum over the closed round trips of a log of what each one earned:
    the order size times the relative move of the price. *)
Fixpoint realised (held : option Position) (l : list LogLine) : Q :=
  match l with
  | [] => 0
  | Bought _ q p :: rest => realised (Some (mkPosition p q)) rest
  | Sold _ _ p :: rest =>
      match held with
      | Some h =>
          orderSize * ((p - entryPrice h) / entryPrice h) + realised None rest
      | None => realised None rest
      end
  end.

Lemma holding_app held l1 l2 :
  holding held (l1 ++ l2) = holding (holding held l1) l2.
Proof.
  revert held. induction l1 as [|[t q p|t q p] l1 IH]; intro held; simpl;
    [reflexivity | apply IH | apply IH].
Qed.

Lemma paired_app held l1 l2 :
  paired held l1 -> paired (holding held l1) l2 -> paired held (l1 ++ l2).
Proof.
  revert held.
  induction l1 as [|[t q p|t q p] l1 IH]; intros held H1 H2; simpl in *.
  - assumption.
  - destruct H1 as [Hn H1]. split; [assumption|]. now apply IH.
  - destruct held as [h|]; [|contradiction].
    destruct H1 as (Hq & Hx & H1). repeat split; try assumption. now apply IH.
Qed.

Lemma realised_app held l1 l2 :
  realised held (l1 ++ l2) == realised held l1 + realised (holding held l1) l2.
Proof.
  revert held. induction l1 as [|[t q p|t q p] l1 IH]; intro held; simpl.
  - ring.
  - apply IH.
  - destruct held as [h|]; rewrite IH; ring.
Qed.

(** What the loop keeps true of its variables. *)
Record consistent (st : State) : Prop := mkConsistent {
  c_paired : paired None (logs st);
  c_holding : holding None (logs st) = position st;
  c_balance :
    balance st
    == totalAmount + realised None (logs st)
       - match position st with
         | Some _ => orderSize
         | None => 0
         end;
  c_size :
    match position st with
    | Some p => 0 < entryPrice p /\ size p == orderSize / entryPrice p
    | None => True
    end
}.

Lemma start_consistent : consistent start.
Proof. split; simpl; try reflexivity; try exact I. ring. Qed.

Lemma orderSize_or s :
  s = totalAmount / orderCount ->
  (if Qeq_bool s 0 then totalAmount / orderCount else s) = orderSize.
Proof. intros ->. unfold orderSize. now destruct (Qeq_bool _ _). Qed.

Lemma sell_consistent st p candle :
  consistent st -> position st = Some p ->
  exit_reached (entryPrice p) (close candle) ->
  consistent
    (mkState (balance st + size p * close candle) None
             (logs st ++ [Sold (timestamp candle) (size p) (close candle)])
             (totalTradeVolumeUSDT st + size p * close candle)
             (totalTradeVolumeETH st + size p)).
Proof.
  intros [Hp Hh Hb Hs] Hpos Hx. rewrite Hpos in *. destruct Hs as [He Hs].
  split; simpl.
  - apply paired_app; [assumption|]. rewrite Hh. simpl. auto.
  - now rewrite holding_app.
  - rewrite realised_app, Hh. simpl. rewrite Hb, Hs. field. lra.
  - exact I.
Qed.

Lemma onCandle_consistent st candle :
  0 < close candle -> consistent st -> consistent (onCandle st candle).
Proof.
  intros Hc Hst. unfold onCandle. cbv zeta.
  destruct (position st) as [p|] eqn:Hpos; simpl evaluateMarket.
  - destruct (Qle_bool (entryPrice p * (1 + takeProfitPercentage / 100))
                       (close candle)) eqn:Etp.
    + apply sell_consistent; [assumption..|].
      left. now apply Qle_bool_iff.
    + destruct (Qle_bool (close candle)
                         (entryPrice p * (1 - stopLossPercentage / 100)))
        eqn:Esl; [|assumption].
      apply sell_consistent; [assumption..|].
      right. now apply Qle_bool_iff.
  - cbv beta iota. rewrite (orderSize_or eq_refl).
    destruct Hst as [Hp Hh Hb Hs]. rewrite Hpos in *.
    split; simpl.
    + apply paired_app; [assumption|]. rewrite Hh. simpl. auto.
    + now rewrite holding_app.
    + rewrite realised_app, Hh. simpl. rewrite Hb. ring.
    + split; [assumption|reflexivity].
Qed.

Lemma fold_consistent data :
  Forall (fun c => 0 < close c) data ->
  forall st, consistent st -> consistent (fold_left onCandle data st).
Proof.
  induction 1 as [|c data Hc _ IH]; intros st Hst; simpl; [assumption|].
  apply IH. now apply onCandle_consistent.
Qed.

(** X7. Over candles with positive closing prices, the trades the backtest
    logs alternate between a purchase and a sale, starting with a purchase;
    every sale sells the whole quantity of the purchase before it, at a
    price that has reached the take-profit or the stop-loss level of that
    purchase; and the position held at the end is the last purchase if no
    sale followed it, and none otherwise. *)
Theorem backtest_trades_paired (data : list Candle) :
  Forall (fun c => 0 < close c) data ->
  paired None (logs (simulateBacktest data))
  /\ position (simulateBacktest data)
     = holding None (logs (simulateBacktest data)).
Proof.
  intro H.
  destruct (fold_consistent H start_consistent) as [Hp Hh _ _].
  split; [exact Hp | symmetry; exact Hh].
Qed.

(** X8. Over candles with positive closing prices, the final balance is
    the starting amount, plus for every closed round trip the order size
    times the relative price move between its purchase and its sale, minus
    one order size while a position is still held. *)
Theorem backtest_balance (data : list Candle) :
  Forall (fun c => 0 < close c) data ->
  ~ orderCount == 0 ->
  balance (simulateBacktest data)
  == totalAmount + realised None (logs (simulateBacktest data))
     - match position (simulateBacktest data) with
       | Some _ => totalAmount / orderCount
       | None => 0
       end.
Proof.
  intros H _.
  destruct (fold_consistent H start_consistent) as [_ _ Hb _].
  exact Hb.
Qed.

End Run.

(** Three candles: bought at 100, sold at 101 past the 0.4% target, bought
    again at 99. *)
Definition three_candles : list Candle :=
  [mkCandle 100 0; mkCandle 101 60000; mkCandle 99 120000].

Lemma backtest_trades_paired_witness :
  Forall (fun c => 0 < close c) three_candles
  /\ paired (2 # 5) 3 None
            (logs (simulateBacktest 1000 10 (2 # 5) 3 three_candles))
  /\ position (simulateBacktest 1000 10 (2 # 5) 3 three_candles)
     = holding None (logs (simulateBacktest 1000 10 (2 # 5) 3 three_candles)).
Proof.
  assert (H : Forall (fun c => 0 < close c) three_candles)
    by (repeat constructor).
  split; [exact H|].
  exact (@backtest_trades_paired 1000 10 (2 # 5) 3 three_candles H).
Defined.

Lemma backtest_balance_witness :
  Forall (fun c => 0 < close c) three_candles
  /\ ~ 10 == 0
  /\ balance (simulateBacktest 1000 10 (2 # 5) 3 three_candles)
     == 1000
        + realised 1000 10 None
                   (logs (simulateBacktest 1000 10 (2 # 5) 3 three_candles))
        - match position (simulateBacktest 1000 10 (2 # 5) 3 three_candles) with
          | Some _ => 1000 / 10
          | None => 0
          end.
Proof.
  assert (H : Forall (fun c => 0 < close c) three_candles)
    by (repeat constructor).
  assert (H0 : ~ 10 == 0) by discriminate.
  split; [exact H|]. split; [exact H0|].
  exact (@backtest_balance 1000 10 (2 # 5) 3 three_candles H H0).
Defined.

(** The same run, spelled out: one round trip earning 1, one order open. *)
Example three_candles_run :
  let r := simulateBacktest 1000 10 (2 # 5) 3 three_candles in
  Qred (balance r) = 901
  /\ map (fun l => match l with
                   | Bought _ q p => (true, Qred q, p)
                   | Sold _ q p => (false, Qred q, p)
                   end) (logs r)
     = [(true, 1, 100); (false, 1, 101); (true, 100 # 99, 99)].
Proof. split; reflexivity. Qed.

End Backtest.

(* ================================================================== *)
(** * BackpackFuturesService: orders, cancellation, prices *)
(* ================================================================== *)

Module Service.

Local Open Scope Z_scope.

(** ** Order requests: [createFuturesOrder] and its callers *)

(** The [orderData] object handed to [createFuturesOrder]. A property the
    object lacks is [None]; [od_price] is also [None] for [null]. *)
Record OrderData : Type := mkOrderData {
  od_symbol : option string;
  od_side : option string;
  od_orderType : option string;
  od_quantity : option Q;
  od_price : option Q;
  od_stopPrice : option Q;
  od_timeInForce : option string;
  od_clientOrderId : option string
}.

(** The [data] object that is posted to [/api/v1/order]: these are all the
    properties it can have. [quantity] and [price] are sent as the decimal
    strings of these numbers. *)
Record OrderRequest : Type := mkOrderRequest {
  rq_symbol : string;
  rq_side : string;
  rq_orderType : string;
  rq_quantity : Q;
  rq_timeInForce : string;
  rq_price : option Q;
  rq_clientOrderId : option string
}.

(** The first part of [createFuturesOrder]: the two validations, which
    throw into the method's own [catch] (the method then returns [null]),
    and the construction of [data]. *)
Definition orderRequest (orderData : OrderData) : option OrderRequest :=
  match WsManager.truthy_str (od_symbol orderData),
        WsManager.truthy_str (od_side orderData),
        WsManager.truthy_str (od_orderType orderData),
        FuturesApp.truthy_Q (od_quantity orderData) with
  | Some symbol, Some side, Some orderType, Some quantity =>
      let isLimit := String.eqb orderType "Limit" in
      let price := FuturesApp.truthy_Q (od_price orderData) in
      if isLimit
         && match price with Some p => Qle_bool p 0 | None => true end
      then None
      else
        Some (mkOrderRequest
                symbol
                (if String.eqb side "Buy" then "Bid"%string
                 else if String.eqb side "Sell" then "Ask"%string
                      else side)
                orderType
                quantity
                (WsManager.or_str (od_timeInForce orderData) "GTC")
                (if isLimit then price else None)
                (WsManager.truthy_str (od_clientOrderId orderData)))
  | _, _, _, _ => None
  end.

Section Orders.

(** The body of the exchange's answer to a posted order. *)
Variable Body : Type.

(** How [axios.post] settles: with a response, or by throwing (an error
    status, a timeout, no connection). *)
Inductive PostReply : Type :=
| Answered (status : Z) (body : Body)
| NoAnswer.

(** The exchange, as far as one order is concerned. *)
Variable post : OrderRequest -> PostReply.

(** What one call of [createFuturesOrder] did: the request it posted, if
    any, and what it returned: [null], or the order object, which is built
    from the response body (none in mock mode) and from [data]. *)
Record Attempt : Type := mkAttempt {
  posted : option OrderRequest;
  created : option (OrderRequest * option Body)
}.

(** [createFuturesOrder(orderData)]. *)
Definition createFuturesOrder (mockMode : bool) (orderData : OrderData)
  : Attempt :=
  match orderRequest orderData with
  | None => mkAttempt None None
  | Some data =>
      if mockMode then mkAttempt None (Some (data, None))
      else
        match post data with
        | Answered status body =>
            if (status =? 200) || (status =? 201)
            then mkAttempt (Some data) (Some (data, Some body))
            else mkAttempt (Some data) None
        | NoAnswer => mkAttempt (Some data) None
        end
  end.

(** The [options] object of [createLongOrder], [createShortOrder] and
    [closeFuturesPosition]. *)
Definition options (symbol side orderType : string) (quantity : Q)
           (price : option Q) : OrderData :=
  mkOrderData (Some symbol) (Some side) (Some orderType) (Some quantity)
              (if String.eqb orderType "Limit" then price else None)
              None (Some "GTC"%string) None.

(** [createLongOrder(symbol, quantity, price, orderType)]. *)
Definition createLongOrder (mockMode : bool) (symbol : string) (quantity : Q)
           (price : option Q) (orderType : string) : Attempt :=
  createFuturesOrder mockMode (options symbol "Buy" orderType quantity price).

(** [createShortOrder(symbol, quantity, price, orderType)]. *)
Definition createShortOrder (mockMode : bool) (symbol : string) (quantity : Q)
           (price : option Q) (orderType : string) : Attempt :=
  createFuturesOrder mockMode (options symbol "Sell" orderType quantity price).

(** [closeFuturesPosition(symbol, positionSide, quantity, price,
    orderType)]. *)
Definition closeFuturesPosition (mockMode : bool)
           (symbol positionSide : string) (quantity : Q) (price : option Q)
           (orderType : string) : Attempt :=
  let side := if String.eqb positionSide "LONG" then "Sell"%string
              else "Buy"%string in
  createFuturesOrder mockMode (options symbol side orderType quantity price).

Definition to_list (A : Type) (o : option A) : list A :=
  match o with Some x => [x] | None => [] end.

(** [setStopLossAndTakeProfit(symbol, positionSide, quantity, stopLossPrice,
    takeProfitPrice)]: the requests it posted, in order, and the array of
    orders it returned. *)
Definition setStopLossAndTakeProfit (mockMode : bool)
           (symbol positionSide : string) (quantity : Q)
           (stopLossPrice takeProfitPrice : option Q)
  : list OrderRequest * list (OrderRequest * option Body) :=
  let side := if String.eqb positionSide "LONG" then "Sell"%string
              else "Buy"%string in
  let stop :=
    match stopLossPrice with
    | Some sl =>
        let stopLossOptions :=
          mkOrderData (Some symbol) (Some side) (Some "Stop"%string)
                      (Some quantity) (Some sl) (Some sl)
                      (Some "GTC"%string) None in
        let a := createFuturesOrder mockMode stopLossOptions in
        (to_list (posted a), to_list (created a))
    | None => ([], [])
    end in
  let take :=
    match takeProfitPrice with
    | Some tp =>
        let takeProfitOptions :=
          mkOrderData (Some symbol) (Some side) (Some "Limit"%string)
                      (Some quantity) (Some tp) None
                      (Some "GTC"%string) None in
        let a := createFuturesOrder mockMode takeProfitOptions in
        (to_list (posted a), to_list (created a))
    | None => ([], [])
    end in
  (fst stop ++ fst take, snd stop ++ snd take).

End Orders.

(** ** Cancelling: [getOpenOrders] and [cancelAllOrders] *)

(** How the exchange answers the query for open orders: with status 200
    and a number of orders, or otherwise (another status, an error). *)
Inductive GetReply : Type :=
| OpenOrders (n : nat)
| GetFailed.

(** How it answers the request to delete all orders: with a response of
    some status, or by making [axios.delete] throw. *)
Inductive DeleteReply : Type :=
| DeleteStatus (status : Z)
| DeleteFailed.

Inductive Call : Type :=
| GET
| DELETE
| Wait (ms : Z).

(** The exchange seen from [cancelAllOrders]: the answers it will give to
    the coming queries and deletions, and the calls made so far. Past the
    end of a script the call fails. *)
Record Exchange : Type := mkExchange {
  gets : list GetReply;
  deletes : list DeleteReply;
  calls : list Call
}.

(** [getOpenOrders(symbol)]: the length of the array it returns. Every
    failure gives the empty array. *)
Definition getOpenOrders (x : Exchange) : nat * Exchange :=
  let x' := mkExchange (tl (gets x)) (deletes x) (calls x ++ [GET]) in
  match gets x with
  | OpenOrders n :: _ => (n, x')
  | GetFailed :: _ => (0%nat, x')
  | [] => (0%nat, x')
  end.

(** The function [cancelAllOrders] hands to [executeWithRetry]. *)
Definition deleteOrders (x : Exchange) : Retry.outcome bool unit * Exchange :=
  let x1 := mkExchange (gets x) (tl (deletes x)) (calls x ++ [DELETE]) in
  match deletes x with
  | DeleteStatus status :: _ =>
      if status =? 200 then
        let x2 := mkExchange (gets x1) (deletes x1) (calls x1 ++ [Wait 1000]) in
        let (remainingOrders, x3) := getOpenOrders x2 in
        if (0 <? remainingOrders)%nat
        then (Retry.Resolved unit false, x3)
        else (Retry.Resolved unit true, x3)
      else (Retry.Resolved unit false, x1)
  | DeleteFailed :: _ => (Retry.Rejected bool tt, x1)
  | [] => (Retry.Rejected bool tt, x1)
  end.

(** [cancelAllOrders(symbol)]: what it returns, the exchange afterwards, and
    what [executeWithRetry] did. *)
Definition cancelAllOrders (x : Exchange)
  : bool * Exchange * list Retry.event :=
  let (openOrders, x1) := getOpenOrders x in
  if (openOrders =? 0)%nat then (true, x1, [])
  else
    let r := Retry.executeWithRetry deleteOrders 3 x1 in
    match Retry.settled r with
    | Retry.Return _ b => (b, Retry.world r, Retry.trace r)
    | Retry.Throw _ _ => (false, Retry.world r, Retry.trace r)
    end.



(** The time [executeWithRetry] spent waiting between attempts. *)
Fixpoint total_wait (tr : list Retry.event) : Z :=
  match tr with
  | [] => 0
  | Retry.Sleep ms :: rest => ms + total_wait rest
  | Retry.Invoke :: rest => total_wait rest
  end.

(** ** Ticker and prices *)

(** The body of a ticker response, as far as the last price goes. The
    fields are decimal strings; one that is absent or empty is [None]. *)
Record RawTicker : Type := mkRawTicker {
  rt_lastPrice : option Q;
  rt_c : option Q;
  rt_close : option Q
}.

(** How a ticker request settles: a response with a status and a body, or
    an error. *)
Inductive TickerReply : Type :=
| TickerResponse (status : Z) (data : option RawTicker)
| TickerError.

Definition or_else (A : Type) (a b : option A) : option A :=
  match a with Some x => Some x | None => b end.

(** [x.toFixed(2)]: two decimals, the nearest value. *)
Definition toFixed2 (x : Q) : Q := Qmake (Qfloor (x * 100 + (1 # 2))%Q) 100.

(** [getFuturesTicker(symbol)]: the [lastPrice] of the object it returns
    (its other properties are left out), and [this.lastKnownPrice]
    afterwards. [random] is the value [Math.random()] gives if asked. *)
Definition getFuturesTicker (lastKnownPrice : option Q) (random : Q)
           (primary backup : TickerReply) : option Q * option Q :=
  let fromBackup :=
    match backup with
    | TickerResponse status (Some backupTicker) =>
        if status =? 200
        then Some (or_else (rt_lastPrice backupTicker) (rt_close backupTicker))
        else None
    | _ => None
    end in
  let simulated :=
    let mockPrice :=
      match FuturesApp.truthy_Q lastKnownPrice with
      | Some p => p
      | None => (80000 + random * 5000)%Q
      end in
    (Some (toFixed2 mockPrice), Some mockPrice) in
  let fallback :=
    match fromBackup with
    | Some lastPrice => (lastPrice, lastKnownPrice)
    | None => simulated
    end in
  match primary with
  | TickerResponse status (Some ticker) =>
      if status =? 200
      then (or_else (rt_lastPrice ticker) (rt_c ticker), lastKnownPrice)
      else fallback
  | _ => fallback
  end.

(** Neither endpoint gave a ticker. *)
Definition no_ticker (r : TickerReply) : Prop :=
  match r with
  | TickerResponse status (Some _) => status <> 200
  | _ => True
  end.

(** One entry of [this.wsPriceData]. *)
Record CachedPrice : Type := mkCachedPrice {
  cp_price : Q;
  cp_volume : Q;
  cp_timestamp : Z
}.

(** The state of the service's own WebSocket. [wsPriceData] is the object
    keyed by symbol. *)
Record Socket : Type := mkSocket {
  symbol : string;
  wsConnected : bool;
  wsReconnectAttempts : Z;
  hasSubscribed : bool;
  receivedMessages : Z;
  wsPriceData : string -> option CachedPrice;
  lastPrice : option Q
}.

(** A parsed message. In a ticker [s] is the symbol, [c] the price and [v]
    the volume, each [None] when the field is absent, empty or, for the
    numbers, not a numeral. *)
Inductive SocketMessage : Type :=
| TickerMessage (e : string) (s : option string) (c v : option Q)
| OtherMessage
| NotJson.

Inductive SocketEvent : Type :=
| Opened
| Received (message : SocketMessage) (now : Z)
| Closed.

(** What a handler does besides changing the state. *)
Inductive SocketEffect : Type :=
| SendSubscribe (symbolName : string)
| ScheduleReconnect (delay : Z)
| PriceCallback (symbolName : string) (price : Q).

(** [handleWebSocketReconnect()]. *)
Definition handleWebSocketReconnect (k : Socket) : Socket * list SocketEffect :=
  let attempts := wsReconnectAttempts k + 1 in
  let delay := Z.min 30000 (2 ^ attempts * 1000) in
  (mkSocket (symbol k) (wsConnected k) attempts (hasSubscribed k)
            (receivedMessages k) (wsPriceData k) (lastPrice k),
   [ScheduleReconnect delay]).

(** The listeners [initWebSocketConnection] installs; the socket is open
    when ['open'] and ['message'] fire. A price callback is registered. *)
Definition onEvent (k : Socket) (ev : SocketEvent)
  : Socket * list SocketEffect :=
  match ev with
  | Opened =>
      (mkSocket (symbol k) true 0 true (receivedMessages k) (wsPriceData k)
                (lastPrice k),
       [SendSubscribe (symbol k)])
  | Received NotJson _ => (k, [])
  | Received message now =>
      let n := receivedMessages k + 1 in
      match message with
      | TickerMessage e (Some s) (Some price) v =>
          if String.eqb e "ticker" && negb (String.eqb s "") then
            let entry :=
              mkCachedPrice price (TrailingStop.or_default v 0) now in
            (mkSocket (symbol k) (wsConnected k) (wsReconnectAttempts k)
                      (hasSubscribed k) n
                      (fun key => if String.eqb key s then Some entry
                                  else wsPriceData k key)
                      (if String.eqb s (symbol k) then Some price
                       else lastPrice k),
             [PriceCallback s price])
          else
            (mkSocket (symbol k) (wsConnected k) (wsReconnectAttempts k)
                      (hasSubscribed k) n (wsPriceData k) (lastPrice k), [])
      | _ =>
          (mkSocket (symbol k) (wsConnected k) (wsReconnectAttempts k)
                    (hasSubscribed k) n (wsPriceData k) (lastPrice k), [])
      end
  | Closed =>
      handleWebSocketReconnect
        (mkSocket (symbol k) false (wsReconnectAttempts k) (hasSubscribed k)
                  (receivedMessages k) (wsPriceData k) (lastPrice k))
  end.

(** [getCachedPrice(symbol, defaultValue)] at time [now]. *)
Definition getCachedPrice (k : Socket) (symbolName : string)
           (defaultValue : Q) (now : Z) : Q :=
  match wsPriceData k symbolName with
  | Some data =>
      if negb (Qeq_bool (cp_price data) 0) && (now - cp_timestamp data <? 60000)
      then cp_price data
      else defaultValue
  | None => defaultValue
  end.

(** The state after a sequence of events, and the reconnect delays
    scheduled on the way. *)
Fixpoint socket_run (k : Socket) (evs : list SocketEvent)
  : Socket * list Z :=
  match evs with
  | [] => (k, [])
  | ev :: rest =>
      let (k1, effs) := onEvent k ev in
      let (k2, delays) := socket_run k1 rest in
      (k2,
       flat_map (fun e => match e with
                          | ScheduleReconnect d => [d]
                          | _ => []
                          end) effs ++ delays)
  end.

(** A freshly constructed service. *)
Definition new_socket (symbolName : string) : Socket :=
  mkSocket symbolName false 0 false 0 (fun _ => None) None.

(** The last ticker for [symbolName] that a sequence of events stored:
    its price and the time it was received. *)
Fixpoint last_ticker (symbolName : string) (evs : list SocketEvent)
  : option (Q * Z) :=
  match evs with
  | [] => None
  | ev :: rest =>
      match last_ticker symbolName rest with
      | Some found => Some found
      | None =>
          match ev with
          | Received (TickerMessage e (Some s) (Some price) _) now =>
              if String.eqb e "ticker" && negb (String.eqb s "")
                 && String.eqb symbolName s
              then Some (price, now)
              else None
          | _ => None
          end
      end
  end.

Definition is_Closed (ev : SocketEvent) : bool :=
  match ev with Closed => true | _ => false end.

(** The exchange does not answer at all. *)
Definition unreachable (r : OrderRequest) : PostReply unit := NoAnswer unit.

(** ** Properties *)

Lemma orderRequest_fields (o : OrderData) (r : OrderRequest) :
  orderRequest o = Some r ->
  WsManager.truthy_str (od_orderType o) = Some (rq_orderType r)
  /\ rq_price r
     = (if String.eqb (rq_orderType r) "Limit"
        then FuturesApp.truthy_Q (od_price o) else None)
  /\ (String.eqb (rq_orderType r) "Limit" = true ->
      exists p, FuturesApp.truthy_Q (od_price o) = Some p /\ (0 < p)%Q).
Proof.
  unfold orderRequest.
  destruct (WsManager.truthy_str (od_symbol o)) as [sy|]; [|discriminate].
  destruct (WsManager.truthy_str (od_side o)) as [sd|]; [|discriminate].
  destruct (WsManager.truthy_str (od_orderType o)) as [ty|]; [|discriminate].
  destruct (FuturesApp.truthy_Q (od_quantity o)) as [q|]; [|discriminate].
  cbv zeta.
  destruct (String.eqb ty "Limit") eqn:Ety.
  - destruct (FuturesApp.truthy_Q (od_price o)) as [p|]; [|discriminate].
    simpl. destruct (Qle_bool p 0) eqn:Ep; [discriminate|].
    intro H. injection H as <-. simpl. rewrite Ety.
    repeat split. intros _. exists p. split; [reflexivity|].
    apply Strategy.Qle_bool_false. exact Ep.
  - simpl. intro H. injection H as <-. simpl. rewrite Ety.
    repeat split. discriminate.
Qed.

Lemma createFuturesOrder_posted Body (post : OrderRequest -> PostReply Body)
      mockMode o r :
  posted (createFuturesOrder post mockMode o) = Some r ->
  orderRequest o = Some r /\ mockMode = false.
Proof.
  unfold createFuturesOrder.
  destruct (orderRequest o) as [d|]; [|discriminate].
  destruct mockMode; [discriminate|].
  destruct (post d) as [st b|]; [destruct (_ || _)|]; simpl;
    intro H; injection H as <-; auto.
Qed.

(** X9. A request [createFuturesOrder] posts carries a price exactly when
    it is a Limit order, and that price is positive: a Limit order without
    a positive price is never posted, and the price given for an order of
    any other type is not sent. *)
Theorem posted_price_iff_limit Body (post : OrderRequest -> PostReply Body)
        (mockMode : bool) (orderData : OrderData) (r : OrderRequest) :
  posted (createFuturesOrder post mockMode orderData) = Some r ->
  (rq_price r <> None <-> rq_orderType r = "Limit"%string)
  /\ (forall p, rq_price r = Some p -> (0 < p)%Q).
Proof.
  intro H. apply createFuturesOrder_posted in H. destruct H as [H _].
  apply orderRequest_fields in H. destruct H as (_ & Hp & Hl).
  destruct (String.eqb (rq_orderType r) "Limit") eqn:E.
  - destruct (Hl eq_refl) as (p & Hq & Hpos). rewrite Hq in Hp.
    apply String.eqb_eq in E. split.
    + split; [intros _; exact E | intros _; rewrite Hp; discriminate].
    + intros p' Hp'. rewrite Hp in Hp'. injection Hp' as <-. exact Hpos.
  - apply String.eqb_neq in E. split.
    + split; [intro Hn; contradiction | intro Hn; contradiction].
    + intros p' Hp'. rewrite Hp in Hp'. discriminate.
Qed.

Lemma posted_price_iff_limit_witness :
  let o := options "BTC_USDC_PERP" "Sell" "Limit" 2 (Some 50000%Q) in
  let r := mkOrderRequest "BTC_USDC_PERP" "Ask" "Limit" 2 "GTC"
                          (Some 50000%Q) None in
  posted (createFuturesOrder unreachable false o) = Some r
  /\ (rq_price r <> None <-> rq_orderType r = "Limit"%string).
Proof.
  assert (H : posted (createFuturesOrder
                        unreachable false
                        (options "BTC_USDC_PERP" "Sell" "Limit" 2
                                 (Some 50000%Q)))
              = Some (mkOrderRequest "BTC_USDC_PERP" "Ask" "Limit" 2 "GTC"
                                     (Some 50000%Q) None))
    by reflexivity.
  split; [exact H|].
  exact (proj1 (@posted_price_iff_limit unit unreachable false _ _ H)).
Defined.

(** X10. Outside mock mode, for a symbol that is not empty and a quantity
    that is not 0, [setStopLossAndTakeProfit] asked for a stop at
    [stopLossPrice] first posts an order of type Stop on the closing side of
    the position (Ask for LONG, Bid otherwise) that carries no price at
    all: the stop price does not reach the exchange. *)
Theorem stop_order_carries_no_price Body (post : OrderRequest -> PostReply Body)
        (symbolName positionSide : string) (quantity stopLossPrice : Q)
        (takeProfitPrice : option Q) :
  symbolName <> ""%string -> ~ (quantity == 0)%Q ->
  exists rest,
    fst (setStopLossAndTakeProfit post false symbolName positionSide quantity
                                  (Some stopLossPrice) takeProfitPrice)
    = mkOrderRequest symbolName
                     (if String.eqb positionSide "LONG" then "Ask" else "Bid")
                     "Stop" quantity "GTC" None None
      :: rest.
Proof.
  intros Hs Hq.
  unfold setStopLossAndTakeProfit. cbv zeta.
  assert (Hreq :
    orderRequest
      (mkOrderData (Some symbolName)
         (Some (if String.eqb positionSide "LONG" then "Sell"%string
                else "Buy"%string))
         (Some "Stop"%string) (Some quantity) (Some stopLossPrice)
         (Some stopLossPrice) (Some "GTC"%string) None)
    = Some (mkOrderRequest symbolName
              (if String.eqb positionSide "LONG" then "Ask" else "Bid")
              "Stop" quantity "GTC" None None)).
  { unfold orderRequest. simpl.
    apply String.eqb_neq in Hs. rewrite Hs.
    apply Strategy.Qeq_bool_false in Hq. rewrite Hq.
    destruct (String.eqb positionSide "LONG"); reflexivity. }
  unfold createFuturesOrder at 1 2. rewrite Hreq.
  destruct (post _) as [st b|]; [destruct (_ || _)|]; simpl; eauto.
Qed.

Lemma stop_order_carries_no_price_witness :
  "BTC_USDC_PERP"%string <> ""%string /\ ~ (2 == 0)%Q
  /\ exists rest,
       fst (setStopLossAndTakeProfit unreachable false "BTC_USDC_PERP" "LONG"
                                     2 (Some 48500%Q) (Some 50200%Q))
       = mkOrderRequest "BTC_USDC_PERP" "Ask" "Stop" 2 "GTC" None None
         :: rest.
Proof.
  assert (H1 : "BTC_USDC_PERP"%string <> ""%string) by discriminate.
  assert (H2 : ~ (2 == 0)%Q) by discriminate.
  split; [exact H1|]. split; [exact H2|].
  exact (@stop_order_carries_no_price unit unreachable "BTC_USDC_PERP" "LONG"
                                      2 48500%Q (Some 50200%Q) H1 H2).
Defined.

Lemma total_wait_app tr1 tr2 :
  total_wait (tr1 ++ tr2) = total_wait tr1 + total_wait tr2.
Proof.
  induction tr1 as [|[|ms] tr1 IH]; simpl; lia.
Qed.

Lemma total_wait_backoff a k :
  0 <= a ->
  total_wait (Retry.backoff_from a k) = 500 * 2 ^ a * (2 ^ Z.of_nat k - 1).
Proof.
  revert a. induction k as [|k IH]; intros a Ha.
  - simpl. lia.
  - change (Retry.backoff_from a (S k))
      with (Retry.Invoke :: Retry.Sleep (2 ^ a * 500)
              :: Retry.backoff_from (a + 1) k).
    cbn [total_wait]. rewrite IH by lia.
    rewrite Nat2Z.inj_succ, !Z.pow_succ_r by lia.
    rewrite Z.pow_add_r by lia. lia.
Qed.

(** X11. Whatever the operation does, the time [executeWithRetry] spends
    waiting is [500 * (2^(k-1) - 1)] ms when it made [k] invocations: 0,
    500, 1500, 3500, ... ms; with [maxRetries = n >= 1] that is at most
    [500 * (2^(n-1) - 1)] ms. *)
Theorem executeWithRetry_total_wait (World Val Err : Type)
        (apiCall : World -> Retry.outcome Val Err * World)
        (n : Z) (w : World) :
  1 <= n ->
  let r := Retry.executeWithRetry apiCall n w in
  total_wait (Retry.trace r)
  = 500 * (2 ^ (Z.of_nat (Retry.invocations (Retry.trace r)) - 1) - 1)
  /\ total_wait (Retry.trace r) <= 500 * (2 ^ (n - 1) - 1).
Proof.
  intros Hn r. subst r. unfold Retry.executeWithRetry.
  assert (Hk : Z.of_nat (Z.to_nat n) = n - 0) by lia.
  pose proof (@Retry.retry_loop_spec _ _ _ apiCall n (Z.to_nat n) 0 None w Hk)
    as H.
  cbv zeta in H.
  assert (Hshape : exists j, (j < Z.to_nat n)%nat /\
            Retry.trace (Retry.retry_loop apiCall n (Z.to_nat n) 0 None w)
            = Retry.backoff_from 0 j ++ [Retry.Invoke]).
  { destruct H as [(j & v & Hj & _ & _ & _ & Htr & _) | (_ & _ & Hlast)].
    - exists j. auto.
    - destruct (Z.to_nat n) as [|k] eqn:E; [lia|].
      destruct Hlast as (e & _ & _ & Htr). exists k. split; [lia|assumption]. }
  destruct Hshape as (j & Hj & Htr). rewrite Htr.
  rewrite total_wait_app, Retry.invocations_app, Retry.invocations_backoff.
  rewrite total_wait_backoff by lia.
  change (total_wait [Retry.Invoke]) with 0.
  change (Retry.invocations [Retry.Invoke]) with 1%nat.
  replace (Z.of_nat (j + 1) - 1) with (Z.of_nat j) by lia.
  split; [lia|].
  assert (2 ^ Z.of_nat j <= 2 ^ (n - 1)) by (apply Z.pow_le_mono_r; lia).
  lia.
Qed.

Lemma executeWithRetry_total_wait_witness :
  1 <= 3
  /\ let r := Retry.executeWithRetry Retry.flaky 3 0%nat in
     total_wait (Retry.trace r)
     = 500 * (2 ^ (Z.of_nat (Retry.invocations (Retry.trace r)) - 1) - 1)
     /\ total_wait (Retry.trace r) <= 500 * (2 ^ (3 - 1) - 1).
Proof.
  assert (H : 1 <= 3) by lia.
  split; [exact H|].
  exact (@executeWithRetry_total_wait _ _ _ Retry.flaky 3 0%nat H).
Defined.

(** X12. When the first query for open orders reports none, or fails,
    [cancelAllOrders] returns [true] without sending a deletion: a failed
    query counts as nothing to cancel. *)
Theorem cancelAllOrders_nothing_found (x : Exchange) :
  hd GetFailed (gets x) = OpenOrders 0 \/ hd GetFailed (gets x) = GetFailed ->
  let '(ok, x', tr) := cancelAllOrders x in
  ok = true /\ calls x' = calls x ++ [GET] /\ tr = [].
Proof.
  intro H. unfold cancelAllOrders, getOpenOrders.
  destruct (gets x) as [|[n|] g]; simpl in *.
  - auto.
  - destruct H as [H|H]; [|discriminate]. injection H as ->. simpl. auto.
  - auto.
Qed.

Lemma cancelAllOrders_nothing_found_witness :
  (hd GetFailed (gets (mkExchange [GetFailed] [DeleteStatus 200] []))
   = OpenOrders 0
   \/ hd GetFailed (gets (mkExchange [GetFailed] [DeleteStatus 200] []))
      = GetFailed)
  /\ let '(ok, x', tr) :=
       cancelAllOrders (mkExchange [GetFailed] [DeleteStatus 200] []) in
     ok = true /\ calls x' = [] ++ [GET] /\ tr = [].
Proof.
  assert (H : hd GetFailed (gets (mkExchange [GetFailed] [DeleteStatus 200] []))
              = OpenOrders 0
              \/ hd GetFailed
                    (gets (mkExchange [GetFailed] [DeleteStatus 200] []))
                 = GetFailed) by (right; reflexivity).
  split; [exact H|].
  exact (@cancelAllOrders_nothing_found
           (mkExchange [GetFailed] [DeleteStatus 200] []) H).
Defined.






(** Two failures to connect, then an answer with status 200 and nothing
    left open. *)
Example cancelAllOrders_retried :
  cancelAllOrders
    (mkExchange [OpenOrders 2; OpenOrders 0]
                [DeleteFailed; DeleteFailed; DeleteStatus 200] [])
  = (true,
     mkExchange [] [] [GET; DELETE; DELETE; DELETE; Wait 1000; GET],
     [Retry.Invoke; Retry.Sleep 500; Retry.Invoke; Retry.Sleep 1000;
      Retry.Invoke]).
Proof. reflexivity. Qed.

(** Orders still open after an answered deletion: [false], no retry. *)
Example cancelAllOrders_not_retried :
  cancelAllOrders
    (mkExchange [OpenOrders 2; OpenOrders 1]
                [DeleteStatus 200; DeleteStatus 200] [])
  = (false,
     mkExchange [] [DeleteStatus 200] [GET; DELETE; Wait 1000; GET],
     [Retry.Invoke]).
Proof. reflexivity. Qed.

Lemma toFixed2_bounds (x : Q) (lo hi : Z) :
  (inject_Z lo <= x * 100)%Q -> (x * 100 < inject_Z hi)%Q ->
  (Qmake lo 100 <= toFixed2 x)%Q /\ (toFixed2 x <= Qmake hi 100)%Q.
Proof.
  intros Hlo Hhi. unfold toFixed2.
  assert (H1 : lo <= Qfloor (x * 100 + (1 # 2))%Q).
  { rewrite <- (Qfloor_Z lo). apply Qfloor_resp_le. lra. }
  assert (H2 : Qfloor (x * 100 + (1 # 2))%Q <= hi).
  { pose proof (Qfloor_le (x * 100 + (1 # 2))%Q) as Hf.
    assert (Hlt : (inject_Z (Qfloor (x * 100 + (1 # 2))%Q)
                   < inject_Z (hi + 1))%Q).
    { rewrite inject_Z_plus. eapply Qle_lt_trans; [exact Hf|].
      change (inject_Z 1) with 1%Q. clear Hf H1 Hlo. lra. }
    rewrite <- Zlt_Qlt in Hlt. lia. }
  split; unfold Qle; cbn [Qnum Qden]; lia.
Qed.

(** X14. When neither ticker endpoint gives a ticker, [getFuturesTicker]
    still returns one, with an invented price: on the first such call a
    price between 80000 and 85000 whatever the symbol is, and on every later
    such call that same price again, since it is kept as
    [lastKnownPrice]. *)
Theorem getFuturesTicker_invents_price
        (random1 random2 : Q) (primary1 backup1 primary2 backup2 : TickerReply) :
  no_ticker primary1 -> no_ticker backup1 ->
  no_ticker primary2 -> no_ticker backup2 ->
  (0 <= random1)%Q -> (random1 < 1)%Q ->
  let (lastPrice1, known1) :=
    getFuturesTicker None random1 primary1 backup1 in
  let (lastPrice2, known2) :=
    getFuturesTicker known1 random2 primary2 backup2 in
  (exists p, lastPrice1 = Some p /\ (80000 <= p)%Q /\ (p <= 85000)%Q)
  /\ lastPrice2 = lastPrice1 /\ known2 = known1.
Proof.
  intros Hp1 Hb1 Hp2 Hb2 H0 H1.
  assert (Hfall : forall known random primary backup,
             no_ticker primary -> no_ticker backup ->
             getFuturesTicker known random primary backup
             = let mockPrice :=
                 match FuturesApp.truthy_Q known with
                 | Some p => p
                 | None => (80000 + random * 5000)%Q
                 end in
               (Some (toFixed2 mockPrice), Some mockPrice)).
  { intros known random primary backup Hp Hb. unfold getFuturesTicker.
    assert (Hbk : match backup with
                  | TickerResponse status (Some backupTicker) =>
                      if status =? 200
                      then Some (or_else (rt_lastPrice backupTicker)
                                         (rt_close backupTicker))
                      else None
                  | _ => None
                  end = None).
    { destruct backup as [st [t|]|]; try reflexivity.
      simpl in Hb. apply Z.eqb_neq in Hb. now rewrite Hb. }
    rewrite Hbk.
    destruct primary as [st [t|]|]; try reflexivity.
    simpl in Hp. apply Z.eqb_neq in Hp. now rewrite Hp. }
  rewrite (Hfall None random1 _ _ Hp1 Hb1). cbv zeta. cbn [FuturesApp.truthy_Q].
  rewrite (Hfall _ random2 _ _ Hp2 Hb2). cbv zeta.
  assert (Hnz : Qeq_bool (80000 + random1 * 5000) 0 = false).
  { apply Strategy.Qeq_bool_false. lra. }
  cbn [FuturesApp.truthy_Q]. rewrite Hnz.
  split; [|split; reflexivity].
  exists (toFixed2 (80000 + random1 * 5000)). split; [reflexivity|].
  assert (Hb : (Qmake 8000000 100 <= toFixed2 (80000 + random1 * 5000))%Q
               /\ (toFixed2 (80000 + random1 * 5000) <= Qmake 8500000 100)%Q).
  { apply toFixed2_bounds.
    - change (inject_Z 8000000) with 8000000%Q. lra.
    - change (inject_Z 8500000) with 8500000%Q. lra. }
  destruct Hb as [Hlo Hhi].
  split.
  - eapply Qle_trans; [|exact Hlo]. unfold Qle. simpl. lia.
  - eapply Qle_trans; [exact Hhi|]. unfold Qle. simpl. lia.
Qed.

Lemma getFuturesTicker_invents_price_witness :
  no_ticker TickerError /\ no_ticker (TickerResponse 200 None)
  /\ (0 <= (1 # 2))%Q /\ ((1 # 2) < 1)%Q
  /\ let (lastPrice1, known1) :=
       getFuturesTicker None (1 # 2) TickerError (TickerResponse 200 None) in
     let (lastPrice2, known2) :=
       getFuturesTicker known1 0 TickerError TickerError in
     (exists p, lastPrice1 = Some p /\ (80000 <= p)%Q /\ (p <= 85000)%Q)
     /\ lastPrice2 = lastPrice1 /\ known2 = known1.
Proof.
  assert (H0 : (0 <= (1 # 2))%Q) by discriminate.
  assert (H1 : ((1 # 2) < 1)%Q) by reflexivity.
  split; [exact I|]. split; [exact I|]. split; [exact H0|]. split; [exact H1|].
  exact (@getFuturesTicker_invents_price
           (1 # 2) 0 TickerError (TickerResponse 200 None)
           TickerError TickerError I I I I H0 H1).
Defined.

Lemma socket_run_cons k ev rest :
  socket_run k (ev :: rest)
  = (fst (socket_run (fst (onEvent k ev)) rest),
     flat_map (fun e => match e with
                        | ScheduleReconnect d => [d]
                        | _ => []
                        end) (snd (onEvent k ev))
     ++ snd (socket_run (fst (onEvent k ev)) rest)).
Proof.
  cbn [socket_run]. destruct (onEvent k ev) as [k1 effs]. cbn [fst snd].
  destruct (socket_run k1 rest) as [k2 delays]. reflexivity.
Qed.

(** What one event does to the cache entry of [symbolName]. *)
Lemma onEvent_cache k ev symbolName :
  wsPriceData (fst (onEvent k ev)) symbolName
  = match last_ticker symbolName [ev] with
    | Some (price, now) =>
        match ev with
        | Received (TickerMessage _ _ _ v) _ =>
            Some (mkCachedPrice price (TrailingStop.or_default v 0) now)
        | _ => None
        end
    | None => wsPriceData k symbolName
    end.
Proof.
  destruct ev as [|[e [s|] [c|] v| |] now|]; try reflexivity.
  simpl.
  destruct (String.eqb e "ticker" && negb (String.eqb s "")) eqn:E; simpl;
    [|reflexivity].
  destruct (String.eqb symbolName s); reflexivity.
Qed.

Lemma getCachedPrice_run evs :
  forall k symbolName defaultValue now,
    getCachedPrice (fst (socket_run k evs)) symbolName defaultValue now
    = match last_ticker symbolName evs with
      | Some (price, received) =>
          if negb (Qeq_bool price 0) && (now - received <? 60000)
          then price else defaultValue
      | None => getCachedPrice k symbolName defaultValue now
      end.
Proof.
  induction evs as [|ev rest IH]; intros k sy d now; [reflexivity|].
  rewrite socket_run_cons. cbn [fst]. rewrite IH.
  cbn [last_ticker].
  destruct (last_ticker sy rest) as [[p t]|]; [reflexivity|].
  unfold getCachedPrice at 1. rewrite onEvent_cache.
  cbn [last_ticker].
  destruct ev as [|[e [s|] [c|] v| |] t|]; try reflexivity.
  destruct (String.eqb e "ticker" && negb (String.eqb s "")
            && String.eqb sy s); reflexivity.
Qed.

(** X15. After any sequence of socket events on a fresh service,
    [getCachedPrice] returns the price of the last ticker message received
    for that symbol if that price is not 0 and the message arrived less than
    60 s ago, and the default value otherwise; connections opening and
    closing in between, other messages and tickers of other symbols do not
    change the answer. *)
Theorem getCachedPrice_last_ticker (own : string) (evs : list SocketEvent)
        (symbolName : string) (defaultValue : Q) (now : Z) :
  getCachedPrice (fst (socket_run (new_socket own) evs))
                 symbolName defaultValue now
  = match last_ticker symbolName evs with
    | Some (price, received) =>
        if negb (Qeq_bool price 0) && (now - received <? 60000)
        then price else defaultValue
    | None => defaultValue
    end.
Proof.
  rewrite getCachedPrice_run.
  destruct (last_ticker symbolName evs) as [[p t]|]; reflexivity.
Qed.

Lemma reconnect_delay_bounds (a : Z) :
  0 <= a -> 2000 <= Z.min 30000 (2 ^ (a + 1) * 1000) <= 30000.
Proof.
  intro Ha.
  assert (2 ^ 1 <= 2 ^ (a + 1)) by (apply Z.pow_le_mono_r; lia).
  change (2 ^ 1) with 2 in *. lia.
Qed.

Lemma onEvent_attempts k ev :
  0 <= wsReconnectAttempts k ->
  0 <= wsReconnectAttempts (fst (onEvent k ev)).
Proof.
  intro H.
  destruct ev as [|[e [s|] [c|] v| |] now|]; simpl; try lia.
  destruct (String.eqb e "ticker" && negb (String.eqb s "")); simpl; lia.
Qed.

Lemma onEvent_delays k ev :
  0 <= wsReconnectAttempts k ->
  let delays :=
    flat_map (fun e => match e with
                       | ScheduleReconnect d => [d]
                       | _ => []
                       end) (snd (onEvent k ev)) in
  List.length delays = (if is_Closed ev then 1 else 0)%nat
  /\ Forall (fun d => 2000 <= d <= 30000) delays.
Proof.
  intro H.
  destruct ev as [|[e [s|] [c|] v| |] now|]; simpl; auto.
  - destruct (String.eqb e "ticker" && negb (String.eqb s "")); simpl; auto.
  - split; [reflexivity|]. constructor; [|constructor].
    now apply reconnect_delay_bounds.
Qed.

(** X16. The service's own socket never gives up: over any sequence of
    events, every close of the connection schedules exactly one reconnect,
    and each is scheduled between 2 s and 30 s ahead. *)
Theorem service_socket_always_reconnects (k : Socket) (evs : list SocketEvent) :
  0 <= wsReconnectAttempts k ->
  List.length (snd (socket_run k evs)) = List.length (filter is_Closed evs)
  /\ Forall (fun d => 2000 <= d <= 30000) (snd (socket_run k evs)).
Proof.
  revert k. induction evs as [|ev rest IH]; intros k Hk.
  - simpl. auto.
  - rewrite socket_run_cons. cbn [snd].
    destruct (@onEvent_delays k ev Hk) as [Hlen Hall].
    destruct (IH _ (@onEvent_attempts k ev Hk)) as [IHlen IHall].
    split.
    + rewrite length_app, Hlen, IHlen. simpl.
      destruct (is_Closed ev); reflexivity.
    + apply Forall_app. split; assumption.
Qed.

Lemma service_socket_always_reconnects_witness :
  0 <= wsReconnectAttempts (new_socket "BTC_USDC_PERP")
  /\ List.length
       (snd (socket_run (new_socket "BTC_USDC_PERP")
                        [Closed; Closed; Opened; Closed]))
     = List.length (filter is_Closed [Closed; Closed; Opened; Closed]).
Proof.
  assert (H : 0 <= wsReconnectAttempts (new_socket "BTC_USDC_PERP"))
    by (simpl; lia).
  split; [exact H|].
  exact (proj1 (@service_socket_always_reconnects
                  (new_socket "BTC_USDC_PERP")
                  [Closed; Closed; Opened; Closed] H)).
Defined.

(** The delays of seven closes in a row, and of a close after an open. *)
Example service_reconnect_delays :
  snd (socket_run (new_socket "BTC_USDC_PERP")
                  [Closed; Closed; Closed; Closed; Closed; Closed; Opened;
                   Closed])
  = [2000; 4000; 8000; 16000; 30000; 30000; 2000].
Proof. reflexivity. Qed.

End Service.

(* ================================================================== *)
(** * OrderLadderPlanner: [calculateFuturesOrders] and the ladder's budget *)
(* ================================================================== *)

Module Ladder.

Import Planner.

Local Open Scope Q_scope.


Section Futures.

(** The two roundings of [Formatter], and the ladder builder of the base
    class, [TradingStrategy.calculateIncrementalOrders]
    (src/core/tradingStrategy.js); neither file is part of the sources. *)
Variables adjustPriceToTickSize adjustQuantityToStepSize : Q -> Q.
Variable calculateIncrementalOrders : Q -> Q -> Q -> nat -> Q -> Q -> list Order.

(** [this.positionSide] and [this.leverage]. *)
Variable positionSide : string.
Variable leverage : Q.


End Futures.



Lemma Qsum_lt (A : Type) (f g : A -> Q) (l : list A) :
  (forall x, f x < g x) -> l <> [] -> Qsum (map f l) < Qsum (map g l).
Proof.
  intros H. induction l as [|x l IH]; intro Hne; [congruence|].
  simpl. destruct l as [|y l].
  - simpl. specialize (H x). lra.
  - assert (Qsum (map f (y :: l)) < Qsum (map g (y :: l)))
      by (apply IH; congruence).
    specialize (H x). lra.
Qed.

Lemma seq_nonempty n : (2 <= n)%nat -> seq 0 n <> [].
Proof. intro H. destruct n; [lia|]. simpl. congruence. Qed.


(** The minimum binds: the ladder built on it overshoots the total, and is
    scaled down by a factor below 1. *)
Lemma clamped (totalAmount : Q) (n : nat) (increment minOrderAmount : Q) :
  0 < totalAmount -> (2 <= n)%nat -> 0 < increment ->
  calculatedBaseAmount totalAmount n increment < minOrderAmount ->
  baseAmount totalAmount n increment minOrderAmount = minOrderAmount
  /\ totalAmount < actualTotalAmount totalAmount n increment minOrderAmount
  /\ scale totalAmount n increment minOrderAmount < 1.
Proof.
  intros Hta Hn Hinc Hlt.
  assert (Hb : baseAmount totalAmount n increment minOrderAmount
               = minOrderAmount).
  { unfold baseAmount, Math_max.
    assert (Hq : Qle_bool minOrderAmount
                          (calculatedBaseAmount totalAmount n increment)
                 = false)
      by (apply Strategy.Qle_bool_false; assumption).
    now rewrite Hq. }
  assert (Hr : 0 < r increment) by (pose proof (r_gt_1 Hinc); lra).
  assert (Ha : totalAmount
               < actualTotalAmount totalAmount n increment minOrderAmount).
  { rewrite actualTotalAmount_Qsum, Hb.
    rewrite <- (@calculatedBaseAmount_solves totalAmount n increment)
      at 1 by (assumption || lia).
    apply Qsum_lt; [|now apply seq_nonempty].
    intro i. pose proof (Math_pow_pos i Hr). nra. }
  split; [assumption|]. split; [assumption|].
  destruct (@scale_cases totalAmount n increment minOrderAmount Hta)
    as [(_ & _ & H) | (H & _)].
  - exact H.
  - lra.
Qed.




(** X18. For a valid short-ladder input whose closed-form base amount is
    below the minimum order amount, with roundings that keep a non-negative
    price non-negative and round the quantity down, the first rung is never
    returned: raised to the minimum and then scaled down with the rest, it
    fails the minimum-amount test. The ladder has fewer orders than asked
    for. *)
Theorem ladder_drops_first_rung
        (adjP adjQ : Q -> Q) (currentPrice maxRise totalAmount : Q) (n : nat)
        (increment minOrderAmount : Q) :
  0 < currentPrice -> 0 < totalAmount -> 0 < minOrderAmount ->
  (2 <= n)%nat -> 0 < increment -> 0 <= maxRise ->
  (forall p, 0 <= p -> 0 <= adjP p) ->
  (forall q, adjQ q <= q) ->
  calculatedBaseAmount totalAmount n increment < minOrderAmount ->
  let rungOf := rung adjP adjQ currentPrice maxRise totalAmount n increment
                     minOrderAmount in
  let orders := calculateShortOrders adjP adjQ currentPrice maxRise
                                     totalAmount n increment minOrderAmount in
  amount (rungOf 0%nat) < minOrderAmount
  /\ orders = filter (kept minOrderAmount) (map rungOf (seq 1 (n - 1)))
  /\ (List.length orders < n)%nat.
Proof.
  intros Hcp Hta Hmin Hn Hinc Hmr HadjP HadjQ Hcalc rungOf orders.
  destruct (@clamped totalAmount n increment minOrderAmount Hta Hn Hinc Hcalc)
    as (Hb & Ha & Hf).
  assert (H0 : amount (rungOf 0%nat) < minOrderAmount).
  { pose proof (@rung_amount_le adjP adjQ currentPrice maxRise totalAmount n
                                increment minOrderAmount Hcp Hta Hmin Hn Hinc
                                Hmr HadjP HadjQ 0%nat) as Hle.
    fold rungOf in Hle.
    eapply Qle_lt_trans; [exact Hle|].
    unfold orderAmount. rewrite Hb. cbn [Math_pow]. nra. }
  assert (Horders :
    orders = filter (kept minOrderAmount) (map rungOf (seq 1 (n - 1)))).
  { unfold orders, calculateShortOrders. fold rungOf.
    destruct n as [|k]; [lia|].
    replace (S k - 1)%nat with k by lia. cbn [seq map filter].
    assert (Hk : kept minOrderAmount (rungOf 0%nat) = false)
      by (unfold kept; apply Strategy.Qle_bool_false; assumption).
    now rewrite Hk. }
  split; [assumption|]. split; [assumption|].
  rewrite Horders.
  eapply Nat.le_lt_trans; [apply filter_length_le|].
  rewrite length_map, length_seq. lia.
Qed.

Lemma ladder_drops_first_rung_witness :
  0 < 100 /\ 0 < 30 /\ 0 < 10 /\ (2 <= 3)%nat /\ 0 < 50 /\ 0 <= 3
  /\ calculatedBaseAmount 30 3 50 < 10
  /\ (List.length
        (calculateShortOrders (floorToStep (1#100)) (floorToStep (1#100000))
                              100 3 30 3 50 10) < 3)%nat.
Proof.
  assert (Hp : 0 < 100) by reflexivity.
  assert (Ht : 0 < 30) by reflexivity.
  assert (Hm : 0 < 10) by reflexivity.
  assert (Hn : (2 <= 3)%nat) by lia.
  assert (Hi : 0 < 50) by reflexivity.
  assert (Hr : 0 <= 3) by discriminate.
  assert (Hc : calculatedBaseAmount 30 3 50 < 10) by (vm_compute; reflexivity).
  pose proof (@ladder_drops_first_rung
                (floorToStep (1#100)) (floorToStep (1#100000))
                100 3 30 3 50 10 Hp Ht Hm Hn Hi Hr
                (fun p => @floorToStep_nonneg (1#100) p eq_refl)
                (fun q => @floorToStep_le (1#100000) q eq_refl) Hc) as H.
  cbv zeta in H. destruct H as (_ & _ & Hlen).
  repeat (split; [assumption|]). assumption.
Defined.



(** The clamped ladder of the witness: three rungs asked for, the first
    dropped, and here the second as well. *)
Example clamped_ladder :
  map (fun o => (Qred (price o), Qred (amount o)))
      (calculateShortOrders (floorToStep (1#100)) (floorToStep (1#100000))
                            100 3 30 3 50 10)
  = [(103, 355247 # 25000)].
Proof. vm_compute. reflexivity. Qed.

End Ladder.

(* ================================================================== *)
(** * ConnectionManager: invariants of the event loop *)
(* ================================================================== *)

Module WsFacts.

Import WsManager.

Local Open Scope Z_scope.

(** The connection ids of the sockets created, and the delays of the
    reconnect timers set, among some effects. *)
Definition new_sockets (effs : list Effect) : list Z :=
  flat_map (fun e => match e with NewWebSocket c => [c] | _ => [] end) effs.

Definition reconnect_delays (effs : list Effect) : list Q :=
  flat_map (fun e => match e with SetReconnectTimer d => [d] | _ => [] end)
           effs.

(** [this.reconnectDelay || 5000]. *)
Definition baseDelay (m : Manager) : Z :=
  match reconnectDelay m with
  | Some d => if d =? 0 then 5000 else d
  | None => 5000
  end.

(** The socket the manager holds, if any, was created under the current
    connection id. *)
Definition ws_current (m : Manager) : Prop :=
  forall s, ws m = Some s -> conn s = connectionId m.

(** A delay between the base delay and the cap of one minute. *)
Definition delay_ok (base : Z) (d : Q) : Prop :=
  (Math_min (inject_Z base) 60000 <= d)%Q /\ (d <= 60000)%Q.

(** The entries of the dedup cache have distinct keys. *)
Definition distinct_keys (m : Manager) : Prop :=
  NoDup (map fst (processedMessages m)).

(** What a handler other than the sweep does to the dedup cache: nothing,
    clear it, or add one entry under a key that was not there. *)
Definition cache_grows (m m' : Manager) : Prop :=
  processedMessages m' = processedMessages m
  \/ processedMessages m' = []
  \/ exists id t, has id (processedMessages m) = false
                  /\ processedMessages m' = processedMessages m ++ [(id, t)].

(** What every handler keeps: connection ids only grow, sockets are created
    under fresh, increasing ids, reconnect delays stay in range. *)
Record advances (m : Manager) (r : Manager * list Effect) : Prop := mkAdvances {
  a_id : connectionId m <= connectionId (fst r);
  a_delay : reconnectDelay (fst r) = reconnectDelay m;
  a_attempts : 0 <= reconnectAttempts m -> 0 <= reconnectAttempts (fst r);
  a_timers : 0 <= reconnectAttempts m -> 0 < baseDelay m ->
             Forall (delay_ok (baseDelay m)) (reconnect_delays (snd r));
  a_sorted : StronglySorted Z.lt (new_sockets (snd r));
  a_fresh : Forall (fun c => connectionId m < c <= connectionId (fst r))
                   (new_sockets (snd r));
  a_current : ws_current m -> ws_current (fst r);
  a_max : maxProcessedMessages (fst r) = maxProcessedMessages m;
  a_keys : distinct_keys m -> distinct_keys (fst r)
}.

(** A handler that neither connects nor schedules a reconnect. *)
Definition quietly (m : Manager) (r : Manager * list Effect) : Prop :=
  connectionId (fst r) = connectionId m
  /\ reconnectDelay (fst r) = reconnectDelay m
  /\ (ws (fst r) = None \/ ws (fst r) = ws m)
  /\ (reconnectAttempts (fst r) = reconnectAttempts m
      \/ reconnectAttempts (fst r) = 0)
  /\ new_sockets (snd r) = []
  /\ reconnect_delays (snd r) = []
  /\ maxProcessedMessages (fst r) = maxProcessedMessages m
  /\ cache_grows m (fst r).

Lemma new_sockets_app e1 e2 :
  new_sockets (e1 ++ e2) = new_sockets e1 ++ new_sockets e2.
Proof. unfold new_sockets. apply flat_map_app. Qed.

Lemma reconnect_delays_app e1 e2 :
  reconnect_delays (e1 ++ e2) = reconnect_delays e1 ++ reconnect_delays e2.
Proof. unfold reconnect_delays. apply flat_map_app. Qed.

Lemma baseDelay_eq m m' :
  reconnectDelay m' = reconnectDelay m -> baseDelay m' = baseDelay m.
Proof. unfold baseDelay. now intros ->. Qed.

Lemma has_In key entries : has key entries = true <-> In key (map fst entries).
Proof.
  induction entries as [|[k t] l IH]; simpl.
  - split; [discriminate | contradiction].
  - rewrite orb_true_iff, IH, String.eqb_eq. tauto.
Qed.

Lemma cache_grows_distinct m m' :
  cache_grows m m' -> distinct_keys m -> distinct_keys m'.
Proof.
  unfold distinct_keys. intros [-> | [-> | (id & t & Hh & ->)]] H.
  - assumption.
  - constructor.
  - rewrite map_app. cbn [map fst].
    apply NoDup_rev in H. rewrite <- (rev_involutive (_ ++ _)).
    apply NoDup_rev. rewrite rev_app_distr. cbn [rev app].
    constructor; [|assumption].
    rewrite <- in_rev. intro Hin. apply has_In in Hin. congruence.
Qed.

Lemma quietly_advances m r : quietly m r -> advances m r.
Proof.
  intros (Hid & Hd & Hws & Ha & Hs & Ht & Hm & Hg).
  constructor.
  - lia.
  - assumption.
  - intro H0. destruct Ha as [-> | ->]; lia.
  - intros _ _. rewrite Ht. constructor.
  - rewrite Hs. constructor.
  - rewrite Hs. constructor.
  - intros Hc s Hs'. rewrite Hid.
    destruct Hws as [Hn | He]; [congruence|]. apply Hc. congruence.
  - assumption.
  - now apply cache_grows_distinct.
Qed.

Ltac quiet_now :=
  unfold quietly, cache_grows; cbn; repeat split; eauto 6.

Lemma advances_refl m : advances m (m, []).
Proof. apply quietly_advances. quiet_now. Qed.

Lemma StronglySorted_app_lt (l1 l2 : list Z) (b : Z) :
  StronglySorted Z.lt l1 -> StronglySorted Z.lt l2 ->
  Forall (fun c => c <= b) l1 -> Forall (fun c => b < c) l2 ->
  StronglySorted Z.lt (l1 ++ l2).
Proof.
  intros H1 H2 Hb1 Hb2. induction H1 as [|x l1 Hs IH Hall]; simpl.
  - assumption.
  - inversion Hb1 as [|? ? Hx Hl1]; subst.
    constructor; [now apply IH|].
    apply Forall_app. split; [assumption|].
    eapply Forall_impl; [|exact Hb2]. simpl. intros c Hc. lia.
Qed.

(** One handler after another. *)
Lemma advances_seq m r1 r2 :
  advances m r1 -> advances (fst r1) r2 ->
  advances m (fst r2, snd r1 ++ snd r2).
Proof.
  intros [i1 d1 t1 q1 s1 f1 c1 x1 k1] [i2 d2 t2 q2 s2 f2 c2 x2 k2].
  constructor; cbn [fst snd]; [| | | | | | |congruence|auto].
  - lia.
  - congruence.
  - auto.
  - intros H0 Hb. rewrite reconnect_delays_app. apply Forall_app. split.
    + auto.
    + rewrite <- (@baseDelay_eq _ _ d1). apply q2; [auto|].
      now rewrite (@baseDelay_eq _ _ d1).
  - rewrite new_sockets_app.
    apply StronglySorted_app_lt with (b := connectionId (fst r1)); auto.
    + eapply Forall_impl; [|exact f1]. simpl. intros c Hc. lia.
    + eapply Forall_impl; [|exact f2]. simpl. intros c Hc. lia.
  - rewrite new_sockets_app. apply Forall_app. split.
    + eapply Forall_impl; [|exact f1]. simpl. intros c Hc. lia.
    + eapply Forall_impl; [|exact f2]. simpl. intros c Hc. lia.
  - auto.
Qed.

Ltac cases :=
  repeat match goal with
         | |- context [match ?x with _ => _ end] =>
             lazymatch x with
             | context [match _ with _ => _ end] => fail
             | _ => destruct x eqn:?
             end
         end.

Ltac quiet_by_cases :=
  cases; cbn in *; quiet_now.

Lemma closeWebSocket_quietly now m : quietly m (closeWebSocket now m).
Proof. unfold quietly, closeWebSocket. destruct m. quiet_by_cases. Qed.

Lemma resetConnectionState_quietly m : quietly m (resetConnectionState m, []).
Proof. unfold quietly, resetConnectionState. destruct m. quiet_by_cases. Qed.

Lemma closeAllConnections_quietly now m : quietly m (closeAllConnections now m).
Proof.
  unfold quietly, closeAllConnections, closeWebSocket. destruct m.
  quiet_by_cases.
Qed.

Lemma subscribeTicker_quietly sym now m : quietly m (subscribeTicker sym now m).
Proof. unfold quietly, subscribeTicker. destruct m. quiet_by_cases. Qed.

Lemma resetConnection_quietly now m : quietly m (resetConnection now m).
Proof.
  unfold quietly, resetConnection, closeWebSocket. destruct m. quiet_by_cases.
Qed.

Lemma heartbeatTick_quietly ping_ok now m :
  quietly m (heartbeatTick ping_ok now m).
Proof.
  unfold quietly, heartbeatTick, resetConnection, closeWebSocket. destruct m.
  quiet_by_cases.
Qed.

Lemma filter_all (A : Type) (f : A -> bool) (l : list A) :
  (forall x, In x l -> f x = true) -> filter f l = l.
Proof.
  induction l as [|x l IH]; intro H; simpl; [reflexivity|].
  rewrite (H x (or_introl eq_refl)), IH; [reflexivity|].
  intros y Hy. apply H. now right.
Qed.

Lemma filter_none (A : Type) (f : A -> bool) (l : list A) :
  (forall x, In x l -> f x = false) -> filter f l = [].
Proof.
  induction l as [|x l IH]; intro H; simpl; [reflexivity|].
  rewrite (H x (or_introl eq_refl)). apply IH.
  intros y Hy. apply H. now right.
Qed.

Lemma filter_length_Permutation (A : Type) (f : A -> bool) (l l' : list A) :
  Permutation l l' -> List.length (filter f l) = List.length (filter f l').
Proof.
  induction 1 as [|x l l' _ IH|x y l|l l' l'' _ IH1 _ IH2]; simpl.
  - reflexivity.
  - destruct (f x); simpl; congruence.
  - destruct (f x), (f y); reflexivity.
  - congruence.
Qed.

Lemma insert_by_time_Permutation e l : Permutation (e :: l) (insert_by_time e l).
Proof.
  induction l as [|x l IH]; simpl; [apply Permutation_refl|].
  destruct (snd x <=? snd e); [|apply Permutation_refl].
  eapply Permutation_trans; [apply perm_swap|]. now apply perm_skip.
Qed.

Lemma sort_by_time_Permutation l : Permutation l (sort_by_time l).
Proof.
  induction l as [|e l IH]; simpl; [apply Permutation_refl|].
  eapply Permutation_trans; [|apply insert_by_time_Permutation].
  now apply perm_skip.
Qed.

Lemma NoDup_keys_filter (f : string * Z -> bool) (l : list (string * Z)) :
  NoDup (map fst l) -> NoDup (map fst (filter f l)).
Proof.
  induction l as [|x l IH]; intro H; simpl; [constructor|].
  simpl in H. inversion H as [|? ? Hx Hl]; subst.
  destruct (f x); [|now apply IH].
  simpl. constructor; [|now apply IH].
  intro Hin. apply Hx. apply in_map_iff in Hin.
  destruct Hin as (y & Hy & Hyin). apply filter_In in Hyin.
  apply in_map_iff. exists y. tauto.
Qed.

Lemma existsb_key k (keys : list string) :
  existsb (String.eqb k) keys = true <-> In k keys.
Proof.
  rewrite existsb_exists. split.
  - intros (x & Hx & He). apply String.eqb_eq in He. now subst.
  - intro H. exists k. split; [assumption|apply String.eqb_refl].
Qed.

(** Removing the entries whose keys are those of a prefix removes exactly
    that prefix. *)
Lemma remove_prefix_keys (l1 l2 : list (string * Z)) :
  NoDup (map fst (l1 ++ l2)) ->
  filter (fun e => negb (existsb (String.eqb (fst e)) (map fst l1)))
         (l1 ++ l2) = l2.
Proof.
  intro H. rewrite filter_app.
  rewrite filter_none, filter_all; [reflexivity| |].
  - intros e He. apply negb_true_iff.
    destruct (existsb (String.eqb (fst e)) (map fst l1)) eqn:E; [|reflexivity].
    apply existsb_key in E. exfalso.
    rewrite map_app in H. clear - H E He.
    induction l1 as [|x l1 IH]; [contradiction|].
    simpl in H. inversion H as [|? ? Hx Hl]; subst.
    destruct E as [E | E].
    + apply Hx. rewrite E. apply in_or_app. right. now apply in_map.
    + now apply IH.
  - intros e He. apply negb_false_iff. apply existsb_key. now apply in_map.
Qed.

(** [cleanupTick] changes nothing but the dedup cache. *)
Lemma cleanupTick_frame now m :
  exists entries,
    cleanupTick now m = set_processedMessages entries m
    /\ (processedMessages m = [] -> entries = [])
    /\ (processedMessages m <> [] ->
        let live := filter (fun e => negb (now - snd e >? expireTime))
                           (processedMessages m) in
        let size := Z.of_nat (List.length live) in
        entries
        = if size >? maxProcessedMessages m
          then filter (fun e =>
                         negb (existsb (String.eqb (fst e))
                                 (map fst
                                    (firstn (Z.to_nat
                                               (size - maxProcessedMessages m))
                                            (sort_by_time live)))))
                      live
          else live).
Proof.
  unfold cleanupTick. destruct (processedMessages m) as [|e l] eqn:E.
  - exists []. split; [|split; [reflexivity|congruence]].
    destruct m; cbn in *. now subst.
  - cbv zeta. destruct (_ >? _); eexists; split; try reflexivity;
      split; intros; (congruence || reflexivity).
Qed.

Lemma cleanupTick_spec now m :
  distinct_keys m -> 0 <= maxProcessedMessages m ->
  let kept := processedMessages (cleanupTick now m) in
  Z.of_nat (List.length kept) <= maxProcessedMessages m
  /\ Forall (fun e => now - snd e <= expireTime) kept
  /\ incl kept (processedMessages m)
  /\ NoDup (map fst kept).
Proof.
  intros Hk Hmax kept. subst kept.
  destruct (cleanupTick_frame now m) as (entries & -> & Hnil & Hcons).
  assert (Hp : processedMessages (set_processedMessages entries m) = entries)
    by (destruct m; reflexivity).
  rewrite Hp.
  destruct (processedMessages m) as [|e0 l0] eqn:E.
  { rewrite (Hnil eq_refl). simpl. repeat split; try constructor; try lia.
    intros x Hx. contradiction. }
  specialize (Hcons ltac:(congruence)). cbv zeta in Hcons.
  set (live := filter (fun e => negb (now - snd e >? expireTime)) (e0 :: l0))
    in *.
  assert (Hlive_fresh : forall e, In e live -> now - snd e <= expireTime).
  { intros e He. apply filter_In in He. destruct He as [_ He].
    apply negb_true_iff in He. lia. }
  assert (Hlive_incl : incl live (e0 :: l0)).
  { intros e He. apply filter_In in He. tauto. }
  assert (Hlive_keys : NoDup (map fst live)).
  { unfold live. apply NoDup_keys_filter. unfold distinct_keys in Hk.
    now rewrite E in Hk. }
  destruct (Z.of_nat (List.length live) >? maxProcessedMessages m) eqn:Hover.
  - set (k := Z.to_nat (Z.of_nat (List.length live) - maxProcessedMessages m))
      in *.
    set (S := sort_by_time live) in *.
    pose proof (sort_by_time_Permutation live) as Hperm. fold S in Hperm.
    assert (HS : NoDup (map fst S)).
    { eapply Permutation_NoDup; [|exact Hlive_keys].
      now apply Permutation_map. }
    pose proof (@remove_prefix_keys (firstn k S) (skipn k S)) as Hrm.
    rewrite firstn_skipn in Hrm. specialize (Hrm HS).
    assert (Hlen : List.length entries = (List.length live - k)%nat).
    { rewrite Hcons.
      rewrite (filter_length_Permutation _ Hperm), Hrm, length_skipn.
      now rewrite <- (Permutation_length Hperm). }
    split; [|split; [|split]].
    + rewrite Hlen. lia.
    + apply Forall_forall. intros e He. rewrite Hcons in He.
      apply filter_In in He. apply Hlive_fresh. tauto.
    + intros e He. rewrite Hcons in He. apply filter_In in He.
      apply Hlive_incl. tauto.
    + rewrite Hcons. now apply NoDup_keys_filter.
  - rewrite Hcons. split; [lia|]. split; [now apply Forall_forall|].
    split; assumption.
Qed.

Lemma cleanupTick_advances now m : advances m (cleanupTick now m, []).
Proof.
  cbn [fst snd].
  destruct (cleanupTick_frame now m) as (entries & Heq & _).
  constructor; cbn [fst snd new_sockets reconnect_delays flat_map];
    try constructor.
  - rewrite Heq. destruct m; cbn; lia.
  - rewrite Heq. destruct m; reflexivity.
  - rewrite Heq. destruct m; cbn; auto.
  - rewrite Heq. unfold ws_current. destruct m; cbn; auto.
  - rewrite Heq. destruct m; reflexivity.
  - intro Hk. unfold distinct_keys.
    destruct (Z_le_gt_dec 0 (maxProcessedMessages m)) as [Hm|Hm].
    + apply (cleanupTick_spec now Hk Hm).
    + (* a negative capacity: every live entry is over it *)
      destruct (cleanupTick_frame now m) as (en & -> & Hnil & Hcons).
      assert (Hp : processedMessages (set_processedMessages en m) = en)
        by (destruct m; reflexivity).
      rewrite Hp.
      destruct (processedMessages m) as [|e0 l0] eqn:E.
      * rewrite (Hnil eq_refl). constructor.
      * specialize (Hcons ltac:(congruence)). cbv zeta in Hcons.
        rewrite Hcons. unfold distinct_keys in Hk. rewrite E in Hk.
        destruct (_ >? _); repeat apply NoDup_keys_filter; assumption.
Qed.


Lemma processMessage_quietly message recv now m :
  let r := processMessage message recv now m in
  quietly m (fst (fst r), snd (fst r)).
Proof.
  unfold quietly, processMessage. destruct m. quiet_by_cases.
Qed.

Lemma onMessage_quietly cl frame recv now m :
  quietly m (onMessage cl frame recv now m).
Proof.
  unfold onMessage. destruct (stale cl m); [quiet_now|].
  destruct frame as [message|]; [|quiet_now].
  pose proof (processMessage_quietly message recv now m) as H.
  cbv zeta in H.
  destruct (processMessage message recv now m) as [[m' effs] completed].
  unfold quietly in H. cbn [fst snd] in H.
  destruct H as (H1 & H2 & H3 & H4 & H5 & H6 & H7 & H8).
  destruct completed; unfold quietly; cbn [fst snd];
    rewrite ?new_sockets_app, ?reconnect_delays_app, ?H5, ?H6;
    cbn [new_sockets reconnect_delays flat_map app];
    quiet_now.
Qed.

Lemma onOpen_quietly cl now m : quietly m (onOpen cl now m).
Proof.
  unfold quietly, onOpen, subscribeTicker, clearConnectionTimeout.
  destruct m. quiet_by_cases.
Qed.

Lemma socket_becomes_current c r m :
  connectionId (socket_becomes c r m) = connectionId m
  /\ reconnectDelay (socket_becomes c r m) = reconnectDelay m
  /\ reconnectAttempts (socket_becomes c r m) = reconnectAttempts m
  /\ (ws_current m -> ws_current (socket_becomes c r m)).
Proof.
  unfold socket_becomes, ws_current. destruct m as [w ? ? ? ? ? ? ? ? ? ? ? ? ? ? ? ? ? ? ? ? ? ? ? ?].
  cbn. destruct w as [s|]; [|auto].
  destruct (Z.eqb_spec (conn s) c); cbn; quiet_now.
  intros H s' Hs'. injection Hs' as <-. cbn. subst c. now apply H.
Qed.

Lemma Qpower_ge_1 (z : Z) : 0 <= z -> (1 <= (3 # 2) ^ z)%Q.
Proof. intro H. apply Qpower_1_le; [discriminate | assumption]. Qed.

Lemma handleReconnect_delay (base a : Z) :
  0 <= a -> 0 < base ->
  delay_ok base (Math_min (inject_Z base * (3 # 2) ^ (a + 1 - 1)) 60000).
Proof.
  intros Ha Hb. unfold delay_ok, Math_min.
  pose proof (@Qpower_ge_1 (a + 1 - 1) ltac:(lia)) as Hp.
  assert (Hbase : (0 < inject_Z base)%Q).
  { change 0%Q with (inject_Z 0). now rewrite <- Zlt_Qlt. }
  assert (Hmul : (inject_Z base <= inject_Z base * (3 # 2) ^ (a + 1 - 1))%Q).
  { generalize dependent ((3 # 2) ^ (a + 1 - 1))%Q. intros p Hp. nra. }
  generalize dependent (inject_Z base * (3 # 2) ^ (a + 1 - 1))%Q.
  intros d Hd.
  destruct (Qle_bool d 60000) eqn:E1; destruct (Qle_bool (inject_Z base) 60000) eqn:E2;
    try apply Qle_bool_iff in E1; try apply Qle_bool_iff in E2;
    try apply Strategy.Qle_bool_false in E1;
    try apply Strategy.Qle_bool_false in E2;
    split; lra.
Qed.

Lemma handleReconnect_advances m : advances m (handleReconnect m).
Proof.
  unfold handleReconnect.
  destruct (reconnectTimeout m) eqn:Ht; [apply advances_refl|].
  destruct (maxReconnectAttempts m <=? reconnectAttempts m) eqn:Hl.
  - apply quietly_advances. destruct m; quiet_now.
  - constructor; cbn [fst snd new_sockets reconnect_delays flat_map app].
    + destruct m; cbn; lia.
    + destruct m; reflexivity.
    + destruct m; cbn; lia.
    + intros Ha Hb. constructor; [|constructor].
      pose proof (handleReconnect_delay Ha Hb) as H.
      unfold baseDelay in *. destruct m; cbn in *. exact H.
    + constructor.
    + constructor.
    + unfold ws_current. destruct m; cbn. auto.
    + destruct m; reflexivity.
    + unfold distinct_keys. destruct m; cbn. auto.
Qed.

Lemma advances_after m x e r :
  quietly m (x, e) -> advances x r -> advances m (fst r, e ++ snd r).
Proof.
  intros Hq Hr. exact (advances_seq (quietly_advances Hq) Hr).
Qed.

Lemma advances_then m x r :
  quietly m (x, []) -> advances x r -> advances m r.
Proof.
  intros Hq Hr. pose proof (advances_after Hq Hr) as H.
  destruct r as [m' e']. exact H.
Qed.

Lemma clearConnectionTimeout_quietly cl m :
  quietly m (clearConnectionTimeout cl m, []).
Proof.
  unfold quietly, clearConnectionTimeout. destruct m. cbn. quiet_now.
Qed.

Lemma onClose_advances cl now m : advances m (onClose cl now m).
Proof.
  unfold onClose. destruct (stale cl m); [apply advances_refl|].
  eapply advances_then; [|apply handleReconnect_advances].
  unfold quietly, clearConnectionTimeout. destruct m. cbn.
  quiet_now.
Qed.

Lemma connectionTimeoutFired_advances cl m :
  advances m (connectionTimeoutFired cl m).
Proof.
  unfold connectionTimeoutFired.
  pose proof (clearConnectionTimeout_quietly cl m) as Hq0.
  remember (clearConnectionTimeout cl m) as m0 eqn:Hm0. clear Hm0.
  destruct (ws m0) as [s|] eqn:Hws; [|now apply quietly_advances].
  destruct (ReadyState_eqb (readyState s) OPEN);
    [now apply quietly_advances|].
  eapply advances_then; [exact Hq0|].
  match goal with
  | |- context [handleReconnect ?x] =>
      assert (Hq : quietly m0 (x, [Terminate (conn s)]))
        by (unfold quietly; destruct m0; cbn; quiet_now);
      pose proof (advances_after Hq (handleReconnect_advances x)) as H;
      destruct (handleReconnect x) as [m' e']
  end.
  exact H.
Qed.

Lemma startConnection_advances ctor_ok now m :
  ws m = None -> advances m (startConnection ctor_ok now m).
Proof.
  intro Hws. unfold startConnection.
  destruct (connectOperationInProgress m) eqn:Hp.
  - apply quietly_advances. unfold quietly. destruct m. cbn.
    quiet_now.
  - destruct ctor_ok.
    + constructor; cbn [fst snd new_sockets reconnect_delays flat_map app].
      * destruct m; cbn; lia.
      * destruct m; reflexivity.
      * destruct m; cbn; auto.
      * intros _ _. constructor.
      * destruct m; cbn. repeat constructor.
      * destruct m; cbn. constructor; [lia|constructor].
      * intros _ s Hs. destruct m; cbn in *. injection Hs as <-. reflexivity.
      * destruct m; reflexivity.
      * unfold distinct_keys. destruct m; cbn. auto.
    + match goal with
      | |- advances _ (handleReconnect ?x) =>
          assert (H0 : advances m (x, []));
          [|pose proof (advances_seq H0 (handleReconnect_advances x)) as H;
            destruct (handleReconnect x) as [m' e']; exact H]
      end.
      constructor; cbn [fst snd new_sockets reconnect_delays flat_map].
      * destruct m; cbn; lia.
      * destruct m; reflexivity.
      * destruct m; cbn; auto.
      * intros _ _. constructor.
      * constructor.
      * constructor.
      * intros _ s Hs. destruct m; cbn in *. congruence.
      * destruct m; reflexivity.
      * unfold distinct_keys. destruct m; cbn. auto.
Qed.

Lemma set_symbol_quietly sym m : quietly m (set_symbol (Some sym) m, []).
Proof. unfold quietly. destruct m. cbn. quiet_now. Qed.

Lemma setupPriceWebSocket_advances ctor_ok sym now m :
  advances m (setupPriceWebSocket ctor_ok sym now m).
Proof.
  unfold setupPriceWebSocket. cbv zeta.
  eapply advances_then; [apply (set_symbol_quietly sym)|].
  remember (set_symbol (Some sym) m) as m0 eqn:Hm0. clear Hm0.
  destruct (ready_is m0 OPEN && (0 <? activeConnectionCount m0)).
  { destruct (isSubscribed (subscriptionState m0)).
    - apply advances_refl.
    - apply quietly_advances, subscribeTicker_quietly. }
  destruct (ready_is m0 CLOSING).
  { apply quietly_advances. unfold quietly. destruct m0. cbn.
    quiet_now. }
  destruct (ready_is m0 CONNECTING); [apply advances_refl|].
  destruct (has_ws m0 || (0 <? activeConnectionCount m0)) eqn:Hhas.
  - pose proof (closeAllConnections_quietly now m0) as Hc.
    destruct (closeAllConnections now m0) as [m1 e1].
    assert (Hq1 : quietly m0 (set_activeConnectionCount 0 (set_ws None m1), e1)).
    { unfold quietly in *. cbn [fst snd] in *.
      destruct Hc as (H1 & H2 & H3 & H4 & H5 & H6 & H7 & H8).
      unfold cache_grows in *. destruct m1; cbn in *. repeat split; auto. }
    assert (Hnone : ws (set_activeConnectionCount 0 (set_ws None m1)) = None)
      by (destruct m1; reflexivity).
    pose proof (advances_after Hq1 (@startConnection_advances ctor_ok now _ Hnone))
      as H.
    destruct (startConnection ctor_ok now _) as [m2 e2]. exact H.
  - assert (Hnone : ws m0 = None).
    { apply orb_false_iff in Hhas. destruct Hhas as [Hh _].
      unfold has_ws in Hh. destruct (ws m0); [discriminate|reflexivity]. }
    pose proof (@startConnection_advances ctor_ok now _ Hnone) as H.
    destruct (startConnection ctor_ok now m0) as [m2 e2]. exact H.
Qed.

Lemma after_socket_becomes c r m x :
  advances (socket_becomes c r m) x -> advances m x.
Proof.
  destruct (socket_becomes_current c r m) as (H1 & H2 & H3 & H4).
  intros [i d t q s f cur mx k].
  assert (Hp : processedMessages (socket_becomes c r m) = processedMessages m
               /\ maxProcessedMessages (socket_becomes c r m)
                  = maxProcessedMessages m).
  { unfold socket_becomes. destruct (ws m) as [s0|]; [|auto].
    destruct (conn s0 =? c); [destruct m; auto | auto]. }
  destruct Hp as [Hp1 Hp2].
  constructor; rewrite <- ?H1; auto; [| | |congruence|
    unfold distinct_keys in *; rewrite <- Hp1; exact k].
  - congruence.
  - intro H0. apply t. lia.
  - intros H0 Hb. rewrite <- (@baseDelay_eq _ _ H2).
    apply q; [lia|]. now rewrite (@baseDelay_eq _ _ H2).
Qed.

Lemma reconnectTimerFired_advances ctor_ok sym now m :
  advances m (reconnectTimerFired ctor_ok sym now m).
Proof.
  unfold reconnectTimerFired. cbv zeta.
  match goal with
  | |- context [isConnected now ?x] =>
      assert (Hq : quietly m (x, []))
        by (unfold quietly; destruct m; cbn; quiet_now);
      remember x as m0 eqn:Hm0; clear Hm0
  end.
  eapply advances_then; [exact Hq|].
  destruct (isConnected now m0); [apply advances_refl|].
  eapply advances_then; [|apply setupPriceWebSocket_advances].
  unfold quietly. destruct (_ >? _); destruct m0; cbn; quiet_now.
Qed.

Lemma setupRetryTimerFired_advances ctor_ok sym now m :
  advances m (setupRetryTimerFired ctor_ok sym now m).
Proof.
  unfold setupRetryTimerFired.
  destruct (pendingConnection m); [|apply advances_refl].
  eapply advances_then; [|apply setupPriceWebSocket_advances].
  unfold quietly. destruct m; cbn; quiet_now.
Qed.

Lemma step_advances now ev m : advances m (step now ev m).
Proof.
  destruct ev; cbn [step].
  - eapply after_socket_becomes. apply quietly_advances, onOpen_quietly.
  - apply quietly_advances, onMessage_quietly.
  - eapply after_socket_becomes. apply onClose_advances.
  - apply quietly_advances. unfold onError. destruct (stale cl m);
      quiet_now.
  - apply quietly_advances. unfold quietly, onPong. destruct m. cbn.
    quiet_now.
  - apply connectionTimeoutFired_advances.
  - apply reconnectTimerFired_advances.
  - apply setupRetryTimerFired_advances.
  - unfold resetTimerFired.
    destruct (symbol m) as [sym|]; [|apply advances_refl].
    destruct (String.eqb sym ""); [apply advances_refl|].
    apply setupPriceWebSocket_advances.
  - apply quietly_advances, heartbeatTick_quietly.
  - apply cleanupTick_advances.
  - apply setupPriceWebSocket_advances.
  - apply quietly_advances, resetConnectionState_quietly.
  - apply quietly_advances, resetConnection_quietly.
  - apply quietly_advances, closeWebSocket_quietly.
  - apply quietly_advances, closeAllConnections_quietly.
Qed.

Lemma run_advances evs : forall m, advances m (run evs m).
Proof.
  induction evs as [|[now ev] evs IH]; intro m; [apply advances_refl|].
  cbn [run].
  pose proof (step_advances now ev m) as H1.
  destruct (step now ev m) as [m1 e1].
  pose proof (IH m1) as H2.
  destruct (run evs m1) as [m2 e2].
  exact (advances_seq H1 H2).
Qed.

(** X20. Over any sequence of events, starting from a manager whose socket
    (if it holds one) belongs to the current connection: the sockets
    created carry strictly increasing connection ids, all above the
    connection id at the start and none above the one at the end; and at
    the end the socket the manager holds still belongs to the current
    connection. *)
Theorem connection_ids_increase (evs : list (Z * Event)) (m : Manager) :
  ws_current m ->
  let r := run evs m in
  StronglySorted Z.lt (new_sockets (snd r))
  /\ Forall (fun c => connectionId m < c <= connectionId (fst r))
            (new_sockets (snd r))
  /\ ws_current (fst r).
Proof.
  intros Hc r. destruct (run_advances evs m) as [_ _ _ _ Hs Hf Hcur].
  auto.
Qed.

Lemma connection_ids_increase_witness :
  ws_current (initial 0)
  /\ StronglySorted Z.lt (new_sockets (snd (run all_attempts_time_out (initial 0))))
  /\ ws_current (fst (run all_attempts_time_out (initial 0))).
Proof.
  assert (H : ws_current (initial 0)) by (intros s Hs; discriminate Hs).
  split; [exact H|].
  pose proof (@connection_ids_increase all_attempts_time_out (initial 0) H)
    as (H1 & _ & H3).
  split; [exact H1 | exact H3].
Defined.

(** X21. Over any sequence of events, starting with a reconnect count that
    is not negative and a positive base delay, every reconnect timer is set
    to a delay of at least the base delay (or one minute, if the base delay
    is more) and at most one minute. With the constructor's settings that
    is between 5 s and 60 s. *)
Theorem reconnect_delays_in_range (evs : list (Z * Event)) (m : Manager) :
  0 <= reconnectAttempts m -> 0 < baseDelay m ->
  Forall (delay_ok (baseDelay m)) (reconnect_delays (snd (run evs m))).
Proof.
  intros Ha Hb. destruct (run_advances evs m) as [_ _ _ Ht _ _ _]. auto.
Qed.

Lemma reconnect_delays_in_range_witness :
  0 <= reconnectAttempts (initial 0) /\ 0 < baseDelay (initial 0)
  /\ Forall (fun d => (5000 <= d)%Q /\ (d <= 60000)%Q)
            (reconnect_delays (snd (run all_attempts_time_out (initial 0)))).
Proof.
  assert (Ha : 0 <= reconnectAttempts (initial 0)) by (cbn; lia).
  assert (Hb : 0 < baseDelay (initial 0)) by reflexivity.
  split; [exact Ha|]. split; [exact Hb|].
  exact (@reconnect_delays_in_range all_attempts_time_out (initial 0) Ha Hb).
Defined.

(** X22. The dedup cache stays within its bounds: after any sequence of
    events, starting with distinct keys and a capacity that is not
    negative, a sweep leaves at most [maxProcessedMessages] entries, none of
    them older than ten minutes. *)
Theorem dedup_cache_bounded (evs : list (Z * Event)) (m : Manager) (now : Z) :
  distinct_keys m -> 0 <= maxProcessedMessages m ->
  let kept := processedMessages (cleanupTick now (fst (run evs m))) in
  Z.of_nat (List.length kept) <= maxProcessedMessages m
  /\ Forall (fun e => now - snd e <= expireTime) kept.
Proof.
  intros Hk Hmax kept. subst kept.
  destruct (run_advances evs m) as [_ _ _ _ _ _ _ Hm Hkeys].
  rewrite <- Hm in Hmax.
  destruct (@cleanupTick_spec now (fst (run evs m)) (Hkeys Hk) Hmax)
    as (H1 & H2 & _).
  rewrite Hm in H1. auto.
Qed.

Lemma dedup_cache_bounded_witness :
  distinct_keys (initial 0) /\ 0 <= maxProcessedMessages (initial 0)
  /\ Z.of_nat (List.length
                 (processedMessages
                    (cleanupTick 700000
                       (fst (run all_attempts_time_out (initial 0))))))
     <= maxProcessedMessages (initial 0).
Proof.
  assert (Hk : distinct_keys (initial 0)) by constructor.
  assert (Hm : 0 <= maxProcessedMessages (initial 0)) by (cbn; lia).
  split; [exact Hk|]. split; [exact Hm|].
  exact (proj1 (@dedup_cache_bounded all_attempts_time_out (initial 0) 700000
                                     Hk Hm)).
Defined.

(** X23. [setupPriceWebSocket] called while the manager still holds a
    socket that has closed goes through [closeAllConnections] and with it
    through [resetConnectionState]: whatever the reconnect count and the
    failed flag were, the count is 0 and the flag is down afterwards, and a
    new socket is created under the next connection id. Reconnects that
    follow a close therefore never run into the reconnect limit. *)
Theorem setup_over_closed_socket_resets (sym : string) (now : Z)
        (m : Manager) (s : Socket) :
  ws m = Some s -> readyState s = CLOSED ->
  let r := setupPriceWebSocket true sym now m in
  reconnectAttempts (fst r) = 0
  /\ failedToConnect (fst r) = false
  /\ new_sockets (snd r) = [connectionId m + 1]
  /\ ws (fst r) = Some (mkSocket (connectionId m + 1) CONNECTING).
Proof.
  intros Hws Hst r. subst r.
  unfold setupPriceWebSocket, closeAllConnections, closeWebSocket,
    startConnection, resetConnectionState, ready_is, has_ws.
  destruct m, s. cbn in Hws, Hst. subst. cbn.
  repeat split.
Qed.

Lemma setup_over_closed_socket_resets_witness :
  let m := fst (run [ (0, CallSetup true BTC);
                      (100, SocketClose (mkClosure 1 BTC)) ] (initial 0)) in
  ws m = Some (mkSocket 1 CLOSED) /\ readyState (mkSocket 1 CLOSED) = CLOSED
  /\ reconnectAttempts m = 1
  /\ reconnectAttempts (fst (setupPriceWebSocket true BTC 5100 m)) = 0.
Proof.
  cbv zeta.
  assert (H1 : ws (fst (run [ (0, CallSetup true BTC);
                              (100, SocketClose (mkClosure 1 BTC)) ]
                            (initial 0)))
               = Some (mkSocket 1 CLOSED)) by reflexivity.
  assert (H2 : readyState (mkSocket 1 CLOSED) = CLOSED) by reflexivity.
  split; [exact H1|]. split; [exact H2|]. split; [reflexivity|].
  exact (proj1 (@setup_over_closed_socket_resets BTC 5100 _ _ H1 H2)).
Defined.

(** Closing is idempotent: a second [closeWebSocket], and a second
    [closeAllConnections], right after the first changes nothing and does
    nothing to any socket. *)
Theorem closing_twice_is_closing_once (now later : Z) (m : Manager) :
  closeWebSocket later (fst (closeWebSocket now m))
  = (fst (closeWebSocket now m), [])
  /\ closeAllConnections later (fst (closeAllConnections now m))
     = (fst (closeAllConnections now m), []).
Proof.
  unfold closeAllConnections, closeWebSocket, resetConnectionState.
  destruct m as [w ? ? ? ? ? ? ? ? ? ? ? ? ? ? ? ? ? ? ? ? sub ? ? ?].
  destruct sub. destruct w as [[c st]|]; [destruct st|];
    split; vm_compute; reflexivity.
Qed.

Lemma heartbeatFailures_set v m :
  heartbeatFailures (set_heartbeatFailures v m) = v.
Proof. destruct m; reflexivity. Qed.

Lemma heartbeatFailures_sent now m :
  heartbeatFailures (set_lastHeartbeatSent now m) = heartbeatFailures m.
Proof. destruct m; reflexivity. Qed.

Lemma heartbeatTick_below_limit ping_ok now m :
  heartbeatFailures m < 2 ->
  let r := heartbeatTick ping_ok now m in
  ws (fst r) = ws m
  /\ ~ In SetResetTimer (snd r)
  /\ heartbeatFailures (fst r) <= heartbeatFailures m + 1
  /\ (ping_ok = false -> ready_is m OPEN = true ->
      heartbeatFailures (fst r) = heartbeatFailures m + 1).
Proof.
  intro Hlow. unfold heartbeatTick, ready_is, maxHeartbeatFailures.
  assert (Hlim : (3 <=? heartbeatFailures m + 1) = false)
    by (apply Z.leb_gt; lia).
  destruct (ws m) as [s|] eqn:Hws;
    [|cbn; repeat split; (tauto || lia || discriminate)].
  destruct (ReadyState_eqb (readyState s) OPEN);
    [|cbn; repeat split; (tauto || lia || discriminate)].
  destruct ping_ok.
  - cbv zeta. destruct (_ >? _).
    + rewrite heartbeatFailures_set, heartbeatFailures_sent, Hlim.
      cbn [fst snd]. rewrite heartbeatFailures_set.
      repeat split; try lia; try discriminate.
      * destruct m; exact Hws.
      * intros [Hi|Hi]; [discriminate Hi|exact Hi].
    + cbn [fst snd]. rewrite heartbeatFailures_sent.
      repeat split; try lia; try discriminate.
      * destruct m; exact Hws.
      * intros [Hi|Hi]; [discriminate Hi|exact Hi].
  - cbv zeta. rewrite heartbeatFailures_set, Hlim.
    cbn [fst snd]. rewrite heartbeatFailures_set.
    repeat split; try lia; try tauto.
Qed.

Lemma closeWebSocket_ws now m : ws (fst (closeWebSocket now m)) = None.
Proof.
  unfold closeWebSocket.
  destruct m as [w ? ? ? ? ? ? ? ? ? ? ? ? ? ? ? ? ? ? ? ? ? ? ? ?].
  destruct w as [s|]; reflexivity.
Qed.

Lemma heartbeatTick_at_limit now m :
  heartbeatFailures m = 2 -> ready_is m OPEN = true ->
  let r := heartbeatTick false now m in
  ws (fst r) = None /\ In SetResetTimer (snd r).
Proof.
  intros Hhf Hopen. unfold heartbeatTick, ready_is, maxHeartbeatFailures in *.
  destruct (ws m) as [s|]; [|discriminate]. rewrite Hopen.
  cbv zeta. rewrite heartbeatFailures_set, Hhf.
  change (3 <=? 2 + 1) with true. cbv iota.
  unfold resetConnection.
  pose proof (closeWebSocket_ws now (set_heartbeatFailures (2 + 1) m)) as Hc.
  destruct (closeWebSocket now (set_heartbeatFailures (2 + 1) m))
    as [m1 e1].
  cbn [fst snd] in *. split.
  - destruct m1; exact Hc.
  - apply in_or_app. right. now left.
Qed.

(** X24. A pong buys time: after a pong, the next two heartbeat ticks never
    reset the connection, whether their pings go out or fail and however
    late they come; the socket stays and no reset timer is set. The third
    failed ping in a row on an open socket resets the connection. *)
Theorem heartbeat_reset_takes_three (m : Manager) (t0 t1 t2 t3 : Z)
        (p1 p2 : bool) :
  let m0 := onPong t0 m in
  let r1 := heartbeatTick p1 t1 m0 in
  let r2 := heartbeatTick p2 t2 (fst r1) in
  let r3 := heartbeatTick false t3 (fst r2) in
  ws (fst r2) = ws m
  /\ ~ In SetResetTimer (snd r1 ++ snd r2)
  /\ (p1 = false -> p2 = false -> ready_is m OPEN = true ->
      ws (fst r3) = None /\ In SetResetTimer (snd r3)).
Proof.
  intros m0 r1 r2 r3.
  assert (H0 : heartbeatFailures m0 = 0 /\ ws m0 = ws m)
    by (unfold m0, onPong; destruct m; auto).
  destruct H0 as [Hf0 Hw0].
  destruct (@heartbeatTick_below_limit p1 t1 m0 ltac:(lia))
    as (Hw1 & Hn1 & Hf1 & He1).
  fold r1 in Hw1, Hn1, Hf1, He1.
  destruct (@heartbeatTick_below_limit p2 t2 (fst r1) ltac:(lia))
    as (Hw2 & Hn2 & Hf2 & He2).
  fold r2 in Hw2, Hn2, Hf2, He2.
  split; [congruence|]. split.
  - intro H. apply in_app_or in H. tauto.
  - intros -> -> Hopen.
    assert (Ho0 : ready_is m0 OPEN = true)
      by (unfold ready_is in *; now rewrite Hw0).
    assert (Ho1 : ready_is (fst r1) OPEN = true)
      by (unfold ready_is in *; now rewrite Hw1, Hw0).
    assert (Ho2 : ready_is (fst r2) OPEN = true)
      by (unfold ready_is in *; now rewrite Hw2, Hw1, Hw0).
    apply heartbeatTick_at_limit; [|assumption].
    rewrite (He2 eq_refl Ho1), (He1 eq_refl Ho0). lia.
Qed.

Lemma heartbeat_reset_takes_three_witness :
  let m := WsManager.second_connection_open in
  let r1 := heartbeatTick false 140000 (onPong 110000 m) in
  let r2 := heartbeatTick false 170000 (fst r1) in
  let r3 := heartbeatTick false 200000 (fst r2) in
  ready_is m OPEN = true
  /\ ws (fst r2) = ws m
  /\ ws (fst r3) = None /\ In SetResetTimer (snd r3).
Proof.
  cbv zeta.
  assert (Ho : ready_is WsManager.second_connection_open OPEN = true)
    by reflexivity.
  pose proof (@heartbeat_reset_takes_three
                WsManager.second_connection_open 110000 140000 170000 200000
                false false) as H.
  cbv zeta in H. destruct H as (H1 & _ & H3).
  split; [exact Ho|]. split; [exact H1|].
  exact (H3 eq_refl eq_refl Ho).
Defined.

End WsFacts.

(* ================================================================== *)
(** * TradingCycleController: what the cycle sends to the exchange *)
(* ================================================================== *)

Module Cycle.

Import FuturesApp.

Local Open Scope Z_scope.

(** A computation that sends only requests satisfying [P], and takes none
    back. *)
Definition sends (P : Request -> Prop) (A : Type) (c : M A) : Prop :=
  forall s, exists added,
    requests (snd (snd (c s))) = requests (snd s) ++ added
    /\ Forall P added.

(** The request that submits a rung of the ladder. *)
Definition rung_request (order : Planner.Order) : Request :=
  ReqCreateFuturesOrder Buy Limit (Planner.quantity order)
                        (Some (Planner.price order)).

(** A request that is not a sell order and not a market order. *)
Definition buys_at_limit (r : Request) : Prop :=
  match r with
  | ReqCreateFuturesOrder side type _ price =>
      side = Buy /\ type = Limit /\ price <> None
  | _ => True
  end.

(** The controller of the examples configured for the short side, and the
    same controller holding 0.5 long from 100 with the price at 50. *)
Definition short_app : App :=
  mkApp default_config true SHORT 1 3 (1 # 2) false 0 0 0 0 0 false None true
        0 false (Some 100%Q) 100 (Some 1000) None 0 0.

Definition losing_app : App :=
  mkApp default_config true LONG 1 3 (1 # 2) true (1 # 2) 100 0 97 (201 # 2)
        false None true 0 true (Some 50%Q) 50 (Some 1000) None 1000 0.

(** An exchange on which the position of [losing_app] is open. *)
Definition position_open : Exchange :=
  mkExchange (fun _ => PositionsArray [mkPosition (1 # 2) 100 (-25)])
             (fun _ => OpenOrders 0)
             (fun _ => CancelResult true) (fun _ => CreateOk)
             (fun _ => Ticker None).

Lemma sends_ret P (A : Type) (x : A) : sends P (ret x).
Proof. intro s. exists []. split; [now rewrite app_nil_r | constructor]. Qed.

Lemma sends_bind P (A B : Type) (c : M A) (k : A -> M B) :
  sends P c -> (forall x, sends P (k x)) -> sends P (bind c k).
Proof.
  intros Hc Hk s. unfold bind. destruct (Hc s) as (a1 & He1 & Ha1).
  destruct (c s) as [x s1]. cbn [snd] in He1.
  destruct (Hk x s1) as (a2 & He2 & Ha2).
  exists (a1 ++ a2). split.
  - rewrite He2, He1. now rewrite app_assoc.
  - apply Forall_app. split; assumption.
Qed.

Lemma sends_get P : sends P get.
Proof. intro s. exists []. split; [now rewrite app_nil_r | constructor]. Qed.

Lemma sends_now P : sends P now.
Proof. intro s. exists []. split; [now rewrite app_nil_r | constructor]. Qed.

Lemma sends_modify P f : sends P (modify f).
Proof. intro s. exists []. split; [now rewrite app_nil_r | constructor]. Qed.

Lemma sends_sleep P ms : sends P (sleep ms).
Proof. intro s. exists []. split; [now rewrite app_nil_r | constructor]. Qed.

Lemma sends_call P (A : Type) (r : Request) (reply : nat -> A) :
  P r -> sends P (call r reply).
Proof.
  intros Hr s. exists [r]. split; [reflexivity|]. now constructor.
Qed.

Ltac sends_step :=
  first [ apply sends_ret | apply sends_get | apply sends_now
        | apply sends_modify | apply sends_sleep
        | apply sends_call; cbn; now auto
        | apply sends_bind; [|intro] ].

Lemma sends_getMarketPrice P exchange :
  P ReqGetFuturesTicker -> sends P (getMarketPrice exchange).
Proof.
  intro H. unfold getMarketPrice.
  apply sends_bind; [apply sends_get|]. intro a.
  destruct (truthy_Q (currentPriceInfo a)); [apply sends_ret|].
  apply sends_bind; [now apply sends_call|]. intros [|lastPrice];
    [apply sends_ret|].
  destruct (truthy_Q lastPrice); apply sends_ret.
Qed.

Lemma sends_getPositionInfo P exchange :
  P ReqGetPositions -> sends P (getPositionInfo exchange).
Proof.
  intro H. unfold getPositionInfo.
  apply sends_bind; [now apply sends_call|]. intros [| |[|p ps]];
    apply sends_modify.
Qed.

Lemma sends_cancelOpenOrders P exchange :
  P ReqGetOpenOrders -> P ReqCancelAllOrders ->
  sends P (cancelOpenOrders exchange).
Proof.
  intros H1 H2. unfold cancelOpenOrders.
  apply sends_bind; [now apply sends_call|]. intros [|[|n]];
    try apply sends_ret.
  apply sends_bind; [now apply sends_call|]. intros [|truthy];
    [apply sends_ret|].
  apply sends_bind; [apply sends_sleep|]. intros _.
  apply sends_bind; [now apply sends_call|]. intros [|k]; apply sends_ret.
Qed.

Lemma sends_placeOrders P exchange orders :
  (forall order, P (rung_request order)) ->
  forall successCount failedCount,
    sends P (placeOrders exchange orders successCount failedCount).
Proof.
  intro H. induction orders as [|order rest IH]; intros sc fc; cbn [placeOrders].
  - apply sends_ret.
  - apply sends_bind; [apply sends_call, H|]. intros [insufficient| |].
    + destruct insufficient; [apply sends_ret | apply IH].
    + apply sends_bind; [apply sends_sleep|]. intros _. apply IH.
    + apply sends_bind; [apply sends_sleep|]. intros _. apply IH.
Qed.

Lemma sends_startTakeProfitMonitoring P : sends P startTakeProfitMonitoring.
Proof.
  unfold startTakeProfitMonitoring.
  apply sends_bind; [apply sends_get|]. intro a.
  destruct (negb (running a)); [apply sends_ret|].
  repeat sends_step.
Qed.

Lemma sends_placeLadder P exchange plan currentPrice :
  P ReqGetOpenOrders -> P ReqCancelAllOrders ->
  (forall order, P (rung_request order)) ->
  sends P (placeLadder exchange plan currentPrice).
Proof.
  intros H1 H2 H3. unfold placeLadder.
  apply sends_bind; [now apply sends_call|]. intros [|n]; [apply sends_ret|].
  apply sends_bind; [apply sends_get|]. intro a. cbv zeta.
  destruct (_ && _); [apply sends_ret|].
  apply sends_bind.
  { destruct (0 <? n)%nat; [|apply sends_ret].
    apply sends_bind; [now apply sends_cancelOpenOrders|]. intros _.
    apply sends_ret. }
  intros _. apply sends_bind; [apply sends_modify|]. intros _.
  apply sends_bind; [apply sends_get|]. intro a1.
  destruct (plan _ _ _ _ _ _) as [|order rest]; [apply sends_ret|].
  apply sends_bind; [now apply sends_placeOrders|]. intro counts.
  destruct (0 <? fst counts)%nat; [|apply sends_ret].
  apply sends_bind; [apply sends_now|]. intro t.
  apply sends_bind; [apply sends_modify|]. intros _.
  apply sends_bind; [apply sends_get|]. intro a2.
  destruct (negb (monitoringInterval a2)); [|apply sends_ret].
  apply sends_bind; [apply sends_startTakeProfitMonitoring|]. intros _.
  apply sends_ret.
Qed.

Lemma sends_executeTrade P exchange plan :
  P ReqGetFuturesTicker -> P ReqGetPositions ->
  P ReqGetOpenOrders -> P ReqCancelAllOrders ->
  (forall order, P (rung_request order)) ->
  sends P (executeTrade exchange plan).
Proof.
  intros H0 H1 H2 H3 H4. unfold executeTrade.
  apply sends_bind; [now apply sends_getMarketPrice|]. intros [p|];
    [|apply sends_ret].
  unfold tradeAt.
  apply sends_bind; [apply sends_get|]. intro a.
  apply sends_bind; [apply sends_now|]. intro t.
  destruct (negb _); [apply sends_ret|].
  apply sends_bind; [now apply sends_getPositionInfo|]. intros _.
  unfold afterPositionQuery.
  apply sends_bind; [apply sends_get|]. intro a1.
  destruct (negb (canFetchPositions a1)); [apply sends_ret|].
  destruct (hasOpenPosition a1).
  - destruct (_ || _); [apply sends_modify | apply sends_ret].
  - now apply sends_placeLadder.
Qed.

(** X25. Whatever the exchange answers and whatever the controller's state,
    position side included, every order [executeTrade] submits is a Buy
    order of type Limit with a price: on the short side too the cycle opens
    with the buy ladder of [calculateIncrementalOrders]. Requests already
    sent stay as they are. *)
Theorem executeTrade_only_buys
        (exchange : Exchange)
        (plan : Q -> Q -> Q -> nat -> Q -> Q -> list Planner.Order)
        (s : State) :
  exists added,
    requests (snd (snd (executeTrade exchange plan s)))
    = requests (snd s) ++ added
    /\ Forall buys_at_limit added.
Proof.
  apply (@sends_executeTrade buys_at_limit exchange plan); cbn; auto.
  intro order. repeat split. discriminate.
Qed.

(** The cycle of a controller configured for the short side. *)
Example short_side_buys :
  map (fun r => match r with
                | ReqCreateFuturesOrder side type _ (Some p) =>
                    Some (side, type, Qred p)
                | _ => None
                end)
      (order_actions
         (snd (snd (executeTrade positions_unavailable two_rungs
                                 (short_app, mkWorld 2000 [])))))
  = [ Some (Buy, Limit, 100%Q); Some (Buy, Limit, 99%Q) ].
Proof. vm_compute. reflexivity. Qed.

(** One turn of the loop of [placeOrders]. *)
Lemma placeOrders_cons exchange order rest successCount failedCount
      (s : State) :
  placeOrders exchange (order :: rest) successCount failedCount s
  = let sent := requests (snd s) ++ [rung_request order] in
    let s1 := (fst s, mkWorld (clock (snd s)) sent) in
    let s2 := (fst s, mkWorld (clock (snd s) + 1000) sent) in
    match createFuturesOrder exchange (asked (rung_request order) (snd s)) with
    | CreateThrow true => ((successCount, S failedCount), s1)
    | CreateThrow false =>
        placeOrders exchange rest successCount (S failedCount) s1
    | CreateNull => placeOrders exchange rest successCount (S failedCount) s2
    | CreateOk => placeOrders exchange rest (S successCount) failedCount s2
    end.
Proof.
  cbn [placeOrders]. unfold bind at 1, call at 1, asked, rung_request.
  cbn [fst snd].
  destruct (createFuturesOrder exchange _) as [[|]| |]; reflexivity.
Qed.

(** The requests and the counts of [placeOrders], by induction on the
    rungs. *)
Lemma placeOrders_prefix exchange orders :
  forall successCount failedCount s,
    exists k,
      (k <= List.length orders)%nat
      /\ requests (snd (snd (placeOrders exchange orders
                                         successCount failedCount s)))
         = requests (snd s) ++ map rung_request (firstn k orders)
      /\ (fst (fst (placeOrders exchange orders successCount failedCount s))
          + snd (fst (placeOrders exchange orders successCount failedCount s))
          = successCount + failedCount + k)%nat
      /\ ((k < List.length orders)%nat ->
          exists n, createFuturesOrder exchange n = CreateThrow true).
Proof.
  induction orders as [|order rest IH]; intros sc fc s.
  - exists 0%nat. cbn. rewrite app_nil_r. repeat split; lia.
  - rewrite placeOrders_cons. cbv zeta.
    destruct (createFuturesOrder exchange _) as [[|]| |] eqn:Hreply.
    + exists 1%nat. cbn [fst snd firstn map List.length requests].
      repeat split; try lia. intros _. eauto.
    + match goal with
      | |- context [placeOrders exchange rest ?x ?y ?st] =>
          destruct (IH x y st) as (k & Hk & Hreq & Hcount & Hstop)
      end.
      exists (S k). cbn [firstn map List.length]. cbn [snd requests] in Hreq.
      repeat split; try lia.
      * rewrite Hreq, <- app_assoc. reflexivity.
      * intro Hlt. apply Hstop. lia.
    + match goal with
      | |- context [placeOrders exchange rest ?x ?y ?st] =>
          destruct (IH x y st) as (k & Hk & Hreq & Hcount & Hstop)
      end.
      exists (S k). cbn [firstn map List.length]. cbn [snd requests] in Hreq.
      repeat split; try lia.
      * rewrite Hreq, <- app_assoc. reflexivity.
      * intro Hlt. apply Hstop. lia.
    + match goal with
      | |- context [placeOrders exchange rest ?x ?y ?st] =>
          destruct (IH x y st) as (k & Hk & Hreq & Hcount & Hstop)
      end.
      exists (S k). cbn [firstn map List.length]. cbn [snd requests] in Hreq.
      repeat split; try lia.
      * rewrite Hreq, <- app_assoc. reflexivity.
      * intro Hlt. apply Hstop. lia.
Qed.

(** X26. [placeOrders] submits the rungs in order, one request each, and
    stops early only after a submission that threw an insufficient-funds
    error: the requests it adds are those of a prefix of the ladder, the
    two counts add up to the number of requests sent, and if the exchange
    never throws that error the whole ladder is submitted. *)
Theorem placeOrders_submits_prefix
        (exchange : Exchange) (orders : list Planner.Order) (s : State) :
  let r := placeOrders exchange orders 0 0 s in
  exists k,
    (k <= List.length orders)%nat
    /\ requests (snd (snd r))
       = requests (snd s) ++ map rung_request (firstn k orders)
    /\ (fst (fst r) + snd (fst r) = k)%nat
    /\ ((forall n, createFuturesOrder exchange n <> CreateThrow true) ->
        k = List.length orders).
Proof.
  intro r. subst r.
  destruct (@placeOrders_prefix exchange orders 0%nat 0%nat s)
    as (k & Hk & Hreq & Hcount & Hstop).
  exists k. repeat split; try assumption; try lia.
  intro Hnever.
  destruct (Nat.eq_dec k (List.length orders)) as [E|E]; [assumption|].
  destruct Hstop as (n & Hn); [lia|]. exfalso. exact (Hnever n Hn).
Qed.

(** X27. The monitoring callback has no stop-loss: while the exchange
    reports an open position whose profit at the known price is below the
    take-profit percentage, however large the loss and whatever
    [stopLossPrice] and [stopLossPercentage] hold, the tick places and
    cancels nothing and the position stays open. *)
Theorem monitoringTick_ignores_stop_loss
        (exchange : Exchange)
        (plan : Q -> Q -> Q -> nat -> Q -> Q -> list Planner.Order)
        (a : App) (w : World)
        (position : Position) (others : list Position) (p : Q) :
  getPositions exchange (asked ReqGetPositions w)
  = PositionsArray (position :: others) ->
  takeProfitTriggered a = false ->
  truthy_Q (currentPriceInfo a) = Some p ->
  (calculateProfitPercentage
     p (pos_entryPrice position)
     (negb (Qle_bool (netQuantity position) 0))
   < futuresTakeProfitPercentage (config a))%Q ->
  let s := snd (monitoringTick exchange plan (a, w)) in
  order_actions (snd s) = order_actions w
  /\ hasOpenPosition (fst s) = true
  /\ stopLossPrice (fst s) = stopLossPrice a.
Proof.
  intros Hpos Htrig Hprice Hlow. cbv zeta.
  apply Strategy.Qle_bool_false in Hlow. unfold asked in Hpos.
  assert (E : monitoringTick exchange plan (a, w)
              = (tt,
                 (set_loopLastPositionCheckTime
                    (clock w)
                    (set_positionSide
                       (if negb (Qle_bool (netQuantity position) 0)
                        then LONG else SHORT)
                       (set_unrealizedPnl
                          (pnlUnrealized position)
                          (set_entryPrice
                             (pos_entryPrice position)
                             (set_positionAmount
                                (netQuantity position)
                                (set_hasOpenPosition
                                   true
                                   (set_canFetchPositions
                                      true
                                      (set_monitoringAttempts
                                         (monitoringAttempts a + 1) a))))))),
                  mkWorld (clock w) (requests w ++ [ReqGetPositions])))).
  { destruct a.
    cbn [takeProfitTriggered currentPriceInfo config] in Htrig, Hprice, Hlow.
    subst.
    unfold monitoringTick, bind at 1 2, modify at 1, displayAccountInfo,
      modify at 1.
    cbn -[calculateProfitPercentage Qle_bool truthy_Q getPositionInfo].
    rewrite Hprice.
    unfold bind at 1, getPositionInfo, bind at 1, call at 1. cbn [fst snd].
    rewrite Hpos.
    unfold modify at 1. cbn [fst snd].
    unfold bind at 1, get at 1.
    cbn -[calculateProfitPercentage Qle_bool truthy_Q getMarketPrice].
    unfold getMarketPrice, bind at 1, get at 1.
    cbn -[calculateProfitPercentage Qle_bool truthy_Q].
    rewrite Hprice.
    cbn -[calculateProfitPercentage Qle_bool truthy_Q].
    destruct (negb (Qle_bool (netQuantity position) 0));
      rewrite Hlow; reflexivity. }
  rewrite E. cbn [fst snd]. repeat split.
  unfold order_actions. cbn [requests].
  rewrite filter_app. cbn. apply app_nil_r.
Qed.

(** A long position from 100 with the stop at 97 and the price at 50. *)
Lemma monitoringTick_ignores_stop_loss_witness :
  let s := snd (monitoringTick position_open two_rungs
                               (losing_app, mkWorld 2000 [])) in
  (currentPriceInfo losing_app = Some 50%Q
   /\ stopLossPrice losing_app = 97%Q)
  /\ order_actions (snd s) = []
  /\ hasOpenPosition (fst s) = true
  /\ stopLossPrice (fst s) = 97%Q.
Proof.
  split; [split; reflexivity|].
  apply (@monitoringTick_ignores_stop_loss
           position_open two_rungs losing_app (mkWorld 2000 [])
           (mkPosition (1 # 2) 100 (-25)) [] 50%Q);
    vm_compute; reflexivity.
Defined.

End Cycle.

(* ================================================================== *)
(** * PriceMonitor: the periodic check and the REST fallback *)
(* ================================================================== *)

Module Watchdog.

Import WsManager.
Import PriceMonitor.

Local Open Scope Z_scope.

(** The fields of a [PriceMonitor] (src/app.js) that the periodic check and
    the REST fallback read or write, around the price state. The three
    fields after [lastRestApiCheck] are set by the constructor (60000,
    30000 and 5) and never assigned again. [lastRestApiCheck] is a time in
    milliseconds that the backoff of a failed request can move off the
    integers. *)
Record Watch : Type := mkWatch {
  prices : Monitor;
  monitoring : bool;
  startMonitoringTime : Z;
  usingFallbackApi : bool;
  restApiEnabled : bool;
  lastRestApiCheck : Q;
  restApiInterval : Q;
  restApiRetryInterval : Q;
  maxConsecutiveFailures : Z;
  restApiConsecutiveFailures : Z
}.

Definition set_prices (v : Monitor) (x : Watch) : Watch :=
  mkWatch v (monitoring x) (startMonitoringTime x) (usingFallbackApi x) (restApiEnabled x) (lastRestApiCheck x) (restApiInterval x) (restApiRetryInterval x) (maxConsecutiveFailures x) (restApiConsecutiveFailures x).

Definition set_usingFallbackApi (v : bool) (x : Watch) : Watch :=
  mkWatch (prices x) (monitoring x) (startMonitoringTime x) v (restApiEnabled x) (lastRestApiCheck x) (restApiInterval x) (restApiRetryInterval x) (maxConsecutiveFailures x) (restApiConsecutiveFailures x).

Definition set_lastRestApiCheck (v : Q) (x : Watch) : Watch :=
  mkWatch (prices x) (monitoring x) (startMonitoringTime x) (usingFallbackApi x) (restApiEnabled x) v (restApiInterval x) (restApiRetryInterval x) (maxConsecutiveFailures x) (restApiConsecutiveFailures x).

Definition set_restApiConsecutiveFailures (v : Z) (x : Watch) : Watch :=
  mkWatch (prices x) (monitoring x) (startMonitoringTime x) (usingFallbackApi x) (restApiEnabled x) (lastRestApiCheck x) (restApiInterval x) (restApiRetryInterval x) (maxConsecutiveFailures x) v.

(** What a run of the check or of the fallback does to the outside. *)
Inductive Action : Type :=
| Transport (e : Effect)              (* an effect of the connection manager *)
| RestRequest (silent : bool) (start : Z)
                                      (* [axios.get] of the Backpack ticker *)
| SetRestartTimer.                    (* [setTimeout(..., 3000)] *)

(** The readings of [Date.now()] during one run of [checkPriceDataStatus]:
    its own, the one of the [fetchPriceFromApi] of the branch taken, the one
    inside the connection manager, and the one of the [fetchPriceFromApi]
    of the periodic REST check. *)
Record Readings : Type := mkReadings {
  atCheck : Z;
  atFetch : Z;
  atManager : Z;
  atPeriodic : Z
}.

Definition Qlt_bool (a b : Q) : bool := negb (Qle_bool b a).

(** The synchronous head of [fetchPriceFromApi(silent)]: the request goes
    out unless the last REST check is less than five seconds old. *)
Definition fetchPriceFromApi (silent : bool) (now : Z) (w : Watch)
  : Watch * list Action :=
  let minApiCallInterval := 5000%Q in
  if negb (Qeq_bool (lastRestApiCheck w) 0)
     && Qlt_bool (inject_Z now - lastRestApiCheck w) minApiCallInterval
  then (w, [])
  else (set_lastRestApiCheck (inject_Z now) w, [RestRequest silent now]).

Section Monitoring.

(** [this.symbol], the string [startMonitoring] was called with. *)
Variable symbol : string.

(** [fetchPriceFromApi] once a REST answer with a valid price has come in:
    [start] is the [now] the call began with, [done] the reading of
    [Date.now()] inside [handlePriceUpdate]. The source passed to
    [handlePriceUpdate] is the one just written to [priceSource]. *)
Definition restPriceReceived (source prefix : string) (fallback : bool)
           (price : Q) (start done : Z) (w : Watch) : Watch * list Delivery :=
  let mon := prices w in
  let mon := set_lastPrice (currentPrice mon) mon in
  let mon := set_currentPrice price mon in
  let mon := set_lastUpdateTime (Some start) mon in
  let mon := set_priceSource (Some source) mon in
  let w := if fallback then set_usingFallbackApi true w else w in
  let w := set_restApiConsecutiveFailures 0 w in
  let apiEventId := (prefix ++ "_" ++ symbol ++ "_" ++ show_Z start)%string in
  if has apiEventId (processedPriceEvents mon) then (set_prices mon w, [])
  else
    let mon := set_processedPriceEvents
                 (processedPriceEvents mon ++ [(apiEventId, start)]) mon in
    (set_prices mon w, handlePriceUpdate price symbol done mon).

(** The outer [catch] of [fetchPriceFromApi]; [done] is its reading of
    [Date.now()]. *)
Definition restFailed (done : Z) (w : Watch) : Watch :=
  let w := set_restApiConsecutiveFailures
             (restApiConsecutiveFailures w + 1) w in
  if 1 <? restApiConsecutiveFailures w then
    let additionalDelay :=
      Math_min 300000
               (restApiRetryInterval w
                * (3 # 2) ^ (restApiConsecutiveFailures w - 1))%Q in
    set_lastRestApiCheck
      (inject_Z done + additionalDelay - restApiInterval w)%Q w
  else w.

(** The rest of [fetchPriceFromApi], after the request has gone out.
    [backpack] and [binance] are the prices parsed from the two answers;
    [None] stands for a request that failed and for an answer without a
    price or with one that is not a number. The second request is made only
    if the first gave no valid price. *)
Definition fetchCompleted (backpack binance : option Q) (start done : Z)
           (w : Watch) : Watch * list Delivery :=
  let valid (reply : option Q) :=
    match reply with
    | Some price => if isPriceValid price then Some price else None
    | None => None
    end in
  match valid backpack with
  | Some price =>
      restPriceReceived "Backpack REST" "restapi" false price start done w
  | None =>
      match valid binance with
      | Some price =>
          restPriceReceived "Binance REST" "binanceapi" true price start done w
      | None => (restFailed done w, [])
      end
  end.

Definition transport (r : Manager * list Effect) : Manager * list Action :=
  (fst r, map Transport (snd r)).

(** The part of [checkPriceDataStatus] that looks at the age of the price
    data. [reportConnectionStatus], which the check calls every five
    minutes, only writes to the log. *)
Definition checkDataAge (ctor_ok : bool) (clk : Readings) (w : Watch)
           (m : Manager) : Watch * Manager * list Action :=
  let now := atCheck clk in
  let wsConnected := isConnected (atManager clk) m in
  let wsSubscribed := isSubscribed (subscriptionState m) in
  let wsConnectInProgress := connectOperationInProgress m in
  match truthy_time (lastUpdateTime (prices w)) with
  | Some last =>
      let dataAge := now - last in
      if dataAge >? 45000 then
        if negb wsConnected then
          let '(w, e1) := fetchPriceFromApi false (atFetch clk) w in
          if negb wsConnectInProgress then
            let '(m, e2) :=
              transport (setupPriceWebSocket ctor_ok symbol (atManager clk) m) in
            (w, m, e1 ++ e2)
          else (w, m, e1)
        else if wsConnected && negb wsSubscribed && negb wsConnectInProgress
        then
          let '(m, e1) := transport (subscribeTicker symbol (atManager clk) m) in
          let '(w, e2) := fetchPriceFromApi false (atFetch clk) w in
          (w, m, e1 ++ e2)
        else if dataAge >? 60000 then
          let '(w, e1) := fetchPriceFromApi false (atFetch clk) w in
          if (dataAge >? 120000) && negb wsConnectInProgress then
            let '(m, e2) := transport (closeWebSocket (atManager clk) m) in
            (w, m, e1 ++ e2 ++ [SetRestartTimer])
          else (w, m, e1)
        else (w, m, [])
      else (w, m, [])
  | None =>
      let startupTime := now - startMonitoringTime w in
      if startupTime >? 20000 then
        let '(w, e1) := fetchPriceFromApi false (atFetch clk) w in
        if startupTime >? 45000 then
          if negb wsConnected && negb wsConnectInProgress then
            let '(m, e2) := transport (closeWebSocket (atManager clk) m) in
            let '(m, e3) :=
              transport (setupPriceWebSocket ctor_ok symbol (atManager clk) m) in
            (w, m, e1 ++ e2 ++ e3)
          else if wsConnected && negb wsSubscribed && negb wsConnectInProgress
          then
            let '(m, e2) :=
              transport (subscribeTicker symbol (atManager clk) m) in
            (w, m, e1 ++ e2)
          else (w, m, e1)
        else (w, m, e1)
      else (w, m, [])
  end.

(** The end of [checkPriceDataStatus]: the REST check that is to run even
    while the stream is healthy. *)
Definition periodicRestCheck (clk : Readings) (w : Watch)
  : Watch * list Action :=
  let now := inject_Z (atCheck clk) in
  if restApiEnabled w
     && Qlt_bool (restApiInterval w) (now - lastRestApiCheck w)
  then
    let actualInterval :=
      if maxConsecutiveFailures w <=? restApiConsecutiveFailures w
      then 180000%Q
      else if 2 <? restApiConsecutiveFailures w then 120000%Q
      else restApiInterval w in
    if Qlt_bool actualInterval (now - lastRestApiCheck w) then
      fetchPriceFromApi true (atPeriodic clk) (set_lastRestApiCheck now w)
    else (w, [])
  else (w, []).

(** [checkPriceDataStatus()], run every ten seconds while monitoring. *)
Definition checkPriceDataStatus (ctor_ok : bool) (clk : Readings) (w : Watch)
           (m : Manager) : Watch * Manager * list Action :=
  if negb (monitoring w) then (w, m, [])
  else if 1 <? activeConnectionCount m then
    let '(m, e) := transport (closeAllConnections (atManager clk) m) in
    (w, resetConnectionState m, e ++ [SetRestartTimer])
  else
    let '(w, m, e1) := checkDataAge ctor_ok clk w m in
    let '(w, e2) := periodicRestCheck clk w in
    (w, m, e1 ++ e2).

(** The callback of the three-second timer of [checkPriceDataStatus]. *)
Definition restartTimerFired (ctor_ok : bool) (now : Z) (w : Watch)
           (m : Manager) : Manager * list Action :=
  if monitoring w
  then transport (setupPriceWebSocket ctor_ok symbol now m)
  else (m, []).

End Monitoring.

(** The REST requests among the actions, and the sockets created. *)
Definition rest_requests (acts : list Action) : list (bool * Z) :=
  flat_map (fun a => match a with
                     | RestRequest silent start => [(silent, start)]
                     | _ => []
                     end) acts.

Definition sockets_created (acts : list Action) : list Z :=
  flat_map (fun a => match a with
                     | Transport (NewWebSocket c) => [c]
                     | _ => []
                     end) acts.

(** A monitor as the constructor leaves it, monitoring since [since], with
    the price state [mon]. *)
Definition watching (since : Z) (mon : Monitor) : Watch :=
  mkWatch mon true since false true 0 60000 30000 5 0.

(** The price state after a stream price of 100 received at time [t]. *)
Definition priced (t : Z) : Monitor :=
  mkMonitor 100 0 (Some t) (Some "WebSocket"%string) (Some t) [] 1000
            false false (Some BTC).

(** ** The REST requests *)

Lemma fetchPriceFromApi_refused silent now w :
  ~ lastRestApiCheck w == 0 ->
  (inject_Z now - lastRestApiCheck w < 5000)%Q ->
  fetchPriceFromApi silent now w = (w, []).
Proof.
  intros Hne Hlt. unfold fetchPriceFromApi, Qlt_bool.
  rewrite (proj2 (Strategy.Qeq_bool_false _ _) Hne).
  rewrite (proj2 (Strategy.Qle_bool_false _ _) Hlt). reflexivity.
Qed.

Lemma fetchPriceFromApi_requests silent now w :
  Forall (fun r => fst r = silent)
         (rest_requests (snd (fetchPriceFromApi silent now w))).
Proof.
  unfold fetchPriceFromApi. destruct (_ && _); cbn; repeat constructor.
Qed.

Lemma rest_requests_app a b :
  rest_requests (a ++ b) = rest_requests a ++ rest_requests b.
Proof. unfold rest_requests. apply flat_map_app. Qed.

Lemma rest_requests_transport effs :
  rest_requests (map Transport effs) = [].
Proof. induction effs as [|e effs IH]; [reflexivity | exact IH]. Qed.

Lemma sockets_created_app a b :
  sockets_created (a ++ b) = sockets_created a ++ sockets_created b.
Proof. unfold sockets_created. apply flat_map_app. Qed.

Lemma periodicRestCheck_silent clk w :
  atCheck clk <> 0 ->
  atPeriodic clk - atCheck clk < 5000 ->
  snd (periodicRestCheck clk w) = [].
Proof.
  intros Hnow Hgap. unfold periodicRestCheck.
  destruct (_ && _); [|reflexivity].
  destruct (Qlt_bool _ _); [|reflexivity].
  rewrite fetchPriceFromApi_refused; [reflexivity | |].
  - destruct w; cbn. intro H. apply Hnow.
    unfold Qeq in H. cbn in H. lia.
  - destruct w; cbn. unfold Qlt, Qminus, Qplus, Qopp, inject_Z. cbn. lia.
Qed.

Lemma checkDataAge_requests symbol ctor_ok clk w m :
  Forall (fun r => fst r = false)
         (rest_requests (snd (checkDataAge symbol ctor_ok clk w m))).
Proof.
  unfold checkDataAge, transport.
  repeat match goal with
         | |- context [fetchPriceFromApi false ?t ?x] =>
             let H := fresh "Hf" in
             pose proof (fetchPriceFromApi_requests false t x) as H;
             destruct (fetchPriceFromApi false t x)
         | |- context [match ?x with _ => _ end] =>
             lazymatch x with
             | context [match _ with _ => _ end] => fail
             | _ => destruct x eqn:?
             end
         end;
    cbn [fst snd] in *;
    repeat rewrite rest_requests_app;
    repeat rewrite rest_requests_transport;
    repeat rewrite app_nil_r;
    try assumption; try constructor.
Qed.

(** X28. The REST check that [checkPriceDataStatus] is to run every minute
    whatever the state of the stream never sends a request: it sets
    [lastRestApiCheck] to the current time and then calls
    [fetchPriceFromApi(true)], which declines a call made less than five
    seconds after the last check. Every REST request the check sends is the
    loud one of a branch that found the data stale or missing. *)
Theorem periodic_rest_check_never_asks
        (symbol : string) (ctor_ok : bool) (clk : Readings)
        (w : Watch) (m : Manager) :
  atCheck clk <> 0 ->
  atPeriodic clk - atCheck clk < 5000 ->
  snd (periodicRestCheck clk w) = []
  /\ Forall (fun r => fst r = false)
            (rest_requests
               (snd (checkPriceDataStatus symbol ctor_ok clk w m))).
Proof.
  intros Hnow Hgap. split; [now apply periodicRestCheck_silent|].
  unfold checkPriceDataStatus.
  destruct (negb (monitoring w)); [constructor|].
  destruct (1 <? activeConnectionCount m).
  - unfold transport. destruct (closeAllConnections _ m) as [m1 e1].
    cbn [fst snd]. rewrite rest_requests_app, rest_requests_transport.
    constructor.
  - pose proof (checkDataAge_requests symbol ctor_ok clk w m) as Hage.
    destruct (checkDataAge symbol ctor_ok clk w m) as [[w1 m1] e1].
    pose proof (@periodicRestCheck_silent clk w1 Hnow Hgap) as Hper.
    destruct (periodicRestCheck clk w1) as [w2 e2].
    cbn [fst snd] in *. subst e2. rewrite app_nil_r. exact Hage.
Qed.

(** A minute after the last check, with the stream healthy. *)
Lemma periodic_rest_check_never_asks_witness :
  let clk := mkReadings 1700000100000 1700000100000 1700000100000
                        1700000100001 in
  let w := set_lastRestApiCheck 1700000000000
             (watching 1700000000000 (priced 1700000099000)) in
  Qlt_bool (restApiInterval w) (inject_Z (atCheck clk) - lastRestApiCheck w)
  = true
  /\ snd (periodicRestCheck clk w) = []
  /\ Forall (fun r => fst r = false)
            (rest_requests
               (snd (checkPriceDataStatus BTC true clk w
                                          (initial 1700000000000)))).
Proof.
  intros clk w. split; [reflexivity|].
  apply (@periodic_rest_check_never_asks
           BTC true clk w (initial 1700000000000)).
  - discriminate.
  - reflexivity.
Defined.

(** ** The REST price and the subscriber *)

Lemma handlePriceUpdate_iff price sym now mon last :
  (0 < price)%Q ->
  lastUpdateTime mon = Some last -> last <> 0 ->
  (handlePriceUpdate price sym now mon <> [] <-> 100 <= now - last).
Proof.
  intros Hp Hl Hl0. unfold handlePriceUpdate, isPriceValid.
  rewrite (proj2 (Strategy.Qle_bool_false _ _) Hp). cbn [negb].
  rewrite Hl. unfold truthy_time, truthy_num.
  destruct (Z.eqb_spec last 0); [contradiction|].
  destruct (Z.ltb_spec (now - last) 100) as [Hlt|Hge].
  - split; [intro Hne; now contradiction Hne | lia].
  - split; [intros _; assumption | intros _; discriminate].
Qed.

(** X29. [fetchPriceFromApi] stamps the price with the time the call began
    and then hands it to [handlePriceUpdate], which drops an update made
    less than 100 ms after [lastUpdateTime]: a valid Backpack price reaches
    the subscriber if and only if the request took at least 100 ms. The
    price state is updated either way. *)
Theorem rest_price_delivered_iff_slow
        (symbol : string) (price : Q) (binance : option Q)
        (start done : Z) (w : Watch) :
  (0 < price)%Q ->
  start <> 0 ->
  has ("restapi_" ++ symbol ++ "_" ++ show_Z start)%string
      (processedPriceEvents (prices w)) = false ->
  let r := fetchCompleted symbol (Some price) binance start done w in
  currentPrice (prices (fst r)) = price
  /\ lastUpdateTime (prices (fst r)) = Some start
  /\ (snd r <> [] <-> 100 <= done - start)
  /\ (100 <= done - start ->
      snd r = [mkDelivery symbol price (Some "Backpack REST"%string) done
                          (currentPrice (prices w))
                          (if Qle_bool (currentPrice (prices w)) 0 then 0%Q
                           else ((price - currentPrice (prices w))
                                 / currentPrice (prices w))%Q)]).
Proof.
  intros Hp Hs Hnew. cbv zeta. unfold fetchCompleted, isPriceValid.
  rewrite (proj2 (Strategy.Qle_bool_false _ _) Hp). cbn [negb].
  unfold restPriceReceived.
  replace (processedPriceEvents
             (set_priceSource
                (Some "Backpack REST"%string)
                (set_lastUpdateTime
                   (Some start)
                   (set_currentPrice
                      price
                      (set_lastPrice (currentPrice (prices w)) (prices w))))))
    with (processedPriceEvents (prices w)) by (destruct (prices w); reflexivity).
  change ("restapi" ++ "_" ++ symbol ++ "_" ++ show_Z start)%string
    with ("restapi_" ++ symbol ++ "_" ++ show_Z start)%string.
  rewrite Hnew. cbn [fst snd].
  split; [destruct w as [mon ? ? ? ? ? ? ? ? ?]; destruct mon; reflexivity|].
  split; [destruct w as [mon ? ? ? ? ? ? ? ? ?]; destruct mon; reflexivity|].
  split.
  - apply handlePriceUpdate_iff with (last := start);
      [assumption | destruct (prices w); reflexivity | assumption].
  - intro Hslow. unfold handlePriceUpdate, isPriceValid.
    rewrite (proj2 (Strategy.Qle_bool_false _ _) Hp). cbn [negb].
    destruct (prices w) as [cp lp lu ps rt ev mx t1 t2 sy]. cbn.
    unfold truthy_time, truthy_num.
    destruct (Z.eqb_spec start 0); [contradiction|].
    destruct (Z.ltb_spec (done - start) 100); [lia|]. reflexivity.
Qed.

(** An answer after 40 ms, and the same answer after 140 ms. *)
Lemma rest_price_delivered_iff_slow_witness :
  let t := 1700000100000 in
  let w := watching 1700000000000 (priced 1700000050000) in
  snd (fetchCompleted BTC (Some 101%Q) None t (t + 40) w) = []
  /\ snd (fetchCompleted BTC (Some 101%Q) None t (t + 140) w)
     = [mkDelivery BTC 101 (Some "Backpack REST"%string) (t + 140) 100
                   ((101 - 100) / 100)%Q].
Proof.
  intros t w.
  assert (Hp : (0 < 101)%Q) by reflexivity.
  assert (Hs : t <> 0) by discriminate.
  assert (Hnew : has ("restapi_" ++ BTC ++ "_" ++ show_Z t)%string
                     (processedPriceEvents (prices w)) = false)
    by reflexivity.
  split.
  - destruct (@rest_price_delivered_iff_slow
                BTC 101%Q None t (t + 40) w Hp Hs Hnew)
      as (_ & _ & Hiff & _).
    destruct (snd (fetchCompleted BTC (Some 101%Q) None t (t + 40) w))
      as [|d ds]; [reflexivity|].
    exfalso.
    assert (H : 100 <= t + 40 - t) by (apply Hiff; discriminate).
    revert H. vm_compute. intro H. apply H. reflexivity.
  - destruct (@rest_price_delivered_iff_slow
                BTC 101%Q None t (t + 140) w Hp Hs Hnew)
      as (_ & _ & _ & Hd).
    apply Hd. vm_compute. discriminate.
Defined.

(** ** The check and the reconnect limit *)

Lemma sockets_created_transport effs :
  sockets_created (map Transport effs)
  = flat_map (fun e => match e with NewWebSocket c => [c] | _ => [] end) effs.
Proof.
  induction effs as [|e effs IH]; [reflexivity|].
  cbn [map]. change (sockets_created (Transport e :: map Transport effs))
    with ((match e with NewWebSocket c => [c] | _ => [] end)
          ++ sockets_created (map Transport effs)).
  rewrite IH. reflexivity.
Qed.

Lemma fetchPriceFromApi_sockets silent now w :
  sockets_created (snd (fetchPriceFromApi silent now w)) = [].
Proof. unfold fetchPriceFromApi. destruct (_ && _); reflexivity. Qed.

Lemma setupPriceWebSocket_without_socket sym now m :
  ws m = None ->
  connectOperationInProgress m = false ->
  activeConnectionCount m <= 1 ->
  let r := setupPriceWebSocket true sym now m in
  snd r = [NewWebSocket (connectionId m + 1)]
  /\ ws (fst r) = Some (mkSocket (connectionId m + 1) CONNECTING)
  /\ failedToConnect (fst r) = (failedToConnect m
                                && negb (0 <? activeConnectionCount m)).
Proof.
  intros Hws Hop Hcount. cbv zeta.
  destruct m. cbn in Hws, Hop, Hcount. subst.
  unfold setupPriceWebSocket, ready_is, has_ws, closeAllConnections,
    closeWebSocket, startConnection, resetConnectionState, update_sub.
  cbn -[Z.add Z.ltb].
  destruct (0 <? activeConnectionCount0);
    cbn -[Z.add]; repeat split;
    destruct failedToConnect0; reflexivity.
Qed.

(** X30. The periodic check does not respect the manager's reconnect limit.
    While monitoring, if the last price is more than 45 s old and the
    manager holds no socket and has no connect operation in progress, the
    check calls [setupPriceWebSocket], which creates the next socket:
    whatever [reconnectAttempts] and [failedToConnect] say, and so also
    after [handleReconnect] has given up. *)
Theorem check_reconnects_after_give_up
        (symbol : string) (clk : Readings) (w : Watch) (m : Manager)
        (last : Z) :
  monitoring w = true ->
  lastUpdateTime (prices w) = Some last -> last <> 0 ->
  45000 < atCheck clk - last ->
  ws m = None ->
  connectOperationInProgress m = false ->
  activeConnectionCount m <= 1 ->
  let r := checkPriceDataStatus symbol true clk w m in
  sockets_created (snd r) = [connectionId m + 1]
  /\ ws (snd (fst r)) = Some (mkSocket (connectionId m + 1) CONNECTING).
Proof.
  intros Hmon Hlast Hl0 Hage Hws Hop Hcount. cbv zeta.
  unfold checkPriceDataStatus. rewrite Hmon. cbn [negb].
  destruct (Z.ltb_spec 1 (activeConnectionCount m)) as [Hmany|_]; [lia|].
  unfold checkDataAge. rewrite Hlast.
  unfold truthy_time, truthy_num.
  destruct (Z.eqb_spec last 0); [contradiction|].
  destruct (Z.gtb_spec (atCheck clk - last) 45000) as [_|Hfresh]; [|lia].
  assert (Hconn : isConnected (atManager clk) m = false).
  { unfold isConnected. rewrite Hws. now rewrite andb_false_r. }
  rewrite Hconn, Hop. cbn [negb].
  pose proof (fetchPriceFromApi_sockets false (atFetch clk) w) as Hf.
  destruct (fetchPriceFromApi false (atFetch clk) w) as [w1 e1].
  destruct (@setupPriceWebSocket_without_socket
              symbol (atManager clk) m Hws Hop Hcount) as (He & Hs & _).
  unfold transport.
  destruct (setupPriceWebSocket true symbol (atManager clk) m) as [m1 e2].
  cbn [fst snd] in *. subst e2.
  destruct (periodicRestCheck clk w1) as [w2 e3] eqn:Hper.
  cbn [fst snd]. split; [|exact Hs].
  rewrite !sockets_created_app, Hf. cbn [app map].
  assert (He3 : sockets_created e3 = []).
  { revert Hper. unfold periodicRestCheck.
    destruct (_ && _); [|intro E; inversion E; reflexivity].
    destruct (Qlt_bool _ _); [|intro E; inversion E; reflexivity].
    intro E.
    pose proof (fetchPriceFromApi_sockets
                  true (atPeriodic clk)
                  (set_lastRestApiCheck (inject_Z (atCheck clk)) w1)) as Hs2.
    rewrite E in Hs2. exact Hs2. }
  rewrite He3. reflexivity.
Qed.

(** The manager that has just given up, a minute after the last price. *)
Lemma check_reconnects_after_give_up_witness :
  let gaveUp := fst (handleReconnect limit_reached) in
  let clk := mkReadings 1700000100000 1700000100000 1700000100000
                        1700000100000 in
  let w := watching 1700000000000 (priced 1700000040000) in
  (failedToConnect gaveUp = true
   /\ maxReconnectAttempts gaveUp <= reconnectAttempts gaveUp)
  /\ sockets_created (snd (checkPriceDataStatus BTC true clk w gaveUp))
     = [connectionId gaveUp + 1]
  /\ ws (snd (fst (checkPriceDataStatus BTC true clk w gaveUp)))
     = Some (mkSocket (connectionId gaveUp + 1) CONNECTING).
Proof.
  intros gaveUp clk w.
  split; [split; [reflexivity | vm_compute; discriminate]|].
  apply (@check_reconnects_after_give_up
           BTC clk w gaveUp 1700000040000).
  - reflexivity.
  - reflexivity.
  - discriminate.
  - reflexivity.
  - reflexivity.
  - reflexivity.
  - vm_compute. discriminate.
Defined.

End Watchdog.
